(** * LoopExecutor: leverage loop and unwind, checked against the specification

    A shallow embedding of [LoopExecutor.ts] (the leveraged-staking engine over
    the Stash lending pool and the MOTO token).  Values of type [u256] are
    natural numbers ([N]); every arithmetic step goes through [SafeMath], which
    fails instead of wrapping.  Contract methods are computations in a
    state-and-failure monad over the contract's storage; every
    [Blockchain.call] is answered by an arbitrary environment and logged.
    The notifications the contract emits ([emitEvent]) carry no state and are
    left out.  Arguments range over all of [N]: what holds for every natural
    number holds for every 256-bit one, and the bound matters only where
    [SafeMath] checks it. *)

From Stdlib Require Import NArith List String Lia Bool.
From Stdlib Require Import Strings.Byte.
From stdpp Require Import base option gmap.
Import ListNotations.
Local Open Scope N_scope.

(** ** Values *)

Abbreviation u256 := N (only parsing).

(** [u256.Max]. *)
Definition U256_MAX : N := 2 ^ 256 - 1.

(** An [Address] is 32 bytes; it is kept as the number those bytes spell. *)
Abbreviation Address := N (only parsing).

(** [Address.zero()]. *)
Definition zero_address : Address := 0.

(** ** Failures

    [Revert msg] is [throw new Revert(msg)] in the contract itself; the other
    constructors are the failures of the runtime the contract is built on. *)
Inductive Failure : Type :=
| Revert (msg : string)
| ArithmeticOverflow
| ArithmeticUnderflow
| DivisionByZero
| CallFailed
| ReadBeyondBuffer.

Inductive Result (A : Type) : Type :=
| Ok (a : A)
| Err (e : Failure).
Arguments Ok {A} a.
Arguments Err {A} e.

Definition is_ok {A} (r : Result A) : bool :=
  match r with Ok _ => true | Err _ => false end.

(** The error kinds of the specification, as the messages the code reverts with. *)
Definition Paused : Failure := Revert "Contract is paused".
Definition Reentrant : Failure := Revert "Reentrant call".
Definition BelowMinimumDeposit : Failure := Revert "Amount below minimum deposit".
Definition LeverageAboveCap : Failure := Revert "Leverage exceeds 3x cap".
Definition LeverageBelowOne : Failure := Revert "Leverage must be >= 1x".
Definition PositionAlreadyActive : Failure := Revert "Another position is already active".
Definition HealthFactorTooLow : Failure := Revert "Health factor below minimum 1.5".
Definition NoOpenPosition : Failure := Revert "No open position".
Definition NotPositionOwner : Failure := Revert "Not position owner".
Definition UnwindIncomplete : Failure := Revert "Unwind incomplete: residual debt remains".

(** [LeverageOutOfRange] covers the two leverage messages. *)
Definition LeverageOutOfRange (e : Failure) : Prop :=
  e = LeverageAboveCap \/ e = LeverageBelowOne.

(** ** SafeMath *)

(** Modelled from the spec: [SafeMath] belongs to the runtime library, outside
    the repository; section 4.1 gives its contract: results are unsigned
    256-bit integers and each operation fails on overflow, underflow or
    division by zero, never wrapping. *)
Module SafeMath.

Definition add (a b : u256) : Result u256 :=
  if a + b <=? U256_MAX then Ok (a + b) else Err ArithmeticOverflow.

Definition sub (a b : u256) : Result u256 :=
  if b <=? a then Ok (a - b) else Err ArithmeticUnderflow.

Definition mul (a b : u256) : Result u256 :=
  if a * b <=? U256_MAX then Ok (a * b) else Err ArithmeticOverflow.

Definition div (a b : u256) : Result u256 :=
  if b =? 0 then Err DivisionByZero else Ok (a / b).

End SafeMath.

(** ** Constants of the contract *)

Definition FEE_BASIS : u256 := 10000.
Definition ENTRY_FEE_BPS : u256 := 50.
Definition EXIT_FEE_BPS : u256 := 50.
Definition MIN_DEPOSIT : u256 := 10000.
Definition MAX_LEVERAGE_E18 : u256 := 3000000000000000000.
Definition MIN_HEALTH_FACTOR_E18 : u256 := 1500000000000000000.
Definition E18 : u256 := 1000000000000000000.
Definition MAX_LOOPS : nat := 5.

(** ** Return data of an external call

    The runtime's [BytesReader], as the contract uses it: [readU256] takes 32
    bytes, most significant first, [readBoolean] takes one byte and compares
    it with zero, and both fail on a buffer that is too short. *)
Definition be_value (bs : list byte) : N :=
  fold_left (fun acc b => acc * 256 + Byte.to_N b) bs 0.

Definition readU256 (data : list byte) : Result u256 :=
  if (32 <=? length data)%nat then Ok (be_value (firstn 32 data))
  else Err ReadBeyondBuffer.

Definition readBoolean (data : list byte) : Result bool :=
  match data with
  | b :: _ => Ok (negb (Byte.to_N b =? 0))
  | [] => Err ReadBeyondBuffer
  end.

(** What [BytesWriter.writeU256] and [writeBoolean] produce, for building
    concrete answers. *)
Definition byte_of_N (n : N) : byte :=
  match Byte.of_N (n mod 256) with Some b => b | None => x00 end.

Fixpoint be_bytes (len : nat) (n : N) : list byte :=
  match len with
  | O => []
  | S len' => be_bytes len' (n / 256) ++ [byte_of_N n]
  end.

Definition writeU256 (n : u256) : list byte := be_bytes 32 n.
Definition writeBoolean (b : bool) : list byte := [if b then x01 else x00].

(** ** External calls

    The calldata the contract writes, by selector.  The first four are the
    OP20 token's, the rest are the Stash pool's. *)
Inductive Calldata : Type :=
| TransferFrom (from to : Address) (amount : u256)
| Transfer (to : Address) (amount : u256)
| IncreaseAllowance (spender : Address) (amount : u256)
| DecreaseAllowance (spender : Address) (amount : u256)
| StashDeposit (token : Address) (amount : u256)
| StashBorrow (token : Address) (amount : u256)
| StashRepay (token : Address) (amount : u256)
| StashWithdraw (token : Address) (amount : u256)
| StashHealthFactor (account : Address)
| StashBorrowBalance (account : Address)
| StashMaxBorrowable (account : Address)
| StashDepositBalance (account : Address).

Record ExtCall : Type := mkCall { callee : Address; calldata : Calldata }.

(** One entry of the call log: the call and the data it returned ([None] when
    the callee failed). *)
Record Event : Type := mkEvent { ev_call : ExtCall; ev_ret : option (list byte) }.

(** ** Storage of the contract *)
Record Storage : Type := mkStorage {
  treasury : Address;
  stash : Address;
  moto : Address;
  paused : bool;
  locked : bool;
  totalFeesCollected : u256;
  activeUser : Address;
  userDeposits : gmap N N;
  userDebts : gmap N N
}.

(** [AddressMemoryMap.get]: an address never written reads as zero. *)
Definition map_get (m : gmap N N) (a : Address) : u256 := default 0 (m !! a).
Definition map_set (m : gmap N N) (a : Address) (v : u256) : gmap N N := <[a := v]> m.

Definition set_treasury (a : Address) (s : Storage) : Storage :=
  mkStorage a (stash s) (moto s) (paused s) (locked s) (totalFeesCollected s)
            (activeUser s) (userDeposits s) (userDebts s).
Definition set_stash (a : Address) (s : Storage) : Storage :=
  mkStorage (treasury s) a (moto s) (paused s) (locked s) (totalFeesCollected s)
            (activeUser s) (userDeposits s) (userDebts s).
Definition set_moto (a : Address) (s : Storage) : Storage :=
  mkStorage (treasury s) (stash s) a (paused s) (locked s) (totalFeesCollected s)
            (activeUser s) (userDeposits s) (userDebts s).
Definition set_paused (b : bool) (s : Storage) : Storage :=
  mkStorage (treasury s) (stash s) (moto s) b (locked s) (totalFeesCollected s)
            (activeUser s) (userDeposits s) (userDebts s).
Definition set_locked (b : bool) (s : Storage) : Storage :=
  mkStorage (treasury s) (stash s) (moto s) (paused s) b (totalFeesCollected s)
            (activeUser s) (userDeposits s) (userDebts s).
Definition set_totalFeesCollected (v : u256) (s : Storage) : Storage :=
  mkStorage (treasury s) (stash s) (moto s) (paused s) (locked s) v
            (activeUser s) (userDeposits s) (userDebts s).
Definition set_activeUser (a : Address) (s : Storage) : Storage :=
  mkStorage (treasury s) (stash s) (moto s) (paused s) (locked s) (totalFeesCollected s)
            a (userDeposits s) (userDebts s).
Definition set_userDeposit (a : Address) (v : u256) (s : Storage) : Storage :=
  mkStorage (treasury s) (stash s) (moto s) (paused s) (locked s) (totalFeesCollected s)
            (activeUser s) (map_set (userDeposits s) a v) (userDebts s).
Definition set_userDebt (a : Address) (v : u256) (s : Storage) : Storage :=
  mkStorage (treasury s) (stash s) (moto s) (paused s) (locked s) (totalFeesCollected s)
            (activeUser s) (userDeposits s) (map_set (userDebts s) a v).

(** ** Fee

    [feeRoundUp]: (amount * bps + basis - 1) / basis, through [SafeMath]. *)
Definition rbind {A B} (r : Result A) (k : A -> Result B) : Result B :=
  match r with Ok a => k a | Err e => Err e end.

Definition feeRoundUp (amount bps : u256) : Result u256 :=
  rbind (SafeMath.mul amount bps) (fun numerator =>
  rbind (SafeMath.sub FEE_BASIS 1) (fun basis_less_one =>
  rbind (SafeMath.add numerator basis_less_one) (fun sum =>
  SafeMath.div sum FEE_BASIS))).

(** The fee as the specification writes it. *)
Definition ceilFee (amount bps : N) : N := (amount * bps + 10000 - 1) / 10000.

(** ** Safe withdrawal amount of one unwind round (closePosition, the block
    that sets [withdrawAmount]). *)
Definition withdrawAmount (remainingCollateral remainingDebt : u256) : Result u256 :=
  rbind (SafeMath.div remainingCollateral 2) (fun half =>
  rbind (if remainingDebt <? remainingCollateral
         then rbind (SafeMath.sub remainingCollateral remainingDebt) (fun excess =>
              Ok (if half <? excess then excess else half))
         else Ok half) (fun w =>
  let w := if w =? 0 then 1 else w in
  Ok (if remainingCollateral <? w then remainingCollateral else w))).

(** The same amount as the specification words it: half of the collateral;
    the excess over the debt when the collateral exceeds the debt and that
    excess is larger; then at least 1 and at most the collateral. *)
Definition safe_withdrawal_spec (c d : N) : N :=
  let base := c / 2 in
  let chosen := if (d <? c) && (base <? c - d) then c - d else base in
  N.min c (N.max 1 chosen).

(** ** The execution monad

    A method runs from a storage and a state of the outside world (token
    ledger, pool and every other contract).  It yields the log of the external
    calls it made, the world and storage it reached, and a value or the
    failure that stopped it.  A failure reverts the transaction: [transact]
    below discards what a failed run reached. *)
Record Run (World A : Type) : Type := mkRun {
  events : list Event;
  world_of : World;
  store_of : Storage;
  result : Result A
}.
Arguments mkRun {World A}.
Arguments events {World A}.
Arguments world_of {World A}.
Arguments store_of {World A}.
Arguments result {World A}.

Definition M (World A : Type) : Type := Storage -> World -> Run World A.

Definition ret {World A} (a : A) : M World A :=
  fun st w => mkRun [] w st (Ok a).

Definition throw {World A} (e : Failure) : M World A :=
  fun st w => mkRun [] w st (Err e).

(** The run [r], with the calls [tr] made before it. *)
Definition after {World A} (tr : list Event) (r : Run World A) : Run World A :=
  mkRun (tr ++ events r) (world_of r) (store_of r) (result r).

Definition bind {World A B} (m : M World A) (k : A -> M World B) : M World B :=
  fun st w =>
    let r := m st w in
    match result r with
    | Ok a => after (events r) (k a (store_of r) (world_of r))
    | Err e => mkRun (events r) (world_of r) (store_of r) (Err e)
    end.

Notation "x <- m ;; k" := (bind m (fun x => k))
  (at level 100, m at next level, right associativity).
Notation "m ;;; k" := (bind m (fun _ => k))
  (at level 100, right associativity).

Definition lift {World A} (r : Result A) : M World A :=
  match r with Ok a => ret a | Err e => throw e end.

(** Reading and writing storage. *)
Definition load {World A} (f : Storage -> A) : M World A :=
  fun st w => mkRun [] w st (Ok (f st)).

Definition store {World} (f : Storage -> Storage) : M World unit :=
  fun st w => mkRun [] w (f st) (Ok tt).

(** A transaction commits the storage and world of a successful run and
    keeps the old ones when the run fails. *)
Definition transact {World A} (m : M World A) (st : Storage) (w : World)
  : Storage * World * Result A :=
  let r := m st w in
  match result r with
  | Ok a => (store_of r, world_of r, Ok a)
  | Err e => (st, w, Err e)
  end.

(** ** The contract *)
Section LoopExecutor.

(** The outside world: its states, and how it answers a call ([None]: the
    callee failed).  Callees cannot write this contract's storage: both
    entry points hold the lock and the administrative methods belong to the
    deployer. *)
Context {World : Type}.
Variable extcall : World -> ExtCall -> option (list byte * World).

(** [Blockchain.contract.address] and the deployer the runtime recorded. *)
Variable this : Address.
Variable deployer : Address.

(** [Blockchain.call(target, w, true)]: a failing callee stops the caller. *)
Definition call (c : ExtCall) : M World (list byte) :=
  fun st w =>
    match extcall w c with
    | Some (data, w') => mkRun [mkEvent c (Some data)] w' st (Ok data)
    | None => mkRun [mkEvent c None] w st (Err CallFailed)
    end.

(** *** Internal helpers *)

Definition nonReentrant : M World unit :=
  l <- load locked ;;
  if l then throw Reentrant else store (set_locked true).

Definition releaseGuard : M World unit := store (set_locked false).

Definition whenNotPaused : M World unit :=
  p <- load paused ;;
  if p then throw Paused else ret tt.

Definition validateNonZeroAddress (addr : Address) (label : string) : M World unit :=
  if addr =? zero_address
  then throw (Revert (label ++ " cannot be zero address"))
  else ret tt.

Definition onlyDeployer (caller : Address) : M World unit :=
  if caller =? deployer then ret tt
  else throw (Revert "Only deployer can call this method").

(** A token call succeeded unless it returned data that reads as false. *)
Definition checked (c : ExtCall) (msg : string) : M World unit :=
  data <- call c ;;
  match data with
  | [] => ret tt
  | _ :: _ =>
      ok <- lift (readBoolean data) ;;
      if ok then ret tt else throw (Revert msg)
  end.

Definition safeTransferFrom (token from to : Address) (amount : u256) : M World unit :=
  checked (mkCall token (TransferFrom from to amount)) "transferFrom failed".

Definition safeTransfer (token to : Address) (amount : u256) : M World unit :=
  checked (mkCall token (Transfer to amount)) "transfer failed".

Definition safeIncreaseAllowance (token spender : Address) (amount : u256) : M World unit :=
  checked (mkCall token (IncreaseAllowance spender amount)) "increaseAllowance failed".

Definition safeDecreaseAllowance (token spender : Address) (amount : u256) : M World unit :=
  checked (mkCall token (DecreaseAllowance spender amount)) "decreaseAllowance failed".

(** *** Stash cross-contract calls *)

Definition stashDeposit (amount : u256) : M World unit :=
  s <- load stash ;; t <- load moto ;;
  call (mkCall s (StashDeposit t amount)) ;;; ret tt.

Definition stashBorrow (amount : u256) : M World unit :=
  s <- load stash ;; t <- load moto ;;
  call (mkCall s (StashBorrow t amount)) ;;; ret tt.

Definition stashRepay (amount : u256) : M World unit :=
  s <- load stash ;; t <- load moto ;;
  call (mkCall s (StashRepay t amount)) ;;; ret tt.

Definition stashWithdraw (amount : u256) : M World unit :=
  s <- load stash ;; t <- load moto ;;
  call (mkCall s (StashWithdraw t amount)) ;;; ret tt.

Definition stashHealthFactor : M World u256 :=
  s <- load stash ;;
  data <- call (mkCall s (StashHealthFactor this)) ;;
  lift (readU256 data).

Definition stashBorrowBalance : M World u256 :=
  s <- load stash ;;
  data <- call (mkCall s (StashBorrowBalance this)) ;;
  lift (readU256 data).

Definition stashMaxBorrowable : M World u256 :=
  s <- load stash ;;
  data <- call (mkCall s (StashMaxBorrowable this)) ;;
  lift (readU256 data).

Definition stashDepositBalance : M World u256 :=
  s <- load stash ;;
  data <- call (mkCall s (StashDepositBalance this)) ;;
  lift (readU256 data).

Definition enforceHealthFactor : M World unit :=
  hf <- stashHealthFactor ;;
  if hf <? MIN_HEALTH_FACTOR_E18 then throw HealthFactorTooLow else ret tt.

(** *** openPosition *)

(** The leverage loop, [n] rounds left.  It returns the loop variables
    [totalDeposited] and [totalBorrowed] as they stand when it stops. *)
Fixpoint leverageLoop (n : nat) (targetTotalDeposit totalDeposited totalBorrowed
                                 currentAmount : u256) : M World (u256 * u256) :=
  match n with
  | O => ret (totalDeposited, totalBorrowed)
  | S n' =>
      if currentAmount =? 0 then ret (totalDeposited, totalBorrowed) else
      stashDeposit currentAmount ;;;
      totalDeposited <- lift (SafeMath.add totalDeposited currentAmount) ;;
      if targetTotalDeposit <=? totalDeposited then ret (totalDeposited, totalBorrowed) else
      maxBorrowable <- stashMaxBorrowable ;;
      if maxBorrowable =? 0 then ret (totalDeposited, totalBorrowed) else
      remaining <- lift (SafeMath.sub targetTotalDeposit totalDeposited) ;;
      let borrowAmount := if maxBorrowable <? remaining then maxBorrowable else remaining in
      if borrowAmount =? 0 then ret (totalDeposited, totalBorrowed) else
      stashBorrow borrowAmount ;;;
      totalBorrowed <- lift (SafeMath.add totalBorrowed borrowAmount) ;;
      enforceHealthFactor ;;;
      leverageLoop n' targetTotalDeposit totalDeposited totalBorrowed borrowAmount
  end.

Definition openPosition (sender : Address) (amount targetLeverageE18 : u256) : M World bool :=
  whenNotPaused ;;;
  nonReentrant ;;;
  if amount <? MIN_DEPOSIT then throw BelowMinimumDeposit else
  if MAX_LEVERAGE_E18 <? targetLeverageE18 then throw LeverageAboveCap else
  if targetLeverageE18 <? E18 then throw LeverageBelowOne else
  active <- load activeUser ;;
  if negb (active =? zero_address) then throw PositionAlreadyActive else
  token <- load moto ;;
  safeTransferFrom token sender this amount ;;;
  entryFee <- lift (feeRoundUp amount ENTRY_FEE_BPS) ;;
  netDeposit <- lift (SafeMath.sub amount entryFee) ;;
  (if 0 <? entryFee then
     token <- load moto ;; to <- load treasury ;;
     safeTransfer token to entryFee ;;;
     fees <- load totalFeesCollected ;;
     fees <- lift (SafeMath.add fees entryFee) ;;
     store (set_totalFeesCollected fees)
   else ret tt) ;;;
  token <- load moto ;; pool <- load stash ;;
  safeIncreaseAllowance token pool U256_MAX ;;;
  product <- lift (SafeMath.mul netDeposit targetLeverageE18) ;;
  targetTotalDeposit <- lift (SafeMath.div product E18) ;;
  totals <- leverageLoop MAX_LOOPS targetTotalDeposit 0 0 netDeposit ;;
  enforceHealthFactor ;;;
  store (set_activeUser sender) ;;;
  store (set_userDeposit sender (fst totals)) ;;;
  store (set_userDebt sender (snd totals)) ;;;
  releaseGuard ;;;
  ret true.

(** *** closePosition *)

(** The unwind loop, [n] rounds left.  It returns [remainingDebt] and
    [remainingCollateral] as they stand when it stops. *)
Fixpoint unwindLoop (n : nat) (remainingDebt remainingCollateral : u256)
  : M World (u256 * u256) :=
  match n with
  | O => ret (remainingDebt, remainingCollateral)
  | S n' =>
      if remainingDebt =? 0 then ret (remainingDebt, remainingCollateral) else
      if remainingCollateral =? 0 then ret (remainingDebt, remainingCollateral) else
      amount <- lift (withdrawAmount remainingCollateral remainingDebt) ;;
      stashWithdraw amount ;;;
      let repayAmount := if amount <? remainingDebt then amount else remainingDebt in
      remainingDebt <-
        (if 0 <? repayAmount then
           stashRepay repayAmount ;;;
           lift (SafeMath.sub remainingDebt repayAmount)
         else ret remainingDebt) ;;
      remainingCollateral <- lift (SafeMath.sub remainingCollateral amount) ;;
      unwindLoop n' remainingDebt remainingCollateral
  end.

(** Net proceeds from the stored snapshot. *)
Definition netProceedsOf (storedDeposit storedDebt : u256) : Result u256 :=
  if storedDebt <? storedDeposit then SafeMath.sub storedDeposit storedDebt else Ok 0.

Definition closePosition (sender : Address) : M World bool :=
  nonReentrant ;;;
  deposits <- load userDeposits ;;
  let storedDeposit := map_get deposits sender in
  if storedDeposit =? 0 then throw NoOpenPosition else
  active <- load activeUser ;;
  if negb (active =? sender) then throw NotPositionOwner else
  remainingDebt <- stashBorrowBalance ;;
  remainingCollateral <- stashDepositBalance ;;
  token <- load moto ;; pool <- load stash ;;
  safeIncreaseAllowance token pool U256_MAX ;;;
  rest <- unwindLoop MAX_LOOPS remainingDebt remainingCollateral ;;
  (if 0 <? snd rest then stashWithdraw (snd rest) else ret tt) ;;;
  residualDebt <- stashBorrowBalance ;;
  if 0 <? residualDebt then throw UnwindIncomplete else
  debts <- load userDebts ;;
  let storedDebt := map_get debts sender in
  netProceeds <- lift (netProceedsOf storedDeposit storedDebt) ;;
  (if 0 <? netProceeds then
     exitFee <- lift (feeRoundUp netProceeds EXIT_FEE_BPS) ;;
     userReceives <- lift (SafeMath.sub netProceeds exitFee) ;;
     (if 0 <? exitFee then
        token <- load moto ;; to <- load treasury ;;
        safeTransfer token to exitFee ;;;
        fees <- load totalFeesCollected ;;
        fees <- lift (SafeMath.add fees exitFee) ;;
        store (set_totalFeesCollected fees)
      else ret tt) ;;;
     (if 0 <? userReceives then
        token <- load moto ;;
        safeTransfer token sender userReceives
      else ret tt)
   else ret tt) ;;;
  store (set_userDeposit sender 0) ;;;
  store (set_userDebt sender 0) ;;;
  store (set_activeUser zero_address) ;;;
  token <- load moto ;; pool <- load stash ;;
  safeDecreaseAllowance token pool U256_MAX ;;;
  releaseGuard ;;;
  ret true.

(** *** Views and administration *)

Definition getPosition (user : Address) : M World (u256 * u256) :=
  deposits <- load userDeposits ;;
  debts <- load userDebts ;;
  ret (map_get deposits user, map_get debts user).

Definition pause (sender : Address) : M World bool :=
  onlyDeployer sender ;;; store (set_paused true) ;;; ret true.

Definition unpause (sender : Address) : M World bool :=
  onlyDeployer sender ;;; store (set_paused false) ;;; ret true.

Definition setTreasury (sender newTreasury : Address) : M World bool :=
  onlyDeployer sender ;;;
  validateNonZeroAddress newTreasury "treasury" ;;;
  store (set_treasury newTreasury) ;;; ret true.

Definition setStash (sender newStash : Address) : M World bool :=
  onlyDeployer sender ;;;
  validateNonZeroAddress newStash "stash" ;;;
  store (set_stash newStash) ;;; ret true.

Definition setMoto (sender newMoto : Address) : M World bool :=
  onlyDeployer sender ;;;
  validateNonZeroAddress newMoto "moto" ;;;
  store (set_moto newMoto) ;;; ret true.

End LoopExecutor.

(** ** The router and the reachable storages *)

(** The methods of [callMethod] that write storage (the views write nothing). *)
Inductive Method : Type :=
| OpenPosition (amount targetLeverageE18 : u256)
| ClosePosition
| Pause
| Unpause
| SetTreasury (newTreasury : Address)
| SetStash (newStash : Address)
| SetMoto (newMoto : Address).

Definition callMethod {World} (extcall : World -> ExtCall -> option (list byte * World))
    (this deployer sender : Address) (m : Method) : M World bool :=
  match m with
  | OpenPosition amount lev => openPosition extcall this sender amount lev
  | ClosePosition => closePosition extcall this sender
  | Pause => pause deployer sender
  | Unpause => unpause deployer sender
  | SetTreasury a => setTreasury deployer sender a
  | SetStash a => setStash deployer sender a
  | SetMoto a => setMoto deployer sender a
  end.

(** Storage right after [onDeployment]. *)
Definition deployed (treasuryAddr stashAddr motoAddr : Address) : Storage :=
  mkStorage treasuryAddr stashAddr motoAddr false false 0 zero_address ∅ ∅.

(** Storages the contract can be in between transactions: it was deployed
    with non-zero addresses, and then any sender other than the zero address
    called any method, against any world, any number of times. *)
Inductive reachable (this deployer : Address) : Storage -> Prop :=
| reachable_deployed (t s m : Address) :
    t <> zero_address -> s <> zero_address -> m <> zero_address ->
    reachable this deployer (deployed t s m)
| reachable_transact (World : Type)
    (extcall : World -> ExtCall -> option (list byte * World))
    (st : Storage) (w : World) (sender : Address) (m : Method) :
    reachable this deployer st ->
    sender <> zero_address ->
    reachable this deployer
      (fst (fst (transact (callMethod extcall this deployer sender m) st w))).

(** The position stored for [user]: deposit and debt are both zero when there is none. *)
Definition has_position (st : Storage) (user : Address) : Prop :=
  map_get (userDeposits st) user <> 0 \/ map_get (userDebts st) user <> 0.

(** At most one non-empty position: whoever has one is the active user. *)
Definition single_position (st : Storage) : Prop :=
  forall user, has_position st user ->
    user = activeUser st /\ activeUser st <> zero_address.

(** ** Reading the call log *)

Definition is_deposit (e : Event) : bool :=
  match calldata (ev_call e) with StashDeposit _ _ => true | _ => false end.
Definition is_borrow (e : Event) : bool :=
  match calldata (ev_call e) with StashBorrow _ _ => true | _ => false end.
Definition is_repay (e : Event) : bool :=
  match calldata (ev_call e) with StashRepay _ _ => true | _ => false end.
Definition is_withdraw (e : Event) : bool :=
  match calldata (ev_call e) with StashWithdraw _ _ => true | _ => false end.
Definition is_health_query (e : Event) : bool :=
  match calldata (ev_call e) with StashHealthFactor _ => true | _ => false end.
Definition is_debt_query (e : Event) : bool :=
  match calldata (ev_call e) with StashBorrowBalance _ => true | _ => false end.

(** A call that changes the pool's books. *)
Definition is_pool_action (e : Event) : bool :=
  is_deposit e || is_borrow e || is_repay e || is_withdraw e.

(** The number a query returned, when it returned one. *)
Definition observed (e : Event) : option u256 :=
  match ev_ret e with
  | Some data => match readU256 data with Ok v => Some v | Err _ => None end
  | None => None
  end.

(** A health-factor query that returned less than the minimum / at least the minimum. *)
Definition health_below (e : Event) : bool :=
  is_health_query e &&
  match observed e with Some hf => hf <? MIN_HEALTH_FACTOR_E18 | None => false end.
Definition health_passed (e : Event) : bool :=
  is_health_query e &&
  match observed e with Some hf => MIN_HEALTH_FACTOR_E18 <=? hf | None => false end.

(** Every borrow in the log is directly followed by a health-factor query
    that returned at least the minimum. *)
Fixpoint borrows_checked (tr : list Event) : bool :=
  match tr with
  | [] => true
  | e :: rest =>
      if is_borrow e
      then match rest with
           | next :: _ => health_passed next && borrows_checked rest
           | [] => false
           end
      else borrows_checked rest
  end.

(** The log ends with a health-factor query that returned at least the minimum. *)
Definition ends_with_health_check (tr : list Event) : bool :=
  match rev tr with e :: _ => health_passed e | [] => false end.

Fixpoint count_calls (p : Event -> bool) (tr : list Event) : nat :=
  match tr with
  | [] => O
  | e :: rest => if p e then S (count_calls p rest) else count_calls p rest
  end.

(** Round trips: an [out] call later answered by a [back] call (supply then
    borrow, withdraw then repay). *)
Fixpoint round_trips_from (pending : bool) (out back : Event -> bool)
    (tr : list Event) : nat :=
  match tr with
  | [] => O
  | e :: rest =>
      if out e then round_trips_from true out back rest
      else if back e && pending then S (round_trips_from false out back rest)
      else round_trips_from pending out back rest
  end.
Definition round_trips (out back : Event -> bool) (tr : list Event) : nat :=
  round_trips_from false out back tr.

(** Total amount the log supplies to the pool. *)
Fixpoint supplied (tr : list Event) : N :=
  match tr with
  | [] => 0
  | e :: rest =>
      match calldata (ev_call e) with
      | StashDeposit _ amount => amount + supplied rest
      | _ => supplied rest
      end
  end.

(** The token transfers of the log: recipient and amount, in order. *)
Fixpoint transfers (tr : list Event) : list (Address * u256) :=
  match tr with
  | [] => []
  | e :: rest =>
      match calldata (ev_call e) with
      | Transfer to amount => (to, amount) :: transfers rest
      | _ => transfers rest
      end
  end.

(** The amounts the log withdraws from the pool, in order. *)
Fixpoint withdrawals (tr : list Event) : list u256 :=
  match tr with
  | [] => []
  | e :: rest =>
      match calldata (ev_call e) with
      | StashWithdraw _ amount => amount :: withdrawals rest
      | _ => withdrawals rest
      end
  end.

(** The events from the last debt query on (empty when there is none). *)
Fixpoint from_last_debt_query (tr : list Event) : list Event :=
  match tr with
  | [] => []
  | e :: rest =>
      match from_last_debt_query rest with
      | [] => if is_debt_query e then e :: rest else []
      | found => found
      end
  end.

(** ** A scripted world

    The world is the list of answers still to come; each call takes the next
    one, whatever it asks.  Any finite behaviour of token and pool is such a
    script. *)
Definition scripted (w : list (option (list byte))) (c : ExtCall)
  : option (list byte * list (option (list byte))) :=
  match w with
  | Some data :: rest => Some (data, rest)
  | None :: _ => None
  | [] => None
  end.

Definition yes : option (list byte) := Some (writeBoolean true).
Definition number (n : u256) : option (list byte) := Some (writeU256 n).

(** The debt queries of the log, in order; the second one is the re-query
    closePosition makes after unwinding. *)
Fixpoint debt_queries (tr : list Event) : list Event :=
  match tr with
  | [] => []
  | e :: rest => if is_debt_query e then e :: debt_queries rest else debt_queries rest
  end.

Definition residual_debt (tr : list Event) : option u256 :=
  match debt_queries tr with
  | _ :: requery :: _ => observed requery
  | _ => None
  end.

(** The withdrawals the specification prescribes for [n] unwind rounds from
    debt [d] and collateral [c]: each round withdraws the safe amount and
    repays as much of it as there is debt. *)
Fixpoint unwind_schedule (n : nat) (d c : N) : list N :=
  match n with
  | O => []
  | S n' =>
      if (d =? 0) || (c =? 0) then []
      else let amount := safe_withdrawal_spec c d in
           amount :: unwind_schedule n' (d - N.min amount d) (c - amount)
  end.

(** Return data a token call is accepted with: none, or a first byte that is not zero. *)
Definition accepted (data : list byte) : bool :=
  match data with
  | [] => true
  | b :: _ => negb (Byte.to_N b =? 0)
  end.

(** A run with its final storage changed by [f]. *)
Definition on_store {World A} (f : Storage -> Storage) (r : Run World A) : Run World A :=
  mkRun (events r) (world_of r) (f (store_of r)) (result r).

(** A computation that neither reads nor writes the paused flag. *)
Definition pause_blind {World A} (m : M World A) : Prop :=
  forall b st w, m (set_paused b st) w = on_store (set_paused b) (m st w).

(** ** Concrete runs

    A deployment (treasury 7, pool 8, token 9, contract 100, deployer 1),
    user 42, and scripts for an open at 1.5x that borrows once, the same
    open with a health factor of 1.2 after the borrow, and the close of the
    position the first one stores. *)
Definition fresh : Storage := deployed 7 8 9.

Definition open_script : list (option (list byte)) :=
  [ yes                          (* transferFrom *)
  ; yes                          (* transfer of the entry fee *)
  ; yes                          (* increaseAllowance *)
  ; yes                          (* deposit 995000 *)
  ; number 656700                (* maxBorrowable *)
  ; yes                          (* borrow 497500 *)
  ; number 1600000000000000000   (* healthFactor after the borrow *)
  ; yes                          (* deposit 497500 *)
  ; number 2400000000000000000   (* healthFactor at the end *) ].

Definition unhealthy_script : list (option (list byte)) :=
  [ yes; yes; yes; yes; number 656700; yes; number 1200000000000000000 ].

Definition opened : Run (list (option (list byte))) bool :=
  openPosition scripted 100 42 1000000 1500000000000000000 fresh open_script.

Definition unhealthy : Run (list (option (list byte))) bool :=
  openPosition scripted 100 42 1000000 1500000000000000000 fresh unhealthy_script.

Definition close_script : list (option (list byte)) :=
  [ number 497500                (* borrowBalanceOf *)
  ; number 1492500               (* depositBalanceOf *)
  ; yes                          (* increaseAllowance *)
  ; yes                          (* withdraw 995000 *)
  ; yes                          (* repay 497500 *)
  ; yes                          (* withdraw the remaining 497500 *)
  ; number 0                     (* borrowBalanceOf again *)
  ; yes                          (* transfer of the exit fee *)
  ; yes                          (* transfer to the user *)
  ; yes                          (* decreaseAllowance *) ].

Definition stuck_script : list (option (list byte)) :=
  [ number 497500; number 1492500; yes; yes; yes; yes; number 3 ].

(** A close against a debt of 1000 and a collateral of 64: five rounds of
    halving, then the leftover withdrawal. *)
Definition halving_script : list (option (list byte)) :=
  [ number 1000; number 64; yes
  ; yes; yes; yes; yes; yes; yes; yes; yes; yes; yes
  ; yes
  ; number 938 ].

Definition halving : Run (list (option (list byte))) bool :=
  closePosition scripted 100 42 (store_of opened) halving_script.

Definition closed : Run (list (option (list byte))) bool :=
  closePosition scripted 100 42 (store_of opened) close_script.

Definition stuck : Run (list (option (list byte))) bool :=
  closePosition scripted 100 42 (store_of opened) stuck_script.

(** ** Deployment *)

(** Storage before [onDeployment]: every slot at its default. *)
Definition blank : Storage :=
  mkStorage zero_address zero_address zero_address false false 0 zero_address ∅ ∅.

Definition onDeployment {World} (treasuryAddr stashAddr motoAddr : Address) : M World unit :=
  validateNonZeroAddress treasuryAddr "treasury" ;;;
  validateNonZeroAddress stashAddr "stash" ;;;
  validateNonZeroAddress motoAddr "moto" ;;;
  store (set_treasury treasuryAddr) ;;;
  store (set_stash stashAddr) ;;;
  store (set_moto motoAddr).

(** ** More readings of the call log *)

(** Total amount the log borrows, repays and withdraws. *)
Fixpoint borrowed (tr : list Event) : N :=
  match tr with
  | [] => 0
  | e :: rest =>
      match calldata (ev_call e) with
      | StashBorrow _ amount => amount + borrowed rest
      | _ => borrowed rest
      end
  end.

Fixpoint repaid (tr : list Event) : N :=
  match tr with
  | [] => 0
  | e :: rest =>
      match calldata (ev_call e) with
      | StashRepay _ amount => amount + repaid rest
      | _ => repaid rest
      end
  end.

Fixpoint withdrawn (tr : list Event) : N :=
  match tr with
  | [] => 0
  | e :: rest =>
      match calldata (ev_call e) with
      | StashWithdraw _ amount => amount + withdrawn rest
      | _ => withdrawn rest
      end
  end.

(** The allowance calls of the log: [true] for an increase, [false] for a
    decrease, with spender and amount, in order. *)
Fixpoint allowance_calls (tr : list Event) : list (bool * Address * u256) :=
  match tr with
  | [] => []
  | e :: rest =>
      match calldata (ev_call e) with
      | IncreaseAllowance spender amount => (true, spender, amount) :: allowance_calls rest
      | DecreaseAllowance spender amount => (false, spender, amount) :: allowance_calls rest
      | _ => allowance_calls rest
      end
  end.

(** The pulls of the log: [transferFrom] source, destination and amount. *)
Fixpoint pulls (tr : list Event) : list (Address * Address * u256) :=
  match tr with
  | [] => []
  | e :: rest =>
      match calldata (ev_call e) with
      | TransferFrom from to amount => (from, to, amount) :: pulls rest
      | _ => pulls rest
      end
  end.

(** What the first collateral query and the first debt query of the log returned. *)
Fixpoint collateral_read (tr : list Event) : option u256 :=
  match tr with
  | [] => None
  | e :: rest =>
      match calldata (ev_call e) with
      | StashDepositBalance _ => observed e
      | _ => collateral_read rest
      end
  end.

Definition debt_read (tr : list Event) : option u256 :=
  match debt_queries tr with
  | q :: _ => observed q
  | [] => None
  end.

(** [ok prev e] holds of every entry [e] of the log, [prev] being the entry
    just before it. *)
Fixpoint each_after (ok : option Event -> Event -> bool) (prev : option Event)
    (tr : list Event) : bool :=
  match tr with
  | [] => true
  | e :: rest => ok prev e && each_after ok (Some e) rest
  end.

(** The last entry of a log that continues from [prev]. *)
Fixpoint last_or (prev : option Event) (tr : list Event) : option Event :=
  match tr with
  | [] => prev
  | e :: rest => last_or (Some e) rest
  end.

(** A borrow is quoted when the call just before it is a maxBorrowable query
    that returned at least the amount borrowed. *)
Definition quoted (prev : option Event) (e : Event) : bool :=
  match calldata (ev_call e) with
  | StashBorrow _ amount =>
      match prev with
      | Some q =>
          match calldata (ev_call q), observed q with
          | StashMaxBorrowable _, Some limit => amount <=? limit
          | _, _ => false
          end
      | None => false
      end
  | _ => true
  end.

(** A repayment is funded when the call just before it is a withdrawal, which
    the pool answered, of at least the amount repaid. *)
Definition funded (prev : option Event) (e : Event) : bool :=
  match calldata (ev_call e) with
  | StashRepay _ amount =>
      match prev with
      | Some p =>
          match calldata (ev_call p), ev_ret p with
          | StashWithdraw _ got, Some _ => amount <=? got
          | _, _ => false
          end
      | None => false
      end
  | _ => true
  end.

Definition borrows_quoted (tr : list Event) : bool := each_after quoted None tr.
Definition repays_funded (tr : list Event) : bool := each_after funded None tr.

(** The sum of a list of amounts. *)
Definition total (amounts : list N) : N := fold_right N.add 0 amounts.

(** The withdrawals of a whole closePosition that starts from a reported debt
    [d] and collateral [c]: those of the unwind rounds, then the collateral
    the rounds left, when they left some. *)
Definition close_schedule (d c : N) : list N :=
  unwind_schedule MAX_LOOPS d c ++
  (if 0 <? c - total (unwind_schedule MAX_LOOPS d c)
   then [c - total (unwind_schedule MAX_LOOPS d c)] else []).

(** Two more runs: an open sent from the zero address, which leaves the
    active user at the zero address, and the open by user 43 that follows it. *)
Definition ownerless : Run (list (option (list byte))) bool :=
  openPosition scripted 100 zero_address 1000000 1500000000000000000 fresh open_script.

Definition doubled : Run (list (option (list byte))) bool :=
  openPosition scripted 100 43 1000000 1500000000000000000 (store_of ownerless) open_script.

(** * MockStash: the lending pool the mocks provide

    A shallow embedding of [mocks/mock-stash/src/MockStash.ts], over the same
    values, failures, [SafeMath] and call log as above.  A method runs from
    the pool's own storage and a state of the outside world (the token); the
    caller ([Blockchain.tx.sender]) is an argument.  The pool has no
    reentrancy lock, so a token it calls may call back into it: the answer to
    a call carries the balances the callee left behind.  The notifications
    ([emitEvent]) carry no state and are left out. *)
Module MockStash.

Definition E18 : u256 := 1000000000000000000.
Definition HUNDRED : u256 := 100.
Definition LTV_PERCENT : u256 := 66.
Definition LIQ_THRESHOLD_PERCENT : u256 := 80.

Record Store : Type := mkStore {
  token : Address;
  totalDeposits : u256;
  totalBorrows : u256;
  userDeposits : gmap N N;
  userBorrows : gmap N N
}.

Definition set_token (a : Address) (s : Store) : Store :=
  mkStore a (totalDeposits s) (totalBorrows s) (userDeposits s) (userBorrows s).
Definition set_totalDeposits (v : u256) (s : Store) : Store :=
  mkStore (token s) v (totalBorrows s) (userDeposits s) (userBorrows s).
Definition set_totalBorrows (v : u256) (s : Store) : Store :=
  mkStore (token s) (totalDeposits s) v (userDeposits s) (userBorrows s).
Definition set_userDeposit (a : Address) (v : u256) (s : Store) : Store :=
  mkStore (token s) (totalDeposits s) (totalBorrows s)
          (map_set (userDeposits s) a v) (userBorrows s).
Definition set_userBorrow (a : Address) (v : u256) (s : Store) : Store :=
  mkStore (token s) (totalDeposits s) (totalBorrows s)
          (userDeposits s) (map_set (userBorrows s) a v).

(** Storage before [onDeployment]. *)
Definition blank : Store := mkStore zero_address 0 0 ∅ ∅.

(** The books of the pool: the totals and balances, the slots that deposit,
    borrow, repay and withdraw write. *)
Record Books : Type := mkBooks {
  b_totalDeposits : u256;
  b_totalBorrows : u256;
  b_userDeposits : gmap N N;
  b_userBorrows : gmap N N
}.

Definition books_of (s : Store) : Books :=
  mkBooks (totalDeposits s) (totalBorrows s) (userDeposits s) (userBorrows s).

Definition with_books (b : Books) (s : Store) : Store :=
  mkStore (token s) (b_totalDeposits b) (b_totalBorrows b)
          (b_userDeposits b) (b_userBorrows b).

(** Books whose entries are 256-bit values, as the type [u256] of the
    storage makes them. *)
Definition books_fit (b : Books) : Prop :=
  b_totalDeposits b <= U256_MAX /\ b_totalBorrows b <= U256_MAX /\
  forall user, map_get (b_userDeposits b) user <= U256_MAX /\
               map_get (b_userBorrows b) user <= U256_MAX.

(** ** Runs of the pool *)
Record Run (World A : Type) : Type := mkRun {
  events : list Event;
  world_of : World;
  store_of : Store;
  result : Result A
}.
Arguments mkRun {World A}.
Arguments events {World A}.
Arguments world_of {World A}.
Arguments store_of {World A}.
Arguments result {World A}.

Definition Act (World A : Type) : Type := Store -> World -> Run World A.

Definition ret {World A} (a : A) : Act World A :=
  fun st w => mkRun [] w st (Ok a).

Definition throw {World A} (e : Failure) : Act World A :=
  fun st w => mkRun [] w st (Err e).

Definition after {World A} (tr : list Event) (r : Run World A) : Run World A :=
  mkRun (tr ++ events r) (world_of r) (store_of r) (result r).

Definition bind {World A B} (m : Act World A) (k : A -> Act World B) : Act World B :=
  fun st w =>
    let r := m st w in
    match result r with
    | Ok a => after (events r) (k a (store_of r) (world_of r))
    | Err e => mkRun (events r) (world_of r) (store_of r) (Err e)
    end.

Declare Scope stash_scope.
Notation "x <- m ;; k" := (bind m (fun x => k))
  (at level 100, m at next level, right associativity) : stash_scope.
Notation "m ;;; k" := (bind m (fun _ => k))
  (at level 100, right associativity) : stash_scope.
Local Open Scope stash_scope.

Definition lift {World A} (r : Result A) : Act World A :=
  match r with Ok a => ret a | Err e => throw e end.

Definition load {World A} (f : Store -> A) : Act World A :=
  fun st w => mkRun [] w st (Ok (f st)).

Definition store {World} (f : Store -> Store) : Act World unit :=
  fun st w => mkRun [] w (f st) (Ok tt).

(** A transaction commits a successful run and discards a failed one. *)
Definition transact {World A} (m : Act World A) (st : Store) (w : World)
  : Store * World * Result A :=
  let r := m st w in
  match result r with
  | Ok a => (store_of r, world_of r, Ok a)
  | Err e => (st, w, Err e)
  end.

(** The methods [callMethod] routes to, with their calldata. *)
Inductive Method : Type :=
| Deposit (tokenAddr : Address) (amount : u256)
| Borrow (tokenAddr : Address) (amount : u256)
| Repay (tokenAddr : Address) (amount : u256)
| Withdraw (tokenAddr : Address) (amount : u256)
| HealthFactor (account : Address)
| BorrowBalanceOf (account : Address)
| MaxBorrowable (account : Address)
| DepositBalanceOf (account : Address)
| SetToken (newToken : Address).

Section Pool.

(** The outside world of the pool, and how it answers a call made from a
    given storage ([None]: the callee failed).  Unlike the executor the pool
    holds no lock, so before it returns a callee can call back into the pool
    and run deposit, borrow, repay or withdraw, for itself or through others:
    the answer carries the books the callee left.  Any books are allowed, which
    covers every sequence of such calls.  The token slot is written by
    [setToken] alone, which [onlyDeployer] keeps for the deployer as
    [Blockchain.tx.sender]; the deployer is an account of its own (a generated
    address in test/loopExecutor.test.ts, neither the token nor the pool) and
    is taken not to act during another caller's call, so a callee leaves that
    slot. *)
Context {World : Type}.
Variable extcall : World -> Store -> ExtCall -> option (list byte * World * Books).

(** [Blockchain.contract.address] and the deployer. *)
Variable this : Address.
Variable deployer : Address.

(** [Blockchain.call(target, w, true)]: a failing callee stops the caller;
    a returning one has left its books.  The log holds the calls this run
    makes itself; what a callee does in between, calls back included, is in
    its answer. *)
Definition call (c : ExtCall) : Act World (list byte) :=
  fun st w =>
    match extcall w st c with
    | Some (data, w', books) =>
        mkRun [mkEvent c (Some data)] w' (with_books books st) (Ok data)
    | None => mkRun [mkEvent c None] w st (Err CallFailed)
    end.

(** The storage as the callee of [c] leaves it. *)
Definition left_by (w : World) (st : Store) (c : ExtCall) : Store :=
  match extcall w st c with
  | Some (_, _, books) => with_books books st
  | None => st
  end.

(** A world whose callees never call back into the pool: they leave the
    books as they found them. *)
Definition quiet : Prop :=
  forall w st c data w' books,
    extcall w st c = Some (data, w', books) -> books = books_of st.

(** A world whose callees, called from books of 256-bit values, leave
    256-bit values in the books. *)
Definition fitting : Prop :=
  forall w st c data w' books,
    extcall w st c = Some (data, w', books) ->
    books_fit (books_of st) -> books_fit books.

(** [onlyDeployer] is the runtime's, as for the executor. *)
Definition onlyDeployer (caller : Address) : Act World unit :=
  if caller =? deployer then ret tt
  else throw (Revert "Only deployer can call this method").

(** *** Deployment *)

Definition onDeployment (tokenAddr : Address) : Act World unit :=
  if tokenAddr =? zero_address then throw (Revert "Token cannot be zero address")
  else store (set_token tokenAddr).

(** *** Internal: calculations *)

Definition calculateHealthFactor (account : Address) : Act World u256 :=
  deposits <- load (fun s => map_get (userDeposits s) account) ;;
  debt <- load (fun s => map_get (userBorrows s) account) ;;
  if debt =? 0 then ret U256_MAX else
  scaled <- lift (SafeMath.mul deposits LIQ_THRESHOLD_PERCENT) ;;
  scaled <- lift (SafeMath.mul scaled E18) ;;
  numerator <- lift (SafeMath.div scaled HUNDRED) ;;
  lift (SafeMath.div numerator debt).

Definition calculateMaxBorrowable (account : Address) : Act World u256 :=
  deposits <- load (fun s => map_get (userDeposits s) account) ;;
  currentDebt <- load (fun s => map_get (userBorrows s) account) ;;
  product <- lift (SafeMath.mul deposits LTV_PERCENT) ;;
  maxTotalBorrow <- lift (SafeMath.div product HUNDRED) ;;
  if maxTotalBorrow <=? currentDebt then ret 0
  else lift (SafeMath.sub maxTotalBorrow currentDebt).

(** *** Internal: token helpers *)

Definition requireToken (tokenAddr : Address) : Act World unit :=
  configured <- load token ;;
  if negb (tokenAddr =? configured) then throw (Revert "Unsupported token") else ret tt.

(** The token call failed only when it returned data that reads as false. *)
Definition checked (c : ExtCall) (msg : string) : Act World unit :=
  data <- call c ;;
  match data with
  | [] => ret tt
  | _ :: _ =>
      ok <- lift (readBoolean data) ;;
      if ok then ret tt else throw (Revert msg)
  end.

Definition pullTokens (from : Address) (amount : u256) : Act World unit :=
  t <- load token ;;
  checked (mkCall t (TransferFrom from this amount)) "Token transferFrom failed".

Definition sendTokens (to : Address) (amount : u256) : Act World unit :=
  t <- load token ;;
  checked (mkCall t (Transfer to amount)) "Token transfer failed".

(** The storage as the token leaves it when [pullTokens], or [sendTokens],
    calls it from the storage [st]. *)
Definition pulled (w : World) (st : Store) (from : Address) (amount : u256) : Store :=
  left_by w st (mkCall (token st) (TransferFrom from this amount)).

Definition sent (w : World) (st : Store) (to : Address) (amount : u256) : Store :=
  left_by w st (mkCall (token st) (Transfer to amount)).

(** *** The four actions *)

Definition deposit (sender tokenAddr : Address) (amount : u256) : Act World (list byte) :=
  requireToken tokenAddr ;;;
  if amount =? 0 then throw (Revert "Amount must be > 0") else
  pullTokens sender amount ;;;
  currentDeposit <- load (fun s => map_get (userDeposits s) sender) ;;
  newDeposit <- lift (SafeMath.add currentDeposit amount) ;;
  store (set_userDeposit sender newDeposit) ;;;
  total <- load totalDeposits ;;
  total <- lift (SafeMath.add total amount) ;;
  store (set_totalDeposits total) ;;;
  ret (writeBoolean true).

Definition borrow (sender tokenAddr : Address) (amount : u256) : Act World (list byte) :=
  requireToken tokenAddr ;;;
  if amount =? 0 then throw (Revert "Amount must be > 0") else
  maxBorrow <- calculateMaxBorrowable sender ;;
  if maxBorrow <? amount then throw (Revert "Exceeds borrowing capacity") else
  currentBorrow <- load (fun s => map_get (userBorrows s) sender) ;;
  newBorrow <- lift (SafeMath.add currentBorrow amount) ;;
  store (set_userBorrow sender newBorrow) ;;;
  total <- load totalBorrows ;;
  total <- lift (SafeMath.add total amount) ;;
  store (set_totalBorrows total) ;;;
  sendTokens sender amount ;;;
  ret (writeBoolean true).

Definition repay (sender tokenAddr : Address) (amount : u256) : Act World (list byte) :=
  requireToken tokenAddr ;;;
  if amount =? 0 then throw (Revert "Amount must be > 0") else
  currentBorrow <- load (fun s => map_get (userBorrows s) sender) ;;
  if currentBorrow <? amount then throw (Revert "Repay exceeds debt") else
  pullTokens sender amount ;;;
  newBorrow <- lift (SafeMath.sub currentBorrow amount) ;;
  store (set_userBorrow sender newBorrow) ;;;
  total <- load totalBorrows ;;
  total <- lift (SafeMath.sub total amount) ;;
  store (set_totalBorrows total) ;;;
  ret (writeBoolean true).

Definition withdraw (sender tokenAddr : Address) (amount : u256) : Act World (list byte) :=
  requireToken tokenAddr ;;;
  if amount =? 0 then throw (Revert "Amount must be > 0") else
  currentDeposit <- load (fun s => map_get (userDeposits s) sender) ;;
  if currentDeposit <? amount then throw (Revert "Withdraw exceeds deposits") else
  newDeposit <- lift (SafeMath.sub currentDeposit amount) ;;
  currentDebt <- load (fun s => map_get (userBorrows s) sender) ;;
  (if 0 <? currentDebt then
     scaled <- lift (SafeMath.mul newDeposit LIQ_THRESHOLD_PERCENT) ;;
     scaled <- lift (SafeMath.mul scaled E18) ;;
     numerator <- lift (SafeMath.div scaled HUNDRED) ;;
     newHF <- lift (SafeMath.div numerator currentDebt) ;;
     if newHF <? E18 then throw (Revert "Withdrawal would make position unhealthy")
     else ret tt
   else ret tt) ;;;
  store (set_userDeposit sender newDeposit) ;;;
  total <- load totalDeposits ;;
  total <- lift (SafeMath.sub total amount) ;;
  store (set_totalDeposits total) ;;;
  sendTokens sender amount ;;;
  ret (writeBoolean true).

(** *** Views *)

Definition healthFactor (account : Address) : Act World (list byte) :=
  hf <- calculateHealthFactor account ;;
  ret (writeU256 hf).

Definition borrowBalanceOf (account : Address) : Act World (list byte) :=
  debt <- load (fun s => map_get (userBorrows s) account) ;;
  ret (writeU256 debt).

Definition maxBorrowable (account : Address) : Act World (list byte) :=
  maxBorrow <- calculateMaxBorrowable account ;;
  ret (writeU256 maxBorrow).

Definition depositBalanceOf (account : Address) : Act World (list byte) :=
  deposit <- load (fun s => map_get (userDeposits s) account) ;;
  ret (writeU256 deposit).

(** *** Administration *)

Definition setToken (sender newToken : Address) : Act World (list byte) :=
  onlyDeployer sender ;;;
  if newToken =? zero_address then throw (Revert "Token cannot be zero address") else
  store (set_token newToken) ;;;
  ret (writeBoolean true).

(** *** Router *)

Definition callMethod (sender : Address) (m : Method) : Act World (list byte) :=
  match m with
  | Deposit t a => deposit sender t a
  | Borrow t a => borrow sender t a
  | Repay t a => repay sender t a
  | Withdraw t a => withdraw sender t a
  | HealthFactor a => healthFactor a
  | BorrowBalanceOf a => borrowBalanceOf a
  | MaxBorrowable a => maxBorrowable a
  | DepositBalanceOf a => depositBalanceOf a
  | SetToken a => setToken sender a
  end.

End Pool.

(** A world that never calls back, from the answers of [answer]. *)
Definition quietly {World} (answer : World -> ExtCall -> option (list byte * World))
  : World -> Store -> ExtCall -> option (list byte * World * Books) :=
  fun w st c =>
    match answer w c with
    | Some (data, w') => Some (data, w', books_of st)
    | None => None
    end.

(** A world whose callees always leave the books [books], from the answers
    of [answer]. *)
Definition calling_back {World} (books : Books)
    (answer : World -> ExtCall -> option (list byte * World))
  : World -> Store -> ExtCall -> option (list byte * World * Books) :=
  fun w st c =>
    match answer w c with
    | Some (data, w') => Some (data, w', books)
    | None => None
    end.

(** Storages the pool can be in between transactions: deployed with a
    non-zero token, then any sender called any method, against any world
    whose callees, calling back or not, leave 256-bit values, any number of
    times. *)
Inductive reachable (this deployer : Address) : Store -> Prop :=
| pool_deployed (t : Address) :
    t <> zero_address -> reachable this deployer (set_token t blank)
| pool_transact (World : Type)
    (extcall : World -> Store -> ExtCall -> option (list byte * World * Books))
    (st : Store) (w : World) (sender : Address) (m : Method) :
    reachable this deployer st ->
    fitting extcall ->
    reachable this deployer
      (fst (fst (transact (callMethod extcall this deployer sender m) st w))).

(** The same, as long as no callee ever calls back into the pool. *)
Inductive reachable_quietly (this deployer : Address) : Store -> Prop :=
| pool_deployed_quietly (t : Address) :
    t <> zero_address -> reachable_quietly this deployer (set_token t blank)
| pool_transact_quietly (World : Type)
    (extcall : World -> Store -> ExtCall -> option (list byte * World * Books))
    (st : Store) (w : World) (sender : Address) (m : Method) :
    reachable_quietly this deployer st ->
    quiet extcall ->
    reachable_quietly this deployer
      (fst (fst (transact (callMethod extcall this deployer sender m) st w))).

(** The sum of the balances a map holds. *)
Definition sum_of (m : gmap N N) : N := map_fold (fun _ v acc => v + acc) 0 m.

End MockStash.

(** ** Deployer-only methods and well-formed storages *)


Definition OnlyDeployer : Failure := Revert "Only deployer can call this method".

(** The methods behind [onlyDeployer]. *)
Definition is_admin (m : Method) : bool :=
  match m with OpenPosition _ _ | ClosePosition => false | _ => true end.


(** The views of the pool. *)
Definition is_view (m : MockStash.Method) : bool :=
  match m with
  | MockStash.HealthFactor _ | MockStash.BorrowBalanceOf _
  | MockStash.MaxBorrowable _ | MockStash.DepositBalanceOf _ => true
  | _ => false
  end.

(** Token and amount of an action. *)
Definition action_of (m : MockStash.Method) : option (Address * u256) :=
  match m with
  | MockStash.Deposit t a | MockStash.Borrow t a
  | MockStash.Repay t a | MockStash.Withdraw t a => Some (t, a)
  | _ => None
  end.

(** What every reachable storage of the pool satisfies: the token is set and
    every slot holds a 256-bit value. *)
Record stash_fits (st : MockStash.Store) : Prop := mkStashFits {
  sf_token : MockStash.token st <> zero_address;
  sf_books : MockStash.books_fit (MockStash.books_of st)
}.

(** What every storage satisfies that the pool reaches without a callee
    calling back: the token is set, every account's debt is covered at the
    liquidation threshold, and the totals are the sums of the balances and fit
    256 bits. *)
Record stash_well_formed (st : MockStash.Store) : Prop := mkStashWellFormed {
  swf_token : MockStash.token st <> zero_address;
  swf_collateral : forall user,
    100 * map_get (MockStash.userBorrows st) user
      <= 80 * map_get (MockStash.userDeposits st) user;
  swf_deposits : MockStash.totalDeposits st = MockStash.sum_of (MockStash.userDeposits st);
  swf_borrows : MockStash.totalBorrows st = MockStash.sum_of (MockStash.userBorrows st);
  swf_deposits_bound : MockStash.totalDeposits st <= U256_MAX;
  swf_borrows_bound : MockStash.totalBorrows st <= U256_MAX
}.

(** ** More concrete runs

    An open at leverage 1.0, and a pool with token 9 at address 8 serving
    account 100, with a token that never calls back: a deposit of 1000, a
    borrow of 660 (its full capacity), a repayment of 160 and a withdrawal of
    100.  Then a token that does call back.  The token, account 9, holds a
    deposit of 1000 and a debt of 100 itself, and account 77 a deposit of
    1000 and a debt of 50 ([pool_held]); the token repays 50 and, when the
    pool calls its transferFrom, calls back to repay 100 and withdraw 1000
    ([pool_callback] are the books those two calls leave). *)
Definition plain_script : list (option (list byte)) :=
  [ yes; yes; yes; yes; number U256_MAX ].

Definition plain : Run (list (option (list byte))) bool :=
  openPosition scripted 100 42 1000000 E18 fresh plain_script.

Definition pool_fresh : MockStash.Store := MockStash.set_token 9 MockStash.blank.

Definition pool_deposit : MockStash.Run (list (option (list byte))) (list byte) :=
  MockStash.deposit (MockStash.quietly scripted) 8 100 9 1000 pool_fresh [yes].

Definition pool_borrow : MockStash.Run (list (option (list byte))) (list byte) :=
  MockStash.borrow (MockStash.quietly scripted) 100 9 660
    (MockStash.store_of pool_deposit) [yes].

Definition pool_repay : MockStash.Run (list (option (list byte))) (list byte) :=
  MockStash.repay (MockStash.quietly scripted) 8 100 9 160
    (MockStash.store_of pool_borrow) [yes].

Definition pool_withdraw : MockStash.Run (list (option (list byte))) (list byte) :=
  MockStash.withdraw (MockStash.quietly scripted) 100 9 100
    (MockStash.store_of pool_repay) [yes].

Definition pool_held : MockStash.Store :=
  MockStash.store_of
    (MockStash.borrow (MockStash.quietly scripted) 77 9 50
       (MockStash.store_of
          (MockStash.deposit (MockStash.quietly scripted) 8 77 9 1000
             (MockStash.store_of
                (MockStash.borrow (MockStash.quietly scripted) 9 9 100
                   (MockStash.store_of
                      (MockStash.deposit (MockStash.quietly scripted) 8 9 9 1000
                         pool_fresh [yes]))
                   [yes]))
             [yes]))
       [yes]).

Definition pool_callback : MockStash.Books :=
  MockStash.books_of
    (MockStash.store_of
       (MockStash.withdraw (MockStash.quietly scripted) 9 9 1000
          (MockStash.store_of
             (MockStash.repay (MockStash.quietly scripted) 8 9 9 100 pool_held [yes]))
          [yes])).

Definition pool_reentered : MockStash.Run (list (option (list byte))) (list byte) :=
  MockStash.repay (MockStash.calling_back pool_callback scripted) 8 9 9 50 pool_held [yes].

(** * Properties *)

(** ** Fee arithmetic *)

Lemma add_Ok (a b c : N) :
  SafeMath.add a b = Ok c <-> c = a + b /\ a + b <= U256_MAX.
Proof.
  unfold SafeMath.add. destruct (N.leb_spec (a + b) U256_MAX); split.
  - intros [= <-]. auto.
  - intros [-> _]. reflexivity.
  - intros [=].
  - intros [_ ?]. lia.
Qed.

Lemma sub_Ok (a b c : N) :
  SafeMath.sub a b = Ok c <-> c = a - b /\ b <= a.
Proof.
  unfold SafeMath.sub. destruct (N.leb_spec b a); split.
  - intros [= <-]. auto.
  - intros [-> _]. reflexivity.
  - intros [=].
  - intros [_ ?]. lia.
Qed.

Lemma mul_Ok (a b c : N) :
  SafeMath.mul a b = Ok c <-> c = a * b /\ a * b <= U256_MAX.
Proof.
  unfold SafeMath.mul. destruct (N.leb_spec (a * b) U256_MAX); split.
  - intros [= <-]. auto.
  - intros [-> _]. reflexivity.
  - intros [=].
  - intros [_ ?]. lia.
Qed.

Lemma div_Ok (a b c : N) :
  SafeMath.div a b = Ok c <-> c = a / b /\ b <> 0.
Proof.
  unfold SafeMath.div. destruct (N.eqb_spec b 0); split.
  - intros [=].
  - intros [_ ?]. contradiction.
  - intros [= <-]. auto.
  - intros [-> _]. reflexivity.
Qed.

Lemma rbind_Ok {A B} (r : Result A) (k : A -> Result B) (b : B) :
  rbind r k = Ok b <-> exists a, r = Ok a /\ k a = Ok b.
Proof.
  destruct r; simpl; split.
  - eauto.
  - intros (? & [= <-] & ?). assumption.
  - intros [=].
  - intros (? & [=] & _).
Qed.

Lemma feeRoundUp_Ok (amount bps fee : N) :
  feeRoundUp amount bps = Ok fee <->
  fee = ceilFee amount bps /\ amount * bps + 9999 <= U256_MAX.
Proof.
  unfold feeRoundUp, ceilFee, FEE_BASIS. split.
  - intros H.
    apply rbind_Ok in H as (n & Hn & H). apply mul_Ok in Hn as [-> Hn].
    apply rbind_Ok in H as (m & Hm & H). apply sub_Ok in Hm as [-> _].
    apply rbind_Ok in H as (s & Hs & H). apply add_Ok in Hs as [-> Hs].
    apply div_Ok in H as [-> _]. split; [f_equal|]; lia.
  - intros [-> Hfit].
    apply rbind_Ok. exists (amount * bps). split; [apply mul_Ok; lia|].
    apply rbind_Ok. exists 9999. split; [reflexivity|].
    apply rbind_Ok. exists (amount * bps + 9999). split; [apply add_Ok; lia|].
    apply div_Ok. split; [f_equal; lia|lia].
Qed.

Lemma feeRoundUp_overflows (amount bps : N) :
  U256_MAX < amount * bps + 9999 ->
  feeRoundUp amount bps = Err ArithmeticOverflow.
Proof.
  intros Hbig.
  unfold feeRoundUp, rbind, SafeMath.mul, SafeMath.add.
  destruct (N.leb_spec (amount * bps) U256_MAX) as [_|_]; [|reflexivity].
  change (SafeMath.sub FEE_BASIS 1) with (Ok (A:=N) 9999).
  cbv iota beta.
  destruct (N.leb_spec (amount * bps + 9999) U256_MAX) as [Hfit|_];
    [lia|reflexivity].
Qed.

Lemma ceilFee_monotone (a b bps : N) : a <= b -> ceilFee a bps <= ceilFee b bps.
Proof.
  intros Hab. unfold ceilFee.
  apply N.Div0.div_le_mono. nia.
Qed.

Lemma ceilFee_positive (a : N) : 1 <= a -> 0 < ceilFee a 50.
Proof.
  intros Ha. unfold ceilFee.
  apply N.div_str_pos. lia.
Qed.

Lemma ceilFee_le (a : N) : ceilFee a 50 <= a.
Proof.
  assert (ceilFee a 50 < a + 1); [|lia].
  unfold ceilFee. apply N.Div0.div_lt_upper_bound. lia.
Qed.

Lemma select_min (x y : N) : (if x <? y then x else y) = N.min x y.
Proof. destruct (N.ltb_spec x y); lia. Qed.

Lemma withdrawAmount_spec (c d : N) :
  withdrawAmount c d = Ok (safe_withdrawal_spec c d).
Proof.
  unfold withdrawAmount, safe_withdrawal_spec, SafeMath.div, SafeMath.sub, rbind.
  simpl (2 =? 0). cbv iota beta zeta.
  assert (Hle : c / 2 <= c) by (apply N.Div0.div_le_upper_bound; lia).
  assert (Hsmall : c / 2 = 0 -> c < 2) by (intros H0; apply N.div_small_iff in H0; lia).
  revert Hle Hsmall. generalize (c / 2). intros h Hle Hsmall.
  destruct (N.ltb_spec d c) as [Hdc|Hdc]; simpl andb; cbv iota beta.
  - destruct (N.leb_spec d c) as [_|Hbad]; [|lia]. cbv iota beta.
    destruct (N.ltb_spec h (c - d)) as [Hex|Hex]; cbv iota beta.
    + destruct (N.eqb_spec (c - d) 0) as [H0|H0]; [lia|].
      destruct (N.ltb_spec c (c - d)); f_equal; lia.
    + destruct (N.eqb_spec h 0) as [H0|H0].
      * specialize (Hsmall H0). destruct (N.ltb_spec c 1); f_equal; lia.
      * destruct (N.ltb_spec c h); f_equal; lia.
  - destruct (N.eqb_spec h 0) as [H0|H0].
    + specialize (Hsmall H0). destruct (N.ltb_spec c 1); f_equal; lia.
    + destruct (N.ltb_spec c h); f_equal; lia.
Qed.

(** ** Stepping through a run *)

Section Stepping.
Context {World : Type}.
Variable extcall : World -> ExtCall -> option (list byte * World).

Lemma after_nil {A} (r : Run World A) : after [] r = r.
Proof. destruct r. reflexivity. Qed.

Lemma bind_run {A B} (m : M World A) (k : A -> M World B) st w :
  bind m k st w =
  match result (m st w) with
  | Ok a => after (events (m st w)) (k a (store_of (m st w)) (world_of (m st w)))
  | Err e => mkRun (events (m st w)) (world_of (m st w)) (store_of (m st w)) (Err e)
  end.
Proof. reflexivity. Qed.

Lemma bind_ret {A B} (a : A) (k : A -> M World B) st w :
  bind (ret a) k st w = k a st w.
Proof. unfold bind, ret. simpl. apply after_nil. Qed.

Lemma bind_throw {A B} (e : Failure) (k : A -> M World B) st w :
  bind (throw e) k st w = mkRun [] w st (Err e).
Proof. reflexivity. Qed.

Lemma bind_load {A B} (f : Storage -> A) (k : A -> M World B) st w :
  bind (load f) k st w = k (f st) st w.
Proof. unfold bind, load. simpl. apply after_nil. Qed.

Lemma bind_store {B} (f : Storage -> Storage) (k : unit -> M World B) st w :
  bind (store f) k st w = k tt (f st) w.
Proof. unfold bind, store. simpl. apply after_nil. Qed.

Lemma bind_lift {A B} (r : Result A) (k : A -> M World B) st w :
  bind (lift r) k st w =
  match r with Ok a => k a st w | Err e => mkRun [] w st (Err e) end.
Proof. destruct r; [apply bind_ret | apply bind_throw]. Qed.

Lemma bind_call {B} (c : ExtCall) (k : list byte -> M World B) st w :
  bind (call extcall c) k st w =
  match extcall w c with
  | Some (data, w') => after [mkEvent c (Some data)] (k data st w')
  | None => mkRun [mkEvent c None] w st (Err CallFailed)
  end.
Proof. unfold bind, call. destruct (extcall w c) as [[data w']|]; reflexivity. Qed.

Lemma bind_bind {A B C} (m : M World A) (k : A -> M World B) (h : B -> M World C) st w :
  bind (bind m k) h st w = bind m (fun x => bind (k x) h) st w.
Proof.
  unfold bind. destruct (m st w) as [tr w1 st1 [a|e]]; simpl; [|reflexivity].
  destruct (k a st1 w1) as [tr2 w2 st2 [b|e]]; simpl; [|reflexivity].
  destruct (h b st2 w2) as [tr3 w3 st3 r3]. unfold after. simpl.
  rewrite app_assoc. reflexivity.
Qed.

Lemma bind_checked {B} (c : ExtCall) (msg : string) (k : unit -> M World B) st w :
  bind (checked extcall c msg) k st w =
  match extcall w c with
  | Some (data, w') =>
      if accepted data then after [mkEvent c (Some data)] (k tt st w')
      else mkRun [mkEvent c (Some data)] w' st (Err (Revert msg))
  | None => mkRun [mkEvent c None] w st (Err CallFailed)
  end.
Proof.
  unfold checked. rewrite bind_bind, bind_call.
  destruct (extcall w c) as [[data w']|]; [|reflexivity].
  destruct data as [|b rest]; simpl accepted.
  - rewrite bind_ret. reflexivity.
  - rewrite bind_bind, bind_lift. simpl readBoolean. cbv iota beta.
    destruct (negb (Byte.to_N b =? 0)).
    + rewrite bind_ret. reflexivity.
    + rewrite bind_throw. reflexivity.
Qed.

End Stepping.

Ltac run_rewrite :=
  first
    [ rewrite bind_bind | rewrite bind_ret | rewrite bind_throw | rewrite bind_load
    | rewrite bind_store | rewrite bind_lift | rewrite bind_call | rewrite bind_checked ].

Ltac run_case :=
  match goal with
  | H : ?c = _ |- context [bind (if ?c then _ else _) _ _ _] => rewrite H
  | H : ?c = _ |- context [(if ?c then _ else _) _ _] => rewrite H
  | |- context [match ?extcall ?w ?c with Some _ => _ | None => _ end] =>
      destruct (extcall w c) as [[? ?]|] eqn:?
  | |- context [bind (if ?c then _ else _) _ _ _] => destruct c eqn:?
  | |- context [(if ?c then _ else _) _ _] => destruct c eqn:?
  | |- context [match ?r with Ok _ => _ | Err _ => _ end] => destruct r eqn:?
  | |- context [if accepted ?d then _ else _] => destruct (accepted d) eqn:?
  end.

Ltac run_step := cbv beta iota; first [ run_rewrite | run_case ].

Ltac run_helpers :=
  unfold whenNotPaused, nonReentrant, releaseGuard, enforceHealthFactor,
    stashDeposit, stashBorrow, stashRepay, stashWithdraw,
    stashHealthFactor, stashBorrowBalance, stashMaxBorrowable, stashDepositBalance,
    safeTransferFrom, safeTransfer, safeIncreaseAllowance, safeDecreaseAllowance,
    onlyDeployer, validateNonZeroAddress.

Ltac run_steps := run_helpers; repeat run_step.
Ltac run_end := unfold ret, throw, store, load; cbv beta.
Ltac run_all := run_steps; run_end.

(** Name the run of a loop that a computation is waiting for, and split on its outcome. *)
Ltac run_loop_at m k st w r Hr :=
  rewrite (bind_run m k st w);
  remember (m st w) as r eqn:Hr;
  destruct r as [loop_events loop_world loop_store [[loop_fst loop_snd]|loop_failure]];
  cbn [result events world_of store_of].

Ltac arith_facts :=
  repeat match goal with
  | H : SafeMath.add _ _ = Ok _ |- _ => apply add_Ok in H as [? ?]
  | H : SafeMath.sub _ _ = Ok _ |- _ => apply sub_Ok in H as [? ?]
  | H : SafeMath.mul _ _ = Ok _ |- _ => apply mul_Ok in H as [? ?]
  | H : SafeMath.div _ _ = Ok _ |- _ => apply div_Ok in H as [? ?]
  | H : feeRoundUp _ _ = Ok _ |- _ => apply feeRoundUp_Ok in H as [? ?]
  | H : (_ <? _) = true |- _ => apply N.ltb_lt in H
  | H : (_ <? _) = false |- _ => apply N.ltb_ge in H
  | H : (_ <=? _) = true |- _ => apply N.leb_le in H
  | H : (_ <=? _) = false |- _ => apply N.leb_gt in H
  | H : (_ =? _) = true |- _ => apply N.eqb_eq in H
  | H : (_ =? _) = false |- _ => apply N.eqb_neq in H
  end.

(** ** The leverage loop *)

Section LeverageLoop.
Context {World : Type}.
Variable extcall : World -> ExtCall -> option (list byte * World).
Variable this : Address.

Lemma leverageLoop_store n target td tb cur st w :
  store_of (leverageLoop extcall this n target td tb cur st w) = st.
Proof.
  revert td tb cur st w. induction n as [|n IH]; intros; simpl leverageLoop.
  - reflexivity.
  - run_all; try reflexivity. simpl. apply IH.
Qed.

Lemma leverageLoop_counts n target td tb cur st w :
  (count_calls is_deposit (events (leverageLoop extcall this n target td tb cur st w)) <= n)%nat /\
  (count_calls is_borrow (events (leverageLoop extcall this n target td tb cur st w)) <= n)%nat.
Proof.
  revert td tb cur st w. induction n as [|n IH]; intros; simpl leverageLoop.
  - simpl. lia.
  - run_all; try (simpl; lia).
    simpl. match goal with |- context [leverageLoop _ _ _ _ ?a ?b ?c ?s ?v] =>
      specialize (IH a b c s v) end. lia.
Qed.

Lemma leverageLoop_supplied n target td tb cur st w :
  td + cur <= target ->
  supplied (events (leverageLoop extcall this n target td tb cur st w)) + td <= target /\
  forall td' tb',
    result (leverageLoop extcall this n target td tb cur st w) = Ok (td', tb') ->
    td' = td + supplied (events (leverageLoop extcall this n target td tb cur st w)).
Proof.
  revert td tb cur st w. induction n as [|n IH]; intros td tb cur st w Hcap;
    simpl leverageLoop.
  - simpl. split; [lia|]. intros ? ? Hr. injection Hr as ? ?. lia.
  - run_all; simpl; arith_facts; subst;
      try (split; [lia|]; intros ? ? Hr;
           first [ discriminate Hr | injection Hr as ? ?; subst; lia ]).
    rewrite select_min in *.
    match goal with |- context [leverageLoop _ _ _ _ ?a ?b ?c ?s ?v] =>
      specialize (IH a b c s v) end.
    destruct IH as [IH1 IH2]; [lia|].
    split; [lia|]. intros td' tb' Hr. apply IH2 in Hr. lia.
Qed.

Lemma borrows_checked_app (t1 t2 : list Event) :
  borrows_checked t1 = true -> borrows_checked t2 = true ->
  borrows_checked (t1 ++ t2) = true.
Proof.
  induction t1 as [|e rest IH]; intros H1 H2; [assumption|].
  simpl in *. destruct (is_borrow e).
  - destruct rest as [|next rest']; [discriminate|].
    simpl in *. apply andb_true_iff in H1 as [Hn Hrest].
    rewrite Hn. simpl. apply IH; assumption.
  - apply IH; assumption.
Qed.

Lemma health_below_query (s acct : Address) (data : list byte) :
  health_below (mkEvent (mkCall s (StashHealthFactor acct)) (Some data)) =
  match readU256 data with Ok hf => hf <? MIN_HEALTH_FACTOR_E18 | Err _ => false end.
Proof. unfold health_below, observed. simpl. destruct (readU256 data); reflexivity. Qed.

Lemma health_passed_query (s acct : Address) (data : list byte) :
  health_passed (mkEvent (mkCall s (StashHealthFactor acct)) (Some data)) =
  match readU256 data with Ok hf => MIN_HEALTH_FACTOR_E18 <=? hf | Err _ => false end.
Proof. unfold health_passed, observed. simpl. destruct (readU256 data); reflexivity. Qed.

Lemma leverageLoop_health n target td tb cur st w :
  (existsb health_below (events (leverageLoop extcall this n target td tb cur st w)) = true ->
   result (leverageLoop extcall this n target td tb cur st w) = Err HealthFactorTooLow) /\
  (is_ok (result (leverageLoop extcall this n target td tb cur st w)) = true ->
   borrows_checked (events (leverageLoop extcall this n target td tb cur st w)) = true).
Proof.
  revert td tb cur st w. induction n as [|n IH]; intros; simpl leverageLoop.
  - simpl. split; [discriminate|reflexivity].
  - run_all; simpl; rewrite ?health_below_query, ?health_passed_query;
      repeat match goal with H : readU256 ?d = _ |- context [readU256 ?d] => rewrite H end;
      simpl;
      try (split; intros X; first [discriminate X | reflexivity]).
    match goal with H : (_ <? MIN_HEALTH_FACTOR_E18) = false |- _ =>
      rewrite H; apply N.ltb_ge, N.leb_le in H; rewrite H end.
    simpl. apply IH.
Qed.

End LeverageLoop.

(** ** The unwind loop *)

Section UnwindLoop.
Context {World : Type}.
Variable extcall : World -> ExtCall -> option (list byte * World).
Variable this : Address.

Lemma unwindLoop_store n d c st w :
  store_of (unwindLoop extcall n d c st w) = st.
Proof.
  revert d c st w. induction n as [|n IH]; intros; simpl unwindLoop.
  - reflexivity.
  - run_all; try reflexivity; simpl; apply IH.
Qed.

Lemma unwindLoop_counts n d c st w :
  (count_calls is_withdraw (events (unwindLoop extcall n d c st w)) <= n)%nat /\
  (count_calls is_repay (events (unwindLoop extcall n d c st w)) <= n)%nat.
Proof.
  revert d c st w. induction n as [|n IH]; intros; simpl unwindLoop.
  - simpl. lia.
  - run_all; try (simpl; lia);
      simpl; match goal with |- context [unwindLoop _ _ ?a ?b ?s ?v] =>
        specialize (IH a b s v) end; lia.
Qed.

Lemma unwindLoop_quiet n d c st w :
  transfers (events (unwindLoop extcall n d c st w)) = [] /\
  debt_queries (events (unwindLoop extcall n d c st w)) = [].
Proof.
  revert d c st w. induction n as [|n IH]; intros; simpl unwindLoop.
  - split; reflexivity.
  - run_all; try (split; reflexivity); simpl; apply IH.
Qed.

Lemma unwindLoop_schedule n d c st w :
  withdrawals (events (unwindLoop extcall n d c st w)) `prefix_of` unwind_schedule n d c /\
  (is_ok (result (unwindLoop extcall n d c st w)) = true ->
   withdrawals (events (unwindLoop extcall n d c st w)) = unwind_schedule n d c).
Proof.
  revert d c st w. induction n as [|n IH]; intros; simpl unwindLoop; simpl unwind_schedule.
  - split; reflexivity.
  - rewrite withdrawAmount_spec.
    run_all; simpl;
      try (split; [apply prefix_nil | intros X; first [discriminate X | reflexivity]]);
      rewrite ?select_min in *; arith_facts; subst;
      try (split; [apply prefix_cons, prefix_nil | intros X; discriminate X]).
    + split; [apply prefix_cons, IH | intros X; f_equal; apply IH, X].
    + replace (d - N.min (safe_withdrawal_spec c d) d) with d by lia.
      split; [apply prefix_cons, IH | intros X; f_equal; apply IH, X].
Qed.

Lemma unwindLoop_first n d c st w :
  0 < c -> 0 < d ->
  exists ret,
    head (events (unwindLoop extcall (S n) d c st w)) =
    Some (mkEvent (mkCall (stash st) (StashWithdraw (moto st) (safe_withdrawal_spec c d))) ret).
Proof.
  intros Hc Hd. simpl unwindLoop.
  destruct (N.eqb_spec d 0) as [?|_]; [lia|].
  destruct (N.eqb_spec c 0) as [?|_]; [lia|].
  rewrite withdrawAmount_spec.
  run_all; simpl; eexists; reflexivity.
Qed.
End UnwindLoop.

Ltac run_loop r Hr :=
  match goal with
  | |- context [bind (@leverageLoop ?W ?e ?t ?n ?a ?b ?c ?d) ?k ?st ?w] =>
      run_loop_at (@leverageLoop W e t n a b c d) k st w r Hr
  | |- context [bind (@unwindLoop ?W ?e ?n ?a ?b) ?k ?st ?w] =>
      run_loop_at (@unwindLoop W e n a b) k st w r Hr
  end.

Lemma ends_with_health_check_snoc (l : list Event) (e : Event) :
  ends_with_health_check (l ++ [e]) = health_passed e.
Proof. unfold ends_with_health_check. rewrite rev_app_distr. reflexivity. Qed.

Lemma count_calls_app (p : Event -> bool) (t1 t2 : list Event) :
  count_calls p (t1 ++ t2) = (count_calls p t1 + count_calls p t2)%nat.
Proof.
  induction t1 as [|e rest IH]; [reflexivity|].
  simpl. destruct (p e); simpl; rewrite IH; reflexivity.
Qed.

Lemma round_trips_from_le (pending : bool) (out back : Event -> bool) (tr : list Event) :
  (round_trips_from pending out back tr <= count_calls back tr)%nat.
Proof.
  revert pending. induction tr as [|e rest IH]; intros pending; [reflexivity|].
  simpl. destruct (out e).
  - specialize (IH true). destruct (back e); lia.
  - destruct (back e); simpl.
    + destruct pending; [specialize (IH false) | specialize (IH false)]; lia.
    + apply IH.
Qed.

Lemma supplied_app (t1 t2 : list Event) :
  supplied (t1 ++ t2) = supplied t1 + supplied t2.
Proof.
  induction t1 as [|e rest IH]; [reflexivity|].
  simpl. destruct (calldata (ev_call e)); rewrite IH; lia.
Qed.

Lemma supplied_prefix (p tr : list Event) :
  p `prefix_of` tr -> supplied p <= supplied tr.
Proof. intros [k ->]. rewrite supplied_app. lia. Qed.

Section OpenPosition.
Context {World : Type}.
Variable extcall : World -> ExtCall -> option (list byte * World).
Variable this : Address.

Lemma open_health sender amount lev st w :
  (existsb health_below (events (openPosition extcall this sender amount lev st w)) = true ->
   result (openPosition extcall this sender amount lev st w) = Err HealthFactorTooLow) /\
  (is_ok (result (openPosition extcall this sender amount lev st w)) = true ->
   borrows_checked (events (openPosition extcall this sender amount lev st w)) = true /\
   ends_with_health_check (events (openPosition extcall this sender amount lev st w)) = true).
Proof.
  unfold openPosition. run_steps.
  all: try (run_end; simpl; split; intros X; discriminate X).
  all: run_loop r Hr.
  all: match type of Hr with _ = leverageLoop _ _ ?n ?t ?a ?b ?c ?s ?v =>
         destruct (leverageLoop_health extcall this n t a b c s v) as [Hlow Hchk];
         rewrite <- Hr in Hlow, Hchk; simpl in Hlow, Hchk end.
  all: run_all; simpl; rewrite ?existsb_app; simpl;
       rewrite ?health_below_query, ?health_passed_query;
       repeat match goal with H : readU256 ?d = _ |- context [readU256 ?d] => rewrite H end;
       rewrite ?orb_false_r.
  all: try (split; [intros X; specialize (Hlow X); congruence | intros X; discriminate X]).
  all: try (split; [reflexivity | intros X; discriminate X]).
  all: try (split; [intros X; discriminate X | intros X; discriminate X]).
  all: destruct (existsb health_below loop_events);
       [specialize (Hlow eq_refl); discriminate Hlow|].
  all: match goal with H : (_ <? MIN_HEALTH_FACTOR_E18) = _ |- _ => rewrite H end.
  all: try (split; [reflexivity | intros X; discriminate X]).
  all: split; [intros X; discriminate X | intros _].
  all: split; [apply borrows_checked_app; [apply Hchk; reflexivity | reflexivity]|].
  all: rewrite !app_comm_cons, ends_with_health_check_snoc, health_passed_query.
  all: match goal with H : readU256 _ = _ |- _ => rewrite H end.
  all: arith_facts; apply N.leb_le; assumption.
Qed.

Lemma open_counts sender amount lev st w :
  (count_calls is_deposit (events (openPosition extcall this sender amount lev st w)) <= MAX_LOOPS)%nat /\
  (count_calls is_borrow (events (openPosition extcall this sender amount lev st w)) <= MAX_LOOPS)%nat.
Proof.
  unfold openPosition. run_steps.
  all: try (run_end; simpl; lia).
  all: run_loop r Hr.
  all: match type of Hr with _ = leverageLoop _ _ ?n ?t ?a ?b ?c ?s ?v =>
         pose proof (leverageLoop_counts extcall this n t a b c s v) as Hcount;
         rewrite <- Hr in Hcount; simpl in Hcount end.
  all: run_all; simpl; rewrite ?count_calls_app; simpl; lia.
Qed.

Lemma open_supplied sender amount lev st w :
  supplied (events (openPosition extcall this sender amount lev st w))
    <= (amount - ceilFee amount 50) * lev / E18 /\
  (is_ok (result (openPosition extcall this sender amount lev st w)) = true ->
   map_get (userDeposits (store_of (openPosition extcall this sender amount lev st w))) sender
     = supplied (events (openPosition extcall this sender amount lev st w))).
Proof.
  unfold openPosition. run_steps.
  all: try (run_end; simpl; split; [apply N.le_0_l | intros X; discriminate X]).
  all: run_loop r Hr.
  all: match type of Hr with _ = leverageLoop _ _ ?n ?t ?a ?b ?c ?s ?v =>
         pose proof (leverageLoop_supplied extcall this n t a b c s v) as Hsup;
         rewrite <- Hr in Hsup; simpl in Hsup end.
  all: arith_facts; subst.
  all: destruct Hsup as [Hcap Hsum];
       [ rewrite N.add_0_l; apply N.div_le_lower_bound;
         [ discriminate | rewrite N.mul_comm; apply N.mul_le_mono_l; assumption ] |].
  all: run_all; simpl; rewrite ?supplied_app; simpl; rewrite ?N.add_0_r in *.
  all: unfold ENTRY_FEE_BPS in *.
  all: split; [assumption | intros X; try discriminate X].
  all: unfold map_get, map_set; simpl; rewrite lookup_insert_eq; simpl.
  all: rewrite <- (N.add_0_l (supplied _)); eapply Hsum; reflexivity.
Qed.

Lemma open_success sender amount lev st w :
  is_ok (result (openPosition extcall this sender amount lev st w)) = true ->
  activeUser st = zero_address /\
  activeUser (store_of (openPosition extcall this sender amount lev st w)) = sender /\
  forall user, user <> sender ->
    map_get (userDeposits (store_of (openPosition extcall this sender amount lev st w))) user
      = map_get (userDeposits st) user /\
    map_get (userDebts (store_of (openPosition extcall this sender amount lev st w))) user
      = map_get (userDebts st) user.
Proof.
  unfold openPosition. run_steps.
  all: try (run_end; simpl; intros X; discriminate X).
  all: run_loop r Hr.
  all: match type of Hr with _ = leverageLoop _ _ ?n ?t ?a ?b ?c ?s ?v =>
         pose proof (leverageLoop_store extcall this n t a b c s v) as Hst;
         rewrite <- Hr in Hst; simpl in Hst; subst end.
  all: run_all; simpl; intros X; try discriminate X.
  all: match goal with H : negb (_ =? zero_address) = false |- _ =>
         apply negb_false_iff, N.eqb_eq in H; simpl in H end.
  all: repeat split; try assumption.
  all: unfold map_get, map_set; rewrite lookup_insert_ne by congruence; reflexivity.
Qed.

End OpenPosition.

Lemma debt_queries_app (t1 t2 : list Event) :
  debt_queries (t1 ++ t2) = debt_queries t1 ++ debt_queries t2.
Proof.
  induction t1 as [|e rest IH]; [reflexivity|].
  simpl. destruct (is_debt_query e); simpl; rewrite IH; reflexivity.
Qed.

Lemma transfers_app (t1 t2 : list Event) :
  transfers (t1 ++ t2) = transfers t1 ++ transfers t2.
Proof.
  induction t1 as [|e rest IH]; [reflexivity|].
  simpl. destruct (calldata (ev_call e)); simpl; rewrite IH; reflexivity.
Qed.

Lemma from_last_none (tr : list Event) :
  debt_queries tr = [] -> from_last_debt_query tr = [].
Proof.
  induction tr as [|e rest IH]; [reflexivity|].
  simpl. destruct (is_debt_query e); [discriminate|].
  intros H. rewrite (IH H). reflexivity.
Qed.

Lemma from_last_here (q : Event) (tail : list Event) :
  is_debt_query q = true -> debt_queries tail = [] ->
  from_last_debt_query (q :: tail) = q :: tail.
Proof. intros Hq Ht. simpl. rewrite (from_last_none tail Ht), Hq. reflexivity. Qed.

Lemma from_last_found (pre rest : list Event) (q : Event) (tail : list Event) :
  from_last_debt_query rest = q :: tail ->
  from_last_debt_query (pre ++ rest) = q :: tail.
Proof.
  intros H. induction pre as [|e pre IH]; [assumption|].
  simpl. rewrite IH. reflexivity.
Qed.

Lemma from_last_later (e : Event) (rest : list Event) (q : Event) (tail : list Event) :
  from_last_debt_query rest = q :: tail ->
  from_last_debt_query (e :: rest) = q :: tail.
Proof. apply (from_last_found [e]). Qed.

Ltac find_requery :=
  repeat first
    [ apply from_last_here; [reflexivity | reflexivity]
    | apply from_last_later
    | apply from_last_found ].

Ltac storage_simpl_in H :=
  cbn [treasury stash moto paused locked totalFeesCollected activeUser userDeposits
       userDebts set_treasury set_stash set_moto set_paused set_locked
       set_totalFeesCollected set_activeUser set_userDeposit set_userDebt] in H.

Tactic Notation "storage_simpl" "in" hyp(H) := storage_simpl_in H.

Section ClosePosition.
Context {World : Type}.
Variable extcall : World -> ExtCall -> option (list byte * World).
Variable this : Address.

Lemma close_counts sender st w :
  (count_calls is_withdraw (events (closePosition extcall this sender st w)) <= S MAX_LOOPS)%nat /\
  (count_calls is_repay (events (closePosition extcall this sender st w)) <= MAX_LOOPS)%nat.
Proof.
  unfold closePosition. run_steps.
  all: try (run_end; simpl; lia).
  all: run_loop r Hr.
  all: match type of Hr with _ = unwindLoop _ ?n ?a ?b ?s ?v =>
         pose proof (unwindLoop_counts extcall n a b s v) as Hcount;
         rewrite <- Hr in Hcount; simpl in Hcount end.
  all: run_all; simpl; rewrite ?count_calls_app; simpl; lia.
Qed.

Lemma debt_query_observed (s acct : Address) (data : list byte) :
  observed (mkEvent (mkCall s (StashBorrowBalance acct)) (Some data)) =
  match readU256 data with Ok v => Some v | Err _ => None end.
Proof. reflexivity. Qed.

Lemma close_residual sender st w :
  (forall v, residual_debt (events (closePosition extcall this sender st w)) = Some v ->
             v <> 0 ->
             result (closePosition extcall this sender st w) = Err UnwindIncomplete) /\
  (is_ok (result (closePosition extcall this sender st w)) = true ->
   residual_debt (events (closePosition extcall this sender st w)) = Some 0 /\
   exists requery tail,
     from_last_debt_query (events (closePosition extcall this sender st w)) = requery :: tail /\
     observed requery = Some 0 /\
     forallb (fun e => negb (is_pool_action e)) tail = true).
Proof.
  unfold closePosition. run_steps.
  all: try (run_end; simpl; split; [intros v X; discriminate X | intros X; discriminate X]).
  all: run_loop r Hr.
  all: match type of Hr with _ = unwindLoop _ ?n ?a ?b ?s ?v =>
         destruct (unwindLoop_quiet extcall n a b s v) as [_ Hquiet];
         rewrite <- Hr in Hquiet; simpl in Hquiet end.
  all: run_all; unfold residual_debt; cbn -[from_last_debt_query];
       rewrite ?debt_queries_app, ?Hquiet; cbn -[from_last_debt_query].
  all: try (split; [intros v X; discriminate X | intros X; discriminate X]).
  all: rewrite ?debt_query_observed;
       repeat match goal with H : readU256 ?d = _ |- context [readU256 ?d] => rewrite H end.
  all: try (split; [intros v X; discriminate X | intros X; discriminate X]).
  all: arith_facts.
  all: try (split; [intros v _ _; reflexivity | intros X; discriminate X]).
  all: split; [intros v X Hv; injection X as <-; lia | intros _].
  all: split; [f_equal; lia|].
  all: eexists _, _; split; [find_requery | split; [|reflexivity]].
  all: rewrite debt_query_observed;
       match goal with H : readU256 _ = _ |- _ => rewrite H end; f_equal; lia.
Qed.

Lemma netProceedsOf_value (deposit debt : N) :
  netProceedsOf deposit debt = Ok (if debt <? deposit then deposit - debt else 0).
Proof.
  unfold netProceedsOf, SafeMath.sub.
  destruct (N.ltb_spec debt deposit) as [Hlt|Hge]; [|reflexivity].
  destruct (N.leb_spec debt deposit); [reflexivity|lia].
Qed.

Lemma close_transfers sender st w netProceeds :
  netProceeds = (if map_get (userDebts st) sender <? map_get (userDeposits st) sender
                 then map_get (userDeposits st) sender - map_get (userDebts st) sender
                 else 0) ->
  is_ok (result (closePosition extcall this sender st w)) = true ->
  feeRoundUp netProceeds EXIT_FEE_BPS = Ok (ceilFee netProceeds 50) /\
  transfers (events (closePosition extcall this sender st w)) =
    (if 0 <? ceilFee netProceeds 50
     then [(treasury st, ceilFee netProceeds 50)] else []) ++
    (if 0 <? netProceeds - ceilFee netProceeds 50
     then [(sender, netProceeds - ceilFee netProceeds 50)] else []).
Proof.
  intros Hnp. unfold closePosition. run_steps.
  all: try (run_end; simpl; intros X; discriminate X).
  all: run_loop r Hr.
  all: match type of Hr with _ = unwindLoop _ ?n ?a ?b ?s ?v =>
         destruct (unwindLoop_quiet extcall n a b s v) as [Hquiet _];
         pose proof (unwindLoop_store extcall n a b s v) as Hst;
         rewrite <- Hr in Hquiet, Hst; simpl in Hquiet, Hst; subst loop_store end.
  all: run_all; simpl; intros X; try discriminate X; clear X.
  all: match goal with H : netProceedsOf _ _ = _ |- _ =>
         rewrite netProceedsOf_value in H; injection H as H;
         storage_simpl in H; rewrite <- Hnp in H; clear Hnp end.
  all: rewrite ?transfers_app, ?Hquiet; simpl.
  all: arith_facts; unfold EXIT_FEE_BPS in *; subst.
  all: try (match goal with H : ?x <= 0 |- context [feeRoundUp ?x _] =>
              assert (x = 0) as -> by lia end; split; reflexivity).
  all: split; [apply feeRoundUp_Ok; split; [reflexivity | assumption]|].
  all: repeat match goal with
       | H : 0 < ?x |- context [0 <? ?x] =>
           let E := fresh in destruct (N.ltb_spec 0 x) as [E|E]; [clear E | lia]
       | H : ?x <= 0 |- context [0 <? ?x] =>
           let E := fresh in destruct (N.ltb_spec 0 x) as [E|E]; [lia | clear E]
       end.
  all: reflexivity.
Qed.

Lemma close_success sender st w :
  is_ok (result (closePosition extcall this sender st w)) = true ->
  activeUser st = sender /\
  activeUser (store_of (closePosition extcall this sender st w)) = zero_address /\
  map_get (userDeposits (store_of (closePosition extcall this sender st w))) sender = 0 /\
  map_get (userDebts (store_of (closePosition extcall this sender st w))) sender = 0 /\
  forall user, user <> sender ->
    map_get (userDeposits (store_of (closePosition extcall this sender st w))) user
      = map_get (userDeposits st) user /\
    map_get (userDebts (store_of (closePosition extcall this sender st w))) user
      = map_get (userDebts st) user.
Proof.
  unfold closePosition. run_steps.
  all: try (run_end; simpl; intros X; discriminate X).
  all: run_loop r Hr.
  all: match type of Hr with _ = unwindLoop _ ?n ?a ?b ?s ?v =>
         pose proof (unwindLoop_store extcall n a b s v) as Hst;
         rewrite <- Hr in Hst; simpl in Hst; subst loop_store end.
  all: run_all; simpl; intros X; try discriminate X.
  all: match goal with H : negb (_ =? _) = false |- _ =>
         apply negb_false_iff, N.eqb_eq in H; storage_simpl in H end.
  all: unfold map_get, map_set; rewrite !lookup_insert_eq.
  all: repeat split; try assumption.
  all: rewrite lookup_insert_ne by congruence; reflexivity.
Qed.

End ClosePosition.

(** ** The paused flag *)

Section PauseBlind.
Context {World : Type}.
Variable extcall : World -> ExtCall -> option (list byte * World).
Variable this : Address.

Lemma pause_blind_ret {A} (a : A) : pause_blind (ret (World:=World) a).
Proof. intros b st w. reflexivity. Qed.

Lemma pause_blind_throw {A} (e : Failure) : pause_blind (throw (World:=World) (A:=A) e).
Proof. intros b st w. reflexivity. Qed.

Lemma pause_blind_lift {A} (r : Result A) : pause_blind (lift (World:=World) r).
Proof. destruct r; [apply pause_blind_ret | apply pause_blind_throw]. Qed.

Lemma pause_blind_load {A} (f : Storage -> A) :
  (forall b st, f (set_paused b st) = f st) -> pause_blind (load (World:=World) f).
Proof. intros Hf b st w. unfold load, on_store. simpl. rewrite Hf. reflexivity. Qed.

Lemma pause_blind_store (f : Storage -> Storage) :
  (forall b st, f (set_paused b st) = set_paused b (f st)) ->
  pause_blind (store (World:=World) f).
Proof. intros Hf b st w. unfold store, on_store. simpl. rewrite Hf. reflexivity. Qed.

Lemma pause_blind_call (c : ExtCall) : pause_blind (call extcall c).
Proof.
  intros b st w. unfold call, on_store.
  destruct (extcall w c) as [[data w']|]; reflexivity.
Qed.

Lemma pause_blind_bind {A B} (m : M World A) (k : A -> M World B) :
  pause_blind m -> (forall a, pause_blind (k a)) -> pause_blind (bind m k).
Proof.
  intros Hm Hk b st w. unfold bind. cbv zeta. rewrite (Hm b st w).
  destruct (m st w) as [tr w1 st1 [a|e]]; unfold on_store; simpl; [|reflexivity].
  rewrite (Hk a b st1 w1). reflexivity.
Qed.

Lemma pause_blind_checked (c : ExtCall) (msg : string) : pause_blind (checked extcall c msg).
Proof.
  unfold checked. apply pause_blind_bind; [apply pause_blind_call|].
  intros [|x rest]; [apply pause_blind_ret|].
  apply pause_blind_bind; [apply pause_blind_lift|].
  intros [|]; [apply pause_blind_ret | apply pause_blind_throw].
Qed.

End PauseBlind.

Ltac pause_blind_step :=
  match goal with
  | |- pause_blind (bind _ _) => apply pause_blind_bind; [|intros ?]
  | |- pause_blind (ret _) => apply pause_blind_ret
  | |- pause_blind (throw _) => apply pause_blind_throw
  | |- pause_blind (lift _) => apply pause_blind_lift
  | |- pause_blind (call _ _) => apply pause_blind_call
  | |- pause_blind (checked _ _ _) => apply pause_blind_checked
  | |- pause_blind (load _) => apply pause_blind_load; intros ? ?; reflexivity
  | |- pause_blind (store _) => apply pause_blind_store; intros ? ?; reflexivity
  | |- pause_blind (if ?c then _ else _) => destruct c
  end.

Section PauseBlindClose.
Context {World : Type}.
Variable extcall : World -> ExtCall -> option (list byte * World).
Variable this : Address.

Lemma pause_blind_unwindLoop n d c : pause_blind (unwindLoop extcall n d c).
Proof.
  revert d c. induction n as [|n IH]; intros d c; simpl unwindLoop.
  - apply pause_blind_ret.
  - run_helpers. repeat pause_blind_step. apply IH.
Qed.

Lemma pause_blind_closePosition sender : pause_blind (closePosition extcall this sender).
Proof.
  unfold closePosition. run_helpers.
  repeat first [ pause_blind_step | apply pause_blind_unwindLoop ].
Qed.

End PauseBlindClose.

(** ** Reachable storages hold at most one position *)

Section Administration.
Context {World : Type}.
Variable deployer : Address.

Lemma admin_keeps_positions (sender : Address) (m : Method) (st : Storage) (w : World) :
  match m with OpenPosition _ _ | ClosePosition => False | _ => True end ->
  forall extcall this,
  let r := callMethod (World:=World) extcall this deployer sender m st w in
  activeUser (store_of r) = activeUser st /\
  userDeposits (store_of r) = userDeposits st /\
  userDebts (store_of r) = userDebts st.
Proof.
  intros Hadmin extcall this.
  destruct m; try contradiction; simpl callMethod;
    unfold pause, unpause, setTreasury, setStash, setMoto;
    run_all; simpl; repeat split; reflexivity.
Qed.

End Administration.

Lemma transact_store {World A} (m : M World A) (st : Storage) (w : World) :
  fst (fst (transact m st w)) =
  if is_ok (result (m st w)) then store_of (m st w) else st.
Proof. unfold transact. destruct (result (m st w)); reflexivity. Qed.

Lemma reachable_single_position (this deployer : Address) (st : Storage) :
  reachable this deployer st -> single_position st.
Proof.
  induction 1 as [t s m Ht Hs Hm | World extcall st w sender m Hreach IH Hsender].
  - intros user [Hu|Hu]; exfalso; apply Hu; reflexivity.
  - rewrite transact_store.
    destruct (is_ok (result (callMethod extcall this deployer sender m st w))) eqn:Hok;
      [|assumption].
    destruct m as [amount lev| | | | | |].
    1: { simpl callMethod in *.
         destruct (open_success extcall this sender amount lev st w Hok)
           as (Hfree & Hactive & Hothers).
         intros user Huser. rewrite Hactive.
         destruct (N.eq_dec user sender) as [->|Hne]; [split; [reflexivity|assumption]|].
         exfalso. destruct (Hothers user Hne) as [Hd Hb].
         unfold has_position in Huser. rewrite Hd, Hb in Huser.
         destruct (IH user Huser) as [_ Hbusy]. contradiction. }
    1: { simpl callMethod in *.
         destruct (close_success extcall this sender st w Hok)
           as (Howner & Hactive & Hdep & Hdebt & Hothers).
         intros user Huser. exfalso.
         destruct (N.eq_dec user sender) as [->|Hne].
         - unfold has_position in Huser. rewrite Hdep, Hdebt in Huser.
           destruct Huser as [Hu|Hu]; apply Hu; reflexivity.
         - destruct (Hothers user Hne) as [Hd Hb].
           unfold has_position in Huser. rewrite Hd, Hb in Huser.
           destruct (IH user Huser) as [Hu _]. congruence. }
    all: match goal with |- single_position (store_of (callMethod _ _ _ _ ?m _ _)) =>
           destruct (admin_keeps_positions deployer sender m st w I extcall this)
             as (Ha & Hd & Hb) end;
         intros user Huser; unfold has_position in Huser; rewrite Ha;
         rewrite Hd, Hb in Huser; exact (IH user Huser).
Qed.

(** ** Rejections at the entry of openPosition *)

Section OpenEntry.
Context {World : Type}.
Variable extcall : World -> ExtCall -> option (list byte * World).
Variable this : Address.

Lemma open_when_paused sender amount lev st w :
  paused st = true ->
  openPosition extcall this sender amount lev st w = mkRun [] w st (Err Paused).
Proof. intros Hp. unfold openPosition. run_all. reflexivity. Qed.

Lemma open_when_locked sender amount lev st w :
  paused st = false -> locked st = true ->
  openPosition extcall this sender amount lev st w = mkRun [] w st (Err Reentrant).
Proof. intros Hp Hl. unfold openPosition. run_all. reflexivity. Qed.

Lemma open_below_minimum sender amount lev st w :
  paused st = false -> locked st = false -> amount < MIN_DEPOSIT ->
  openPosition extcall this sender amount lev st w
    = mkRun [] w (set_locked true st) (Err BelowMinimumDeposit).
Proof.
  intros Hp Hl Ha. apply N.ltb_lt in Ha.
  unfold openPosition. run_all. reflexivity.
Qed.

Lemma open_above_cap sender amount lev st w :
  paused st = false -> locked st = false -> MIN_DEPOSIT <= amount ->
  MAX_LEVERAGE_E18 < lev ->
  openPosition extcall this sender amount lev st w
    = mkRun [] w (set_locked true st) (Err LeverageAboveCap).
Proof.
  intros Hp Hl Ha Hlev. apply N.ltb_ge in Ha. apply N.ltb_lt in Hlev.
  unfold openPosition. run_all. reflexivity.
Qed.

Lemma open_below_one sender amount lev st w :
  paused st = false -> locked st = false -> MIN_DEPOSIT <= amount ->
  lev < E18 ->
  openPosition extcall this sender amount lev st w
    = mkRun [] w (set_locked true st) (Err LeverageBelowOne).
Proof.
  intros Hp Hl Ha Hlev. apply N.ltb_ge in Ha.
  assert (Hcap : (MAX_LEVERAGE_E18 <? lev) = false)
    by (apply N.ltb_ge; unfold MAX_LEVERAGE_E18, E18 in *; lia).
  apply N.ltb_lt in Hlev.
  unfold openPosition. run_all. reflexivity.
Qed.

Lemma open_while_active sender amount lev st w :
  activeUser st <> zero_address ->
  is_ok (result (openPosition extcall this sender amount lev st w)) = false /\
  events (openPosition extcall this sender amount lev st w) = [] /\
  (paused st = false -> locked st = false -> MIN_DEPOSIT <= amount ->
   E18 <= lev -> lev <= MAX_LEVERAGE_E18 ->
   openPosition extcall this sender amount lev st w
     = mkRun [] w (set_locked true st) (Err PositionAlreadyActive)).
Proof.
  intros Hactive.
  assert (Hbusy : negb (activeUser (set_locked true st) =? zero_address) = true)
    by (apply negb_true_iff, N.eqb_neq; exact Hactive).
  unfold openPosition. run_all; simpl; repeat split; try reflexivity;
    intros; arith_facts; try discriminate; lia.
Qed.

End OpenEntry.

Lemma transact_failure {World A} (m : M World A) (st : Storage) (w : World) (e : Failure) :
  result (m st w) = Err e -> transact m st w = (st, w, Err e).
Proof. intros H. unfold transact. rewrite H. reflexivity. Qed.

(** ** The withdrawals of a whole closePosition *)

Lemma safe_withdrawal_le (c d : N) : safe_withdrawal_spec c d <= c.
Proof. unfold safe_withdrawal_spec. cbv zeta. lia. Qed.

Lemma withdrawals_app (t1 t2 : list Event) :
  withdrawals (t1 ++ t2) = withdrawals t1 ++ withdrawals t2.
Proof.
  induction t1 as [|e t1 IH]; simpl; [reflexivity|].
  destruct (calldata (ev_call e)); simpl; rewrite ?IH; reflexivity.
Qed.

Lemma withdrawn_total (tr : list Event) : withdrawn tr = total (withdrawals tr).
Proof.
  induction tr as [|e tr IH]; simpl; [reflexivity|].
  destruct (calldata (ev_call e)); simpl; rewrite ?IH; reflexivity.
Qed.

Lemma unwind_schedule_first (n : nat) (d c : N) :
  0 < c -> 0 < d ->
  exists rest, unwind_schedule (S n) d c = safe_withdrawal_spec c d :: rest.
Proof.
  intros Hc Hd. simpl unwind_schedule.
  destruct (N.eqb_spec d 0) as [?|_]; [lia|].
  destruct (N.eqb_spec c 0) as [?|_]; [lia|].
  simpl orb. cbv iota zeta. eexists. reflexivity.
Qed.

Section CloseSchedule.
Context {World : Type}.
Variable extcall : World -> ExtCall -> option (list byte * World).
Variable this : Address.

Lemma unwindLoop_conservation n d c st w :
  withdrawn (events (unwindLoop extcall n d c st w)) <= c /\
  repaid (events (unwindLoop extcall n d c st w)) <= d /\
  pulls (events (unwindLoop extcall n d c st w)) = [] /\
  allowance_calls (events (unwindLoop extcall n d c st w)) = [] /\
  forall d' c', result (unwindLoop extcall n d c st w) = Ok (d', c') ->
    withdrawn (events (unwindLoop extcall n d c st w)) + c' = c /\
    repaid (events (unwindLoop extcall n d c st w)) + d' = d.
Proof.
  revert d c st w. induction n as [|n IH]; intros; simpl unwindLoop.
  - simpl. repeat split; try lia; injection H as <- <-; lia.
  - rewrite withdrawAmount_spec. pose proof (safe_withdrawal_le c d) as Hle.
    run_all; simpl; rewrite ?select_min in *; arith_facts; subst.
    all: try match goal with |- context [unwindLoop _ _ ?a ?b ?s ?v] =>
           destruct (IH a b s v) as (I1 & I2 & I3 & I4 & I5) end.
    all: split; [lia|]; split; [lia|]; split; [assumption || reflexivity|];
         split; [assumption || reflexivity|].
    all: intros d' c' Hr; try discriminate Hr.
    all: try (injection Hr as <- <-; lia).
    all: destruct (I5 d' c' Hr); lia.
Qed.

Lemma close_follows_schedule sender st w d c :
  debt_read (events (closePosition extcall this sender st w)) = Some d ->
  collateral_read (events (closePosition extcall this sender st w)) = Some c ->
  withdrawals (events (closePosition extcall this sender st w))
    `prefix_of` close_schedule d c /\
  (is_ok (result (closePosition extcall this sender st w)) = true ->
   withdrawals (events (closePosition extcall this sender st w)) = close_schedule d c).
Proof.
  unfold closePosition. run_steps.
  all: try (run_end; cbn -[N.add N.ltb N.leb N.sub close_schedule];
            unfold debt_read; cbn -[N.add N.ltb N.leb N.sub close_schedule];
            unfold observed; cbn -[N.add N.ltb N.leb N.sub close_schedule];
            repeat match goal with H : readU256 _ = _ |- _ => rewrite H end;
            intros X Y;
            first [ discriminate X | discriminate Y
                  | split; [apply prefix_nil | intros Z; discriminate Z] ]).
  all: run_loop r Hr.
  all: match type of Hr with _ = unwindLoop _ ?n ?a ?b ?s ?v =>
         destruct (unwindLoop_conservation n a b s v) as (_ & _ & _ & _ & Hc);
         destruct (unwindLoop_schedule extcall n a b s v) as (Hpre & Heq);
         rewrite <- Hr in Hc, Hpre, Heq; cbn [events result is_ok] in Hc, Hpre, Heq end.
  all: try (specialize (Hc _ _ eq_refl) as [Hc _]; specialize (Heq eq_refl)).
  all: run_all; cbn -[N.add N.ltb N.leb N.sub close_schedule unwind_schedule];
       unfold debt_read; cbn -[N.add N.ltb N.leb N.sub close_schedule unwind_schedule];
       unfold observed; cbn -[N.add N.ltb N.leb N.sub close_schedule unwind_schedule].
  all: repeat match goal with H : readU256 _ = _ |- _ => rewrite H end.
  all: intros [= <-] [= <-].
  all: rewrite ?withdrawals_app; cbn -[N.add N.ltb N.leb N.sub close_schedule unwind_schedule].
  all: unfold close_schedule.
  all: try (rewrite withdrawn_total, Heq in Hc; rewrite Heq;
            match goal with H : (0 <? (_, ?rest).2) = _ |- _ => cbn [snd] in H end;
            match goal with
            | H : (0 <? ?rest) = _ |- _ =>
                replace (_ - total (unwind_schedule MAX_LOOPS _ _)) with rest by lia;
                rewrite H
            end).
  all: rewrite ?app_nil_r.
  all: try (split; [reflexivity | intros _; reflexivity]).
  all: split; [apply prefix_app_r; assumption | intros Z; discriminate Z].
Qed.

Lemma close_reports_first sender st w :
  is_ok (result (closePosition extcall this sender st w)) = true \/
  withdrawals (events (closePosition extcall this sender st w)) <> [] ->
  exists d c,
    debt_read (events (closePosition extcall this sender st w)) = Some d /\
    collateral_read (events (closePosition extcall this sender st w)) = Some c.
Proof.
  unfold closePosition. run_steps.
  all: try (run_end; cbn -[N.add N.ltb N.leb N.sub];
            intros [X|X]; [discriminate X | exfalso; apply X; reflexivity]).
  all: try (run_end; cbn -[N.add N.ltb N.leb N.sub];
            unfold debt_read; cbn -[N.add N.ltb N.leb N.sub];
            unfold observed; cbn -[N.add N.ltb N.leb N.sub];
            repeat match goal with H : readU256 _ = _ |- _ => rewrite H end;
            intros _; eexists; eexists; split; reflexivity).
  all: run_loop r Hr.
  all: run_all; cbn -[N.add N.ltb N.leb N.sub];
       unfold debt_read; cbn -[N.add N.ltb N.leb N.sub];
       unfold observed; cbn -[N.add N.ltb N.leb N.sub].
  all: repeat match goal with H : readU256 _ = _ |- _ => rewrite H end.
  all: intros _; eexists; eexists; split; reflexivity.
Qed.

End CloseSchedule.

(** * The properties of the specification *)

(** C1.  Health factor in openPosition.  If any health-factor query of an
    openPosition run (each follows a borrow or is the final one) returns
    less than MIN_HEALTH_FACTOR_E18, the run fails with HealthFactorTooLow.
    A run that succeeds saw no value below the minimum, queried the health
    factor directly after every borrow and got at least the minimum, and its
    last external call is such a passing query. *)
Theorem open_enforces_health_factor :
  forall (World : Type) (extcall : World -> ExtCall -> option (list byte * World))
         (this sender amount lev : N) (st : Storage) (w : World),
    let r := openPosition extcall this sender amount lev st w in
    (existsb health_below (events r) = true -> result r = Err HealthFactorTooLow) /\
    (is_ok (result r) = true ->
       existsb health_below (events r) = false /\
       borrows_checked (events r) = true /\
       ends_with_health_check (events r) = true).
Proof.
  intros World extcall this sender amount lev st w r.
  destruct (open_health extcall this sender amount lev st w) as [Hlow Hok].
  fold r in Hlow, Hok. split; [exact Hlow|].
  intros Hsuccess. split; [|exact (Hok Hsuccess)].
  destruct (existsb health_below (events r)); [|reflexivity].
  rewrite (Hlow eq_refl) in Hsuccess. discriminate Hsuccess.
Qed.

(** C1 on the runs [unhealthy] (health factor 1.2 after the borrow) and [opened]. *)
Lemma open_enforces_health_factor_witness :
  result unhealthy = Err HealthFactorTooLow /\
  (existsb health_below (events opened) = false /\
   borrows_checked (events opened) = true /\
   ends_with_health_check (events opened) = true).
Proof.
  split.
  - apply (open_enforces_health_factor _ scripted 100 42 1000000 1500000000000000000
             fresh unhealthy_script).
    vm_compute. reflexivity.
  - apply (open_enforces_health_factor _ scripted 100 42 1000000 1500000000000000000
             fresh open_script).
    vm_compute. reflexivity.
Defined.

(** C2.  Completeness of closePosition.  If the second debt query of a
    closePosition run (the one made after the unwind loop and the leftover
    withdrawal) returns a non-zero value, the run fails with
    UnwindIncomplete.  A run that succeeds read zero there, made no
    deposit, borrow, repay or withdraw call after it, and leaves the active
    user at the zero address and the caller's stored deposit and debt at
    zero, so getPosition of the caller answers (0, 0); from a reachable
    storage no user has a position left. *)
Theorem close_leaves_no_debt :
  forall (World : Type) (extcall : World -> ExtCall -> option (list byte * World))
         (this deployer sender : N) (st : Storage) (w : World),
    let r := closePosition extcall this sender st w in
    (forall v, residual_debt (events r) = Some v -> v <> 0 ->
               result r = Err UnwindIncomplete) /\
    (is_ok (result r) = true ->
       residual_debt (events r) = Some 0 /\
       (exists requery tail,
          from_last_debt_query (events r) = requery :: tail /\
          observed requery = Some 0 /\
          forallb (fun e => negb (is_pool_action e)) tail = true) /\
       activeUser (store_of r) = zero_address /\
       map_get (userDeposits (store_of r)) sender = 0 /\
       map_get (userDebts (store_of r)) sender = 0 /\
       (forall w' : World, result (getPosition sender (store_of r) w') = Ok (0, 0)) /\
       (reachable this deployer st -> forall user, ~ has_position (store_of r) user)).
Proof.
  intros World extcall this deployer sender st w r.
  destruct (close_residual extcall this sender st w) as [Hfail Hok].
  fold r in Hfail, Hok. split; [exact Hfail|].
  intros Hsuccess. destruct (Hok Hsuccess) as [Hzero Hquery].
  destruct (close_success extcall this sender st w Hsuccess)
    as (Howner & Hactive & Hdep & Hdebt & Hothers).
  fold r in Hactive, Hdep, Hdebt, Hothers.
  repeat split; try assumption.
  { intros w'. unfold getPosition. run_all. simpl. rewrite Hdep, Hdebt. reflexivity. }
  intros Hreach user Huser.
  destruct (N.eq_dec user sender) as [->|Hne].
  - unfold has_position in Huser. rewrite Hdep, Hdebt in Huser.
    destruct Huser as [Hu|Hu]; apply Hu; reflexivity.
  - destruct (Hothers user Hne) as [Hd Hb].
    unfold has_position in Huser. rewrite Hd, Hb in Huser.
    destruct (reachable_single_position this deployer st Hreach user Huser) as [Hu _].
    congruence.
Qed.

(** C2 on the runs [stuck] (3 units of debt left) and [closed]. *)
Lemma close_leaves_no_debt_witness :
  result stuck = Err UnwindIncomplete /\
  (residual_debt (events closed) = Some 0 /\
   activeUser (store_of closed) = zero_address /\
   map_get (userDeposits (store_of closed)) 42 = 0 /\
   map_get (userDebts (store_of closed)) 42 = 0).
Proof.
  split.
  - apply (proj1 (close_leaves_no_debt _ scripted 100 1 42 (store_of opened) stuck_script) 3).
    + vm_compute. reflexivity.
    + discriminate.
  - destruct (proj2 (close_leaves_no_debt _ scripted 100 1 42 (store_of opened) close_script))
      as (Hzero & _ & Hactive & Hdep & Hdebt & _ & _).
    + vm_compute. reflexivity.
    + repeat split; assumption.
Defined.

(** C3, counterexample.  With the rounding the code uses, the fee of 199
    at 50 basis points is 1, not 0. *)
Lemma fee_dust_boundary_counterexample :
  feeRoundUp 199 50 = Ok 1 /\ feeRoundUp 199 50 <> Ok 0.
Proof. split; [reflexivity | discriminate]. Qed.

(** C3, as amended.  Where feeRoundUp returns (amount * 50 + 9999 fits in
    256 bits; otherwise it fails with an overflow) it equals ceilFee, is
    non-decreasing in the amount and is positive for every amount of at
    least 1, so for every amount of at least 200; the fee of 199 is 1 and
    the only amount with fee 0 is 0. *)
Theorem fee_monotone_positive :
  (forall a b fa fb, a <= b -> feeRoundUp a 50 = Ok fa -> feeRoundUp b 50 = Ok fb -> fa <= fb) /\
  (forall a, 1 <= a -> a * 50 + 9999 <= U256_MAX ->
             exists fee, feeRoundUp a 50 = Ok fee /\ fee = ceilFee a 50 /\ 0 < fee) /\
  (forall a, U256_MAX < a * 50 + 9999 -> feeRoundUp a 50 = Err ArithmeticOverflow) /\
  (forall a, feeRoundUp a 50 = Ok 0 -> a = 0) /\
  feeRoundUp 199 50 = Ok 1 /\
  feeRoundUp 0 50 = Ok 0.
Proof.
  repeat split.
  - intros a b fa fb Hab Ha Hb.
    apply feeRoundUp_Ok in Ha as [-> _]. apply feeRoundUp_Ok in Hb as [-> _].
    apply ceilFee_monotone. exact Hab.
  - intros a Hpos Hfit. exists (ceilFee a 50).
    split; [apply feeRoundUp_Ok; split; [reflexivity|exact Hfit] |].
    split; [reflexivity | apply ceilFee_positive; exact Hpos].
  - intros a. apply feeRoundUp_overflows.
  - intros a Hzero. apply feeRoundUp_Ok in Hzero as [Hfee _].
    destruct (N.eq_dec a 0) as [|Hne]; [assumption|].
    assert (0 < ceilFee a 50) by (apply ceilFee_positive; lia). lia.
Qed.

(** C3 as amended, at 199, 200 and an amount whose product overflows. *)
Lemma fee_monotone_positive_witness :
  (exists fee, feeRoundUp 200 50 = Ok fee /\ fee = ceilFee 200 50 /\ 0 < fee) /\
  ceilFee 199 50 <= ceilFee 200 50 /\
  feeRoundUp (U256_MAX / 50) 50 = Err ArithmeticOverflow.
Proof.
  destruct fee_monotone_positive as (Hmono & Hpos & Hover & _).
  split; [|split].
  - apply (Hpos 200); [lia | vm_compute; discriminate].
  - apply (Hmono 199 200); [lia | reflexivity | reflexivity].
  - apply Hover. vm_compute. reflexivity.
Defined.

(** C4, counterexample.  With user 42's position active, an open of 5 base
    units by user 43 fails with BelowMinimumDeposit, not with
    PositionAlreadyActive.  And the contract reads a zero active user as "no
    position": after an open sent from the zero address ([ownerless]) the
    active user is still the zero address, so the open by user 43 that follows
    ([doubled]) succeeds, and both the zero address and user 43 hold a
    non-empty position. *)
Lemma second_open_counterexample :
  (activeUser (store_of opened) = 42 /\
   result (openPosition scripted 100 43 5 E18 (store_of opened) []) = Err BelowMinimumDeposit /\
   BelowMinimumDeposit <> PositionAlreadyActive) /\
  (result ownerless = Ok true /\
   activeUser (store_of ownerless) = zero_address /\
   has_position (store_of ownerless) zero_address /\
   result doubled = Ok true /\
   has_position (store_of doubled) zero_address /\
   has_position (store_of doubled) 43).
Proof.
  split; [split; [|split]|].
  - vm_compute. reflexivity.
  - vm_compute. reflexivity.
  - discriminate.
  - repeat split; try (vm_compute; reflexivity); left; vm_compute; discriminate.
Qed.

(** C4, as amended.  While a position is active every openPosition fails,
    whoever calls, before any external call.  It fails with the failure of
    the first check it does not pass, in the order of the code: Paused when
    the contract is paused, Reentrant when the lock is held,
    BelowMinimumDeposit when the amount is below MIN_DEPOSIT,
    LeverageAboveCap or LeverageBelowOne when the leverage is outside 1e18 to
    3e18, and PositionAlreadyActive when it passes all of these.  Every
    storage reachable by senders other than the zero address holds at most
    one non-empty position, that of the active user. *)
Theorem second_open_rejected :
  (forall (World : Type) (extcall : World -> ExtCall -> option (list byte * World))
          (this sender amount lev : N) (st : Storage) (w : World),
     activeUser st <> zero_address ->
     is_ok (result (openPosition extcall this sender amount lev st w)) = false /\
     events (openPosition extcall this sender amount lev st w) = [] /\
     (paused st = true ->
      result (openPosition extcall this sender amount lev st w) = Err Paused) /\
     (paused st = false -> locked st = true ->
      result (openPosition extcall this sender amount lev st w) = Err Reentrant) /\
     (paused st = false -> locked st = false -> amount < MIN_DEPOSIT ->
      result (openPosition extcall this sender amount lev st w) = Err BelowMinimumDeposit) /\
     (paused st = false -> locked st = false -> MIN_DEPOSIT <= amount ->
      MAX_LEVERAGE_E18 < lev ->
      result (openPosition extcall this sender amount lev st w) = Err LeverageAboveCap) /\
     (paused st = false -> locked st = false -> MIN_DEPOSIT <= amount ->
      lev <= MAX_LEVERAGE_E18 -> lev < E18 ->
      result (openPosition extcall this sender amount lev st w) = Err LeverageBelowOne) /\
     (paused st = false -> locked st = false -> MIN_DEPOSIT <= amount ->
      E18 <= lev -> lev <= MAX_LEVERAGE_E18 ->
      result (openPosition extcall this sender amount lev st w) = Err PositionAlreadyActive)) /\
  (forall (this deployer : N) (st : Storage),
     reachable this deployer st -> single_position st).
Proof.
  split.
  - intros World extcall this sender amount lev st w Hactive.
    destruct (open_while_active extcall this sender amount lev st w Hactive)
      as (Hfail & Hquiet & Hkind).
    split; [assumption|]. split; [assumption|].
    split; [|split; [|split; [|split; [|split]]]].
    + intros Hp. rewrite (open_when_paused extcall this sender amount lev st w Hp).
      reflexivity.
    + intros Hp Hl. rewrite (open_when_locked extcall this sender amount lev st w Hp Hl).
      reflexivity.
    + intros Hp Hl Ha.
      rewrite (open_below_minimum extcall this sender amount lev st w Hp Hl Ha).
      reflexivity.
    + intros Hp Hl Ha Hhi.
      rewrite (open_above_cap extcall this sender amount lev st w Hp Hl Ha Hhi).
      reflexivity.
    + intros Hp Hl Ha _ Hlo.
      rewrite (open_below_one extcall this sender amount lev st w Hp Hl Ha Hlo).
      reflexivity.
    + intros Hp Hl Ha Hlo Hhi. rewrite (Hkind Hp Hl Ha Hlo Hhi). reflexivity.
  - exact reachable_single_position.
Qed.

(** C4 as amended: a valid open and an open of 5 base units by user 43 while
    user 42 holds the position, and the storage [opened] reaches. *)
Lemma second_open_rejected_witness :
  result (openPosition scripted 100 43 1000000 E18 (store_of opened) open_script)
    = Err PositionAlreadyActive /\
  result (openPosition scripted 100 43 5 E18 (store_of opened) open_script)
    = Err BelowMinimumDeposit /\
  single_position (store_of opened).
Proof.
  destruct second_open_rejected as [Hopen Hsingle].
  split; [|split].
  - apply (Hopen _ scripted 100 43 1000000 E18 (store_of opened) open_script);
      vm_compute; first [reflexivity | discriminate].
  - apply (Hopen _ scripted 100 43 5 E18 (store_of opened) open_script);
      vm_compute; first [reflexivity | discriminate].
  - apply (Hsingle 100 1).
    replace (store_of opened)
      with (fst (fst (transact (callMethod scripted 100 1 42
                                  (OpenPosition 1000000 1500000000000000000))
                                fresh open_script)))
      by (vm_compute; reflexivity).
    apply reachable_transact; [|discriminate].
    apply reachable_deployed; discriminate.
Defined.

(** C5.  Safe withdrawal amount.  A round of the unwind loop entered with
    collateral c > 0 and debt d > 0 first calls the pool's withdraw with the
    amount of the specification: half of c, or c - d when c > d and c - d is
    larger, then at least 1 and at most c.  All withdrawals of the loop follow
    the schedule these amounts give.  closePosition runs the loop from the
    debt d and the collateral c the pool reports at its start, which it asks
    for before it withdraws anything and in every run that succeeds: in every
    run of closePosition the withdrawals are, in order, those of that
    schedule, round by round, followed by the one withdrawal of the
    collateral the rounds left, and a run that succeeds makes all of them;
    with c > 0 and d > 0 the schedule starts with the amount of the
    specification. *)
Theorem unwind_withdraws_safe_amount :
  (forall (World : Type) (extcall : World -> ExtCall -> option (list byte * World))
          (n : nat) (d c : N) (st : Storage) (w : World),
     0 < c -> 0 < d ->
     withdrawAmount c d = Ok (safe_withdrawal_spec c d) /\
     (exists ret,
        head (events (unwindLoop extcall (S n) d c st w)) =
        Some (mkEvent (mkCall (stash st) (StashWithdraw (moto st) (safe_withdrawal_spec c d)))
                      ret)) /\
     withdrawals (events (unwindLoop extcall (S n) d c st w))
       `prefix_of` unwind_schedule (S n) d c /\
     (is_ok (result (unwindLoop extcall (S n) d c st w)) = true ->
      withdrawals (events (unwindLoop extcall (S n) d c st w)) = unwind_schedule (S n) d c)) /\
  (forall (World : Type) (extcall : World -> ExtCall -> option (list byte * World))
          (this sender : N) (st : Storage) (w : World),
     (is_ok (result (closePosition extcall this sender st w)) = true \/
      withdrawals (events (closePosition extcall this sender st w)) <> [] ->
      exists d c,
        debt_read (events (closePosition extcall this sender st w)) = Some d /\
        collateral_read (events (closePosition extcall this sender st w)) = Some c) /\
     (forall d c,
        debt_read (events (closePosition extcall this sender st w)) = Some d ->
        collateral_read (events (closePosition extcall this sender st w)) = Some c ->
        withdrawals (events (closePosition extcall this sender st w))
          `prefix_of` close_schedule d c /\
        (is_ok (result (closePosition extcall this sender st w)) = true ->
         withdrawals (events (closePosition extcall this sender st w))
           = close_schedule d c) /\
        (0 < c -> 0 < d ->
         exists rest, close_schedule d c = safe_withdrawal_spec c d :: rest))).
Proof.
  split.
  - intros World extcall n d c st w Hc Hd.
    split; [apply withdrawAmount_spec|].
    split; [apply unwindLoop_first; assumption|].
    apply unwindLoop_schedule.
  - intros World extcall this sender st w.
    split; [apply close_reports_first|].
    intros d c Hdebt Hcoll.
    destruct (close_follows_schedule extcall this sender st w d c Hdebt Hcoll)
      as [Hpre Heq].
    split; [exact Hpre|]. split; [exact Heq|].
    intros Hc Hd. unfold close_schedule, MAX_LOOPS.
    destruct (unwind_schedule_first 4 d c Hc Hd) as [rest ->].
    eexists. rewrite <- app_comm_cons. reflexivity.
Qed.

(** C5 for the position of [opened], collateral 1492500 against debt 497500:
    the loop alone, and the run [closed]. *)
Lemma unwind_withdraws_safe_amount_witness :
  0 < 1492500 /\ 0 < 497500 /\
  withdrawAmount 1492500 497500 = Ok 995000 /\
  withdrawals (events (unwindLoop scripted 5 497500 1492500 (store_of opened) [yes; yes]))
    = [995000] /\
  debt_read (events closed) = Some 497500 /\
  collateral_read (events closed) = Some 1492500 /\
  withdrawals (events closed) = [995000; 497500].
Proof.
  destruct unwind_withdraws_safe_amount as [Hloop Hclose].
  split; [reflexivity|]. split; [reflexivity|].
  destruct (Hloop _ scripted 4%nat 497500 1492500 (store_of opened)
              [yes; yes] eq_refl eq_refl) as (Hamount & _ & _ & Hall).
  split; [exact Hamount|].
  split; [rewrite Hall; vm_compute; reflexivity|].
  split; [vm_compute; reflexivity|]. split; [vm_compute; reflexivity|].
  destruct (Hclose _ scripted 100 42 (store_of opened) close_script) as [_ Hfollows].
  destruct (Hfollows 497500 1492500) as (_ & Hsched & _).
  - vm_compute. reflexivity.
  - vm_compute. reflexivity.
  - unfold closed. rewrite Hsched; vm_compute; reflexivity.
Defined.

(** C6.  Proceeds of closePosition.  In a closePosition run that succeeds,
    with netProceeds the stored deposit minus the stored debt of the caller
    (0 when the debt is not smaller), read from the storage the run started
    from, the exit fee is feeRoundUp(netProceeds, 50) = (netProceeds * 50 +
    10000 - 1) / 10000, and the token transfers of the run are exactly: the
    fee to the treasury when it is non-zero, then netProceeds minus the fee to
    the caller when that is non-zero. *)
Theorem close_pays_net_of_fee :
  forall (World : Type) (extcall : World -> ExtCall -> option (list byte * World))
         (this sender : N) (st : Storage) (w : World),
    is_ok (result (closePosition extcall this sender st w)) = true ->
    let storedDeposit := map_get (userDeposits st) sender in
    let storedDebt := map_get (userDebts st) sender in
    let netProceeds := if storedDebt <? storedDeposit then storedDeposit - storedDebt else 0 in
    let exitFee := ceilFee netProceeds 50 in
    let userReceives := netProceeds - exitFee in
    feeRoundUp netProceeds EXIT_FEE_BPS = Ok exitFee /\
    exitFee = (netProceeds * 50 + 10000 - 1) / 10000 /\
    exitFee <= netProceeds /\
    transfers (events (closePosition extcall this sender st w)) =
      (if 0 <? exitFee then [(treasury st, exitFee)] else []) ++
      (if 0 <? userReceives then [(sender, userReceives)] else []).
Proof.
  intros World extcall this sender st w Hok storedDeposit storedDebt netProceeds
    exitFee userReceives.
  destruct (close_transfers extcall this sender st w netProceeds eq_refl Hok) as [Hfee Hpaid].
  repeat split; try assumption.
  apply ceilFee_le.
Qed.

(** C6 on the run [closed]: 4975 to the treasury, 990025 to the user. *)
Lemma close_pays_net_of_fee_witness :
  is_ok (result closed) = true /\
  transfers (events closed) = [(7, 4975); (42, 990025)].
Proof.
  split; [vm_compute; reflexivity|].
  destruct (close_pays_net_of_fee _ scripted 100 42 (store_of opened) close_script)
    as (_ & _ & _ & Hpaid); [vm_compute; reflexivity|].
  unfold closed. rewrite Hpaid. vm_compute. reflexivity.
Defined.

(** C7.  Bounded loops.  Whatever the input and the pool, an openPosition
    run makes at most MAX_LOOPS deposit calls and at most MAX_LOOPS borrow
    calls, so at most MAX_LOOPS supply/borrow round trips; a closePosition
    run makes at most MAX_LOOPS repay calls, so at most MAX_LOOPS
    withdraw/repay round trips, and at most one withdraw call more (the
    leftover withdrawal after the loop). *)
Theorem loops_bounded :
  forall (World : Type) (extcall : World -> ExtCall -> option (list byte * World))
         (this sender amount lev : N) (st : Storage) (w : World),
    let opening := events (openPosition extcall this sender amount lev st w) in
    let closing := events (closePosition extcall this sender st w) in
    (round_trips is_deposit is_borrow opening <= MAX_LOOPS)%nat /\
    (count_calls is_deposit opening <= MAX_LOOPS)%nat /\
    (count_calls is_borrow opening <= MAX_LOOPS)%nat /\
    (round_trips is_withdraw is_repay closing <= MAX_LOOPS)%nat /\
    (count_calls is_repay closing <= MAX_LOOPS)%nat /\
    (count_calls is_withdraw closing <= S MAX_LOOPS)%nat.
Proof.
  intros World extcall this sender amount lev st w opening closing.
  destruct (open_counts extcall this sender amount lev st w) as [Hdep Hbor].
  destruct (close_counts extcall this sender st w) as [Hwd Hrep].
  fold opening in Hdep, Hbor. fold closing in Hwd, Hrep.
  pose proof (round_trips_from_le false is_deposit is_borrow opening) as Hopen.
  pose proof (round_trips_from_le false is_withdraw is_repay closing) as Hclose.
  unfold round_trips. repeat split; lia.
Qed.

(** The bound on withdraw calls is reached: five rounds and the leftover
    withdrawal. *)
Remark six_withdrawals :
  count_calls is_withdraw (events halving) = 6%nat /\
  count_calls is_repay (events halving) = 5%nat /\
  withdrawals (events halving) = [32; 16; 8; 4; 2; 2] /\
  result halving = Err UnwindIncomplete.
Proof. vm_compute. repeat split; reflexivity. Qed.

(** C8.  The paused flag.  closePosition never looks at the flag: a close
    that succeeds with the flag clear succeeds with it set, with the same
    calls, the same answers and the same storage up to the flag.  Every
    openPosition with the flag set fails with Paused before any external
    call. *)
Theorem pause_blocks_open_only :
  forall (World : Type) (extcall : World -> ExtCall -> option (list byte * World))
         (this sender amount lev : N) (st : Storage) (w : World),
    (forall v,
       result (closePosition extcall this sender (set_paused false st) w) = Ok v ->
       result (closePosition extcall this sender (set_paused true st) w) = Ok v /\
       events (closePosition extcall this sender (set_paused true st) w)
         = events (closePosition extcall this sender (set_paused false st) w) /\
       world_of (closePosition extcall this sender (set_paused true st) w)
         = world_of (closePosition extcall this sender (set_paused false st) w) /\
       store_of (closePosition extcall this sender (set_paused true st) w)
         = set_paused true (store_of (closePosition extcall this sender (set_paused false st) w))) /\
    openPosition extcall this sender amount lev (set_paused true st) w
      = mkRun [] w (set_paused true st) (Err Paused).
Proof.
  intros World extcall this sender amount lev st w. split.
  - intros v Hv.
    rewrite (pause_blind_closePosition extcall this sender true st w).
    rewrite (pause_blind_closePosition extcall this sender false st w) in *.
    unfold on_store in *. simpl in *. repeat split; try assumption.
  - apply open_when_paused. reflexivity.
Qed.

(** C8: the close of [opened] and a new open, both with the flag set. *)
Lemma pause_blocks_open_only_witness :
  result (closePosition scripted 100 42 (set_paused true (store_of opened)) close_script)
    = Ok true /\
  result (openPosition scripted 100 43 1000000 E18 (set_paused true (store_of closed)) open_script)
    = Err Paused.
Proof.
  destruct (pause_blocks_open_only _ scripted 100 43 1000000 E18 (store_of closed) open_script)
    as [_ Hopen].
  destruct (pause_blocks_open_only _ scripted 100 42 1000000 E18 (store_of opened) close_script)
    as [Hclose _].
  split.
  - apply (Hclose true). vm_compute. reflexivity.
  - rewrite Hopen. reflexivity.
Defined.

(** C9, counterexample.  An open of 5 base units at leverage 4.0 on a fresh
    contract: the leverage is out of range, yet the run fails with
    BelowMinimumDeposit, which is not a leverage failure. *)
Lemma leverage_rejection_counterexample :
  MAX_LEVERAGE_E18 < 4 * E18 /\
  result (openPosition scripted 100 42 5 (4 * E18) fresh []) = Err BelowMinimumDeposit /\
  BelowMinimumDeposit <> LeverageAboveCap /\
  BelowMinimumDeposit <> LeverageBelowOne.
Proof.
  split; [reflexivity|]. split; [vm_compute; reflexivity|]. split; discriminate.
Qed.

(** C9, as amended.  The checks of openPosition run in this order, each
    before any external call: paused, lock, amount, leverage.  A paused
    contract answers Paused and a held lock answers Reentrant, whatever the
    arguments.  Otherwise an amount below MIN_DEPOSIT is rejected with
    BelowMinimumDeposit, and an amount of at least MIN_DEPOSIT with a leverage
    above 3e18 or below 1e18 is rejected with LeverageOutOfRange.  At these
    rejections the only storage write made is the lock, and the failed
    transaction keeps the storage and world it started from. *)
Theorem open_validates_inputs :
  forall (World : Type) (extcall : World -> ExtCall -> option (list byte * World))
         (this sender amount lev : N) (st : Storage) (w : World),
    let r := openPosition extcall this sender amount lev st w in
    (paused st = true -> r = mkRun [] w st (Err Paused)) /\
    (paused st = false -> locked st = true -> r = mkRun [] w st (Err Reentrant)) /\
    (paused st = false -> locked st = false -> amount < MIN_DEPOSIT ->
       r = mkRun [] w (set_locked true st) (Err BelowMinimumDeposit)) /\
    (paused st = false -> locked st = false -> MIN_DEPOSIT <= amount ->
     lev < E18 \/ MAX_LEVERAGE_E18 < lev ->
       exists e, LeverageOutOfRange e /\ r = mkRun [] w (set_locked true st) (Err e)) /\
    (amount < MIN_DEPOSIT \/ lev < E18 \/ MAX_LEVERAGE_E18 < lev ->
       events r = [] /\
       exists e, transact (openPosition extcall this sender amount lev) st w = (st, w, Err e)).
Proof.
  intros World extcall this sender amount lev st w r. subst r.
  split; [apply open_when_paused|].
  split; [apply open_when_locked|].
  split; [apply open_below_minimum|].
  split.
  - intros Hp Hl Ha [Hlow|Hhigh].
    + exists LeverageBelowOne. split; [right; reflexivity|]. apply open_below_one; assumption.
    + exists LeverageAboveCap. split; [left; reflexivity|]. apply open_above_cap; assumption.
  - intros Hbad.
    destruct (paused st) eqn:Hp.
    { rewrite open_when_paused by assumption. split; [reflexivity|].
      eexists. apply transact_failure. rewrite open_when_paused by assumption. reflexivity. }
    destruct (locked st) eqn:Hl.
    { rewrite open_when_locked by assumption. split; [reflexivity|].
      eexists. apply transact_failure. rewrite open_when_locked by assumption. reflexivity. }
    destruct (N.lt_ge_cases amount MIN_DEPOSIT) as [Ha|Ha].
    { rewrite open_below_minimum by assumption. split; [reflexivity|].
      eexists. apply transact_failure. rewrite open_below_minimum by assumption. reflexivity. }
    destruct Hbad as [Hbad|[Hlow|Hhigh]]; [lia| |].
    + rewrite open_below_one by assumption. split; [reflexivity|].
      eexists. apply transact_failure. rewrite open_below_one by assumption. reflexivity.
    + rewrite open_above_cap by assumption. split; [reflexivity|].
      eexists. apply transact_failure. rewrite open_above_cap by assumption. reflexivity.
Qed.

(** C9 as amended: 9999 base units at 1.0x, and 1000000 at 4.0x. *)
Lemma open_validates_inputs_witness :
  result (openPosition scripted 100 42 9999 E18 fresh open_script) = Err BelowMinimumDeposit /\
  (exists e, LeverageOutOfRange e /\
     openPosition scripted 100 42 1000000 (4 * E18) fresh open_script
       = mkRun [] open_script (set_locked true fresh) (Err e)).
Proof.
  destruct (open_validates_inputs _ scripted 100 42 9999 E18 fresh open_script)
    as (_ & _ & Hsmall & _).
  destruct (open_validates_inputs _ scripted 100 42 1000000 (4 * E18) fresh open_script)
    as (_ & _ & _ & Hlev & _).
  split.
  - rewrite Hsmall; reflexivity.
  - apply Hlev; [reflexivity | reflexivity | vm_compute; discriminate | right; reflexivity].
Defined.

(** C10.  The leverage target caps the deposits.  In every run of
    openPosition, at every point of its call log, the total supplied to the
    pool so far is at most floor((amount - entryFee) * targetLeverage / 1e18),
    with entryFee the rounded-up fee of the amount; the loop keeps deposited
    plus next supply within the target.  On success the stored deposit of the
    caller is the total supplied, so it is at most that target. *)
Theorem open_respects_target :
  forall (World : Type) (extcall : World -> ExtCall -> option (list byte * World))
         (this sender amount lev : N) (st : Storage) (w : World),
    let r := openPosition extcall this sender amount lev st w in
    let target := (amount - ceilFee amount 50) * lev / E18 in
    (forall p, p `prefix_of` events r -> supplied p <= target) /\
    (forall n goal td tb cur st' w',
       td + cur <= goal ->
       supplied (events (leverageLoop extcall this n goal td tb cur st' w')) + td <= goal) /\
    (is_ok (result r) = true ->
       map_get (userDeposits (store_of r)) sender = supplied (events r) /\
       map_get (userDeposits (store_of r)) sender <= target).
Proof.
  intros World extcall this sender amount lev st w r target.
  destruct (open_supplied extcall this sender amount lev st w) as [Hcap Hstored].
  fold r in Hcap, Hstored. fold target in Hcap.
  split; [|split].
  - intros p Hp. apply supplied_prefix in Hp. lia.
  - intros n goal td tb cur st' w' Hinv.
    apply (leverageLoop_supplied extcall this n goal td tb cur st' w' Hinv).
  - intros Hok. specialize (Hstored Hok). split; [exact Hstored | lia].
Qed.

(** C10 on the run [opened]: 1492500 stored against a target of 1492500. *)
Lemma open_respects_target_witness :
  map_get (userDeposits (store_of opened)) 42 = 1492500 /\
  map_get (userDeposits (store_of opened)) 42
    <= (1000000 - ceilFee 1000000 50) * 1500000000000000000 / E18.
Proof.
  destruct (open_respects_target _ scripted 100 42 1000000 1500000000000000000
              fresh open_script) as (_ & _ & Hstored).
  destruct Hstored as [Hsum Hcap]; [vm_compute; reflexivity|].
  split; [vm_compute; reflexivity | exact Hcap].
Defined.

(** * Further properties of the contract *)

(** ** Accounting of the leverage loop *)

Section OpenAccounting.
Context {World : Type}.
Variable extcall : World -> ExtCall -> option (list byte * World).
Variable this : Address.

Lemma leverageLoop_accounting n target net td tb cur st w :
  td + cur <= target -> tb + net = td + cur ->
  forall td' tb',
    result (leverageLoop extcall this n target td tb cur st w) = Ok (td', tb') ->
    td' <= tb' + net /\ tb' + net <= target /\
    tb' = tb + borrowed (events (leverageLoop extcall this n target td tb cur st w)) /\
    td <= td' /\ (n <> O -> td + cur <= td').
Proof.
  revert td tb cur st w. induction n as [|n IH]; intros td tb cur st w Hcap Hbal td' tb';
    simpl leverageLoop.
  - simpl. intros Hr. injection Hr as <- <-. repeat split; lia.
  - run_all; simpl; intros Hr; try discriminate Hr; arith_facts; subst;
      try (injection Hr as <- <-; repeat split; intros; lia).
    rewrite ?select_min in *.
    match type of Hr with result (leverageLoop _ _ _ _ ?a ?b ?c ?s ?v) = _ =>
      specialize (IH a b c s v) end.
    destruct (IH ltac:(lia) ltac:(lia) td' tb' Hr) as (IH1 & IH2 & IH3 & IH4 & IH5).
    repeat split; intros; lia.
Qed.

Lemma leverageLoop_quiet n target td tb cur st w :
  transfers (events (leverageLoop extcall this n target td tb cur st w)) = [] /\
  pulls (events (leverageLoop extcall this n target td tb cur st w)) = [] /\
  allowance_calls (events (leverageLoop extcall this n target td tb cur st w)) = [].
Proof.
  revert td tb cur st w. induction n as [|n IH]; intros; simpl leverageLoop.
  - repeat split.
  - run_all; try (repeat split; reflexivity). simpl. apply IH.
Qed.

End OpenAccounting.

Lemma ceilFee_lt (a : N) : 2 <= a -> ceilFee a 50 < a.
Proof.
  intros Ha. unfold ceilFee. apply N.Div0.div_lt_upper_bound. lia.
Qed.

Lemma borrowed_app (t1 t2 : list Event) : borrowed (t1 ++ t2) = borrowed t1 + borrowed t2.
Proof.
  induction t1 as [|e rest IH]; [reflexivity|].
  simpl. destruct (calldata (ev_call e)); rewrite IH; lia.
Qed.

Lemma repaid_app (t1 t2 : list Event) : repaid (t1 ++ t2) = repaid t1 + repaid t2.
Proof.
  induction t1 as [|e rest IH]; [reflexivity|].
  simpl. destruct (calldata (ev_call e)); rewrite IH; lia.
Qed.

Lemma withdrawn_app (t1 t2 : list Event) : withdrawn (t1 ++ t2) = withdrawn t1 + withdrawn t2.
Proof.
  induction t1 as [|e rest IH]; [reflexivity|].
  simpl. destruct (calldata (ev_call e)); rewrite IH; lia.
Qed.

Lemma pulls_app (t1 t2 : list Event) : pulls (t1 ++ t2) = pulls t1 ++ pulls t2.
Proof.
  induction t1 as [|e rest IH]; [reflexivity|].
  simpl. destruct (calldata (ev_call e)); simpl; rewrite IH; reflexivity.
Qed.

Lemma allowance_calls_app (t1 t2 : list Event) :
  allowance_calls (t1 ++ t2) = allowance_calls t1 ++ allowance_calls t2.
Proof.
  induction t1 as [|e rest IH]; [reflexivity|].
  simpl. destruct (calldata (ev_call e)); simpl; rewrite IH; reflexivity.
Qed.

Section OpenFacts.
Context {World : Type}.
Variable extcall : World -> ExtCall -> option (list byte * World).
Variable this : Address.

Lemma open_success_facts sender amount lev st w :
  is_ok (result (openPosition extcall this sender amount lev st w)) = true ->
  (paused st = false /\ locked st = false /\ MIN_DEPOSIT <= amount /\
   E18 <= lev /\ lev <= MAX_LEVERAGE_E18 /\ activeUser st = zero_address) /\
  (locked (store_of (openPosition extcall this sender amount lev st w)) = false /\
   paused (store_of (openPosition extcall this sender amount lev st w)) = false /\
   treasury (store_of (openPosition extcall this sender amount lev st w)) = treasury st /\
   stash (store_of (openPosition extcall this sender amount lev st w)) = stash st /\
   moto (store_of (openPosition extcall this sender amount lev st w)) = moto st /\
   totalFeesCollected (store_of (openPosition extcall this sender amount lev st w))
     = totalFeesCollected st + ceilFee amount 50 /\
   totalFeesCollected st + ceilFee amount 50 <= U256_MAX) /\
  (transfers (events (openPosition extcall this sender amount lev st w))
     = [(treasury st, ceilFee amount 50)] /\
   pulls (events (openPosition extcall this sender amount lev st w))
     = [(sender, this, amount)] /\
   allowance_calls (events (openPosition extcall this sender amount lev st w))
     = [(true, stash st, U256_MAX)]) /\
  (map_get (userDebts (store_of (openPosition extcall this sender amount lev st w))) sender
     = borrowed (events (openPosition extcall this sender amount lev st w)) /\
   map_get (userDeposits (store_of (openPosition extcall this sender amount lev st w))) sender
     <= map_get (userDebts (store_of (openPosition extcall this sender amount lev st w))) sender
        + (amount - ceilFee amount 50) /\
   map_get (userDebts (store_of (openPosition extcall this sender amount lev st w))) sender
     + (amount - ceilFee amount 50) <= (amount - ceilFee amount 50) * lev / E18 /\
   amount - ceilFee amount 50
     <= map_get (userDeposits (store_of (openPosition extcall this sender amount lev st w))) sender).
Proof.
  unfold openPosition. run_steps.
  all: try (run_end; simpl; intros X; discriminate X).
  all: run_loop r Hr.
  all: match type of Hr with _ = leverageLoop _ _ ?n ?t ?a ?b ?c ?s ?v =>
         pose proof (leverageLoop_store extcall this n t a b c s v) as Hst;
         destruct (leverageLoop_quiet extcall this n t a b c s v) as (Hq1 & Hq2 & Hq3);
         pose proof (leverageLoop_accounting extcall this n t c a b c s v) as Hacc;
         rewrite <- Hr in Hst, Hq1, Hq2, Hq3, Hacc; simpl in Hst, Hq1, Hq2, Hq3, Hacc;
         subst loop_store end.
  all: run_all; simpl; intros X; try discriminate X; clear X.
  all: match goal with H : negb (_ =? zero_address) = false |- _ =>
         apply negb_false_iff, N.eqb_eq in H; storage_simpl in H end.
  all: arith_facts; unfold ENTRY_FEE_BPS, MIN_DEPOSIT in *; subst.
  all: pose proof (ceilFee_positive amount ltac:(lia)) as Hfee; try lia.
  all: destruct (Hacc
         ltac:(rewrite N.add_0_l; apply N.div_le_lower_bound;
               [discriminate | rewrite N.mul_comm; apply N.mul_le_mono_l; assumption])
         eq_refl _ _ eq_refl) as (A1 & A2 & A3 & _ & A5).
  all: specialize (A5 ltac:(discriminate)).
  all: rewrite ?transfers_app, ?pulls_app, ?allowance_calls_app, ?borrowed_app,
         ?Hq1, ?Hq2, ?Hq3; simpl.
  all: unfold map_get, map_set; rewrite !lookup_insert_eq; simpl.
  all: repeat split; try reflexivity; try assumption; lia.
Qed.

End OpenFacts.

(** ** Entry checks and settlement of a close *)

Ltac storage_simpl_goal :=
  cbn [treasury stash moto paused locked totalFeesCollected activeUser userDeposits
       userDebts set_treasury set_stash set_moto set_paused set_locked
       set_totalFeesCollected set_activeUser set_userDeposit set_userDebt].

Tactic Notation "storage_simpl" := storage_simpl_goal.

(** Step a run as far as the hypotheses decide its branches. *)
Ltac run_known :=
  run_helpers;
  repeat (cbv beta iota;
          first
            [ run_rewrite
            | match goal with
              | H : ?c = _ |- context [bind (if ?c then _ else _) _ _ _] => rewrite H
              | H : ?c = _ |- context [(if ?c then _ else _) _ _] => rewrite H
              end ]);
  unfold ret, throw; cbv beta iota.

Section CloseFacts.
Context {World : Type}.
Variable extcall : World -> ExtCall -> option (list byte * World).
Variable this : Address.

Lemma close_when_locked sender st w :
  locked st = true ->
  closePosition extcall this sender st w = mkRun [] w st (Err Reentrant).
Proof. intros Hl. unfold closePosition. run_known. reflexivity. Qed.

Lemma close_without_position sender st w :
  locked st = false -> map_get (userDeposits st) sender = 0 ->
  closePosition extcall this sender st w
    = mkRun [] w (set_locked true st) (Err NoOpenPosition).
Proof.
  intros Hl Hnone. apply N.eqb_eq in Hnone. unfold closePosition. run_known.
  storage_simpl. rewrite Hnone. run_known. reflexivity.
Qed.

Lemma close_by_stranger sender st w :
  locked st = false -> map_get (userDeposits st) sender <> 0 -> activeUser st <> sender ->
  closePosition extcall this sender st w
    = mkRun [] w (set_locked true st) (Err NotPositionOwner).
Proof.
  intros Hl Hsome Hother. apply N.eqb_neq in Hsome, Hother.
  unfold closePosition. run_known.
  storage_simpl. rewrite Hsome. run_known. storage_simpl. rewrite Hother. simpl negb.
  run_known. reflexivity.
Qed.

Lemma close_success_facts sender st w netProceeds :
  netProceeds = (if map_get (userDebts st) sender <? map_get (userDeposits st) sender
                 then map_get (userDeposits st) sender - map_get (userDebts st) sender
                 else 0) ->
  is_ok (result (closePosition extcall this sender st w)) = true ->
  (locked st = false /\ activeUser st = sender /\ map_get (userDeposits st) sender <> 0) /\
  (locked (store_of (closePosition extcall this sender st w)) = false /\
   paused (store_of (closePosition extcall this sender st w)) = paused st /\
   treasury (store_of (closePosition extcall this sender st w)) = treasury st /\
   stash (store_of (closePosition extcall this sender st w)) = stash st /\
   moto (store_of (closePosition extcall this sender st w)) = moto st /\
   totalFeesCollected (store_of (closePosition extcall this sender st w))
     = totalFeesCollected st + ceilFee netProceeds 50) /\
  (pulls (events (closePosition extcall this sender st w)) = [] /\
   allowance_calls (events (closePosition extcall this sender st w))
     = [(true, stash st, U256_MAX); (false, stash st, U256_MAX)]).
Proof.
  intros Hnp. unfold closePosition. run_steps.
  all: try (run_end; simpl; intros X; discriminate X).
  all: run_loop r Hr.
  all: match type of Hr with _ = unwindLoop _ ?n ?a ?b ?s ?v =>
         destruct (unwindLoop_conservation extcall n a b s v) as (_ & _ & Hq1 & Hq2 & _);
         pose proof (unwindLoop_store extcall n a b s v) as Hst;
         rewrite <- Hr in Hq1, Hq2, Hst; simpl in Hq1, Hq2, Hst; subst loop_store end.
  all: run_all; simpl; intros X; try discriminate X; clear X.
  all: match goal with H : netProceedsOf _ _ = _ |- _ =>
         rewrite netProceedsOf_value in H; injection H as H;
         storage_simpl in H; rewrite <- Hnp in H; clear Hnp end.
  all: match goal with H : negb (_ =? _) = false |- _ =>
         apply negb_false_iff, N.eqb_eq in H; storage_simpl in H end.
  all: rewrite ?pulls_app, ?allowance_calls_app, ?Hq1, ?Hq2; simpl.
  all: arith_facts; unfold EXIT_FEE_BPS in *; subst.
  all: try match goal with H : ?x <= 0 |- context [ceilFee ?x 50] =>
         assert (x = 0) as -> by lia; change (ceilFee 0 50) with 0 end.
  all: try match goal with H : ceilFee ?x 50 <= 0 |- _ =>
         assert (ceilFee x 50 = 0) as -> by lia end.
  all: rewrite ?N.add_0_r.
  all: repeat split; try reflexivity; try assumption.
Qed.

Lemma close_conservation sender st w :
  (collateral_read (events (closePosition extcall this sender st w)) = None ->
   withdrawn (events (closePosition extcall this sender st w)) = 0) /\
  (forall c, collateral_read (events (closePosition extcall this sender st w)) = Some c ->
     withdrawn (events (closePosition extcall this sender st w)) <= c /\
     (is_ok (result (closePosition extcall this sender st w)) = true ->
      withdrawn (events (closePosition extcall this sender st w)) = c)) /\
  (debt_read (events (closePosition extcall this sender st w)) = None ->
   repaid (events (closePosition extcall this sender st w)) = 0) /\
  (forall d, debt_read (events (closePosition extcall this sender st w)) = Some d ->
     repaid (events (closePosition extcall this sender st w)) <= d).
Proof.
  unfold closePosition. run_steps.
  all: try (run_end; cbn -[N.add N.ltb N.leb]; unfold debt_read; cbn -[N.add N.ltb N.leb];
            unfold observed; cbn -[N.add N.ltb N.leb];
            repeat match goal with H : readU256 _ = _ |- _ => rewrite H end;
            repeat split; intros; try reflexivity; try discriminate; try lia;
            fail).
  all: run_loop r Hr.
  all: match type of Hr with _ = unwindLoop _ ?n ?a ?b ?s ?v =>
         destruct (unwindLoop_conservation extcall n a b s v) as (Hq1 & Hq2 & _ & _ & Hq3);
         rewrite <- Hr in Hq1, Hq2, Hq3; simpl in Hq1, Hq2, Hq3 end.
  all: try specialize (Hq3 _ _ eq_refl) as [Hq3 Hq4].
  all: run_all; cbn -[N.add N.ltb N.leb]; unfold debt_read; cbn -[N.add N.ltb N.leb];
       unfold observed; cbn -[N.add N.ltb N.leb].
  all: repeat match goal with H : readU256 _ = _ |- _ => rewrite H end.
  all: rewrite ?withdrawn_app, ?repaid_app; cbn -[N.add N.ltb N.leb] in *; arith_facts.
  all: split; [intros X; discriminate X|].
  all: split; [intros c [= <-]; split; [lia | intros X; try discriminate X; lia]|].
  all: split; [intros X; discriminate X|].
  all: intros d [= <-]; lia.
Qed.

End CloseFacts.

(** ** Deployment and administration *)

Section AdminFacts.
Context {World : Type}.
Variable extcall : World -> ExtCall -> option (list byte * World).
Variables this deployer : Address.

Lemma onDeployment_run (t s m : Address) (st : Storage) (w : World) :
  onDeployment t s m st w =
    if t =? zero_address then mkRun [] w st (Err (Revert "treasury cannot be zero address"))
    else if s =? zero_address then mkRun [] w st (Err (Revert "stash cannot be zero address"))
    else if m =? zero_address then mkRun [] w st (Err (Revert "moto cannot be zero address"))
    else mkRun [] w (set_moto m (set_stash s (set_treasury t st))) (Ok tt).
Proof. unfold onDeployment. run_all; reflexivity. Qed.

Lemma admin_stranger sender m st w :
  is_admin m = true -> sender <> deployer ->
  callMethod extcall this deployer sender m st w = mkRun [] w st (Err OnlyDeployer).
Proof.
  intros Hm Hs. apply N.eqb_neq in Hs.
  destruct m; try discriminate Hm; simpl callMethod;
    unfold pause, unpause, setTreasury, setStash, setMoto; run_known; reflexivity.
Qed.

Lemma admin_deployer m st w :
  is_admin m = true ->
  callMethod extcall this deployer deployer m st w =
    match m with
    | Pause => mkRun [] w (set_paused true st) (Ok true)
    | Unpause => mkRun [] w (set_paused false st) (Ok true)
    | SetTreasury a =>
        if a =? zero_address
        then mkRun [] w st (Err (Revert "treasury cannot be zero address"))
        else mkRun [] w (set_treasury a st) (Ok true)
    | SetStash a =>
        if a =? zero_address
        then mkRun [] w st (Err (Revert "stash cannot be zero address"))
        else mkRun [] w (set_stash a st) (Ok true)
    | SetMoto a =>
        if a =? zero_address
        then mkRun [] w st (Err (Revert "moto cannot be zero address"))
        else mkRun [] w (set_moto a st) (Ok true)
    | _ => mkRun [] w st (Ok true)
    end.
Proof.
  intros Hm. pose proof (N.eqb_refl deployer) as Hd.
  destruct m; try discriminate Hm; simpl callMethod;
    unfold pause, unpause, setTreasury, setStash, setMoto; run_all; reflexivity.
Qed.

End AdminFacts.

(** ** What holds of every reachable storage *)


(** * Properties of the pool mock *)

(** ** Stepping through a run of the pool *)

Section StashStepping.
Context {World : Type}.
Variable extcall : World -> MockStash.Store -> ExtCall
                   -> option (list byte * World * MockStash.Books).

Lemma stash_after_nil {A} (r : MockStash.Run World A) : MockStash.after [] r = r.
Proof. destruct r. reflexivity. Qed.

Lemma stash_bind_run {A B} (m : MockStash.Act World A) (k : A -> MockStash.Act World B)
    st w :
  MockStash.bind m k st w =
  match MockStash.result (m st w) with
  | Ok a => MockStash.after (MockStash.events (m st w))
              (k a (MockStash.store_of (m st w)) (MockStash.world_of (m st w)))
  | Err e => MockStash.mkRun (MockStash.events (m st w)) (MockStash.world_of (m st w))
               (MockStash.store_of (m st w)) (Err e)
  end.
Proof. reflexivity. Qed.

Lemma stash_bind_ret {A B} (a : A) (k : A -> MockStash.Act World B) st w :
  MockStash.bind (MockStash.ret a) k st w = k a st w.
Proof. unfold MockStash.bind, MockStash.ret. simpl. apply stash_after_nil. Qed.

Lemma stash_bind_throw {A B} (e : Failure) (k : A -> MockStash.Act World B) st w :
  MockStash.bind (MockStash.throw e) k st w = MockStash.mkRun [] w st (Err e).
Proof. reflexivity. Qed.

Lemma stash_bind_load {A B} (f : MockStash.Store -> A) (k : A -> MockStash.Act World B) st w :
  MockStash.bind (MockStash.load f) k st w = k (f st) st w.
Proof. unfold MockStash.bind, MockStash.load. simpl. apply stash_after_nil. Qed.

Lemma stash_bind_store {B} (f : MockStash.Store -> MockStash.Store)
    (k : unit -> MockStash.Act World B) st w :
  MockStash.bind (MockStash.store f) k st w = k tt (f st) w.
Proof. unfold MockStash.bind, MockStash.store. simpl. apply stash_after_nil. Qed.

Lemma stash_bind_lift {A B} (r : Result A) (k : A -> MockStash.Act World B) st w :
  MockStash.bind (MockStash.lift r) k st w =
  match r with Ok a => k a st w | Err e => MockStash.mkRun [] w st (Err e) end.
Proof. destruct r; [apply stash_bind_ret | apply stash_bind_throw]. Qed.

Lemma stash_bind_bind {A B C} (m : MockStash.Act World A) (k : A -> MockStash.Act World B)
    (h : B -> MockStash.Act World C) st w :
  MockStash.bind (MockStash.bind m k) h st w
    = MockStash.bind m (fun x => MockStash.bind (k x) h) st w.
Proof.
  unfold MockStash.bind. destruct (m st w) as [tr w1 st1 [a|e]]; simpl; [|reflexivity].
  destruct (k a st1 w1) as [tr2 w2 st2 [b|e]]; simpl; [|reflexivity].
  destruct (h b st2 w2) as [tr3 w3 st3 r3]. unfold MockStash.after. simpl.
  rewrite app_assoc. reflexivity.
Qed.

Lemma stash_bind_call {B} (c : ExtCall) (k : list byte -> MockStash.Act World B) st w :
  MockStash.bind (MockStash.call extcall c) k st w =
  match extcall w st c with
  | Some (data, w', books) =>
      MockStash.after [mkEvent c (Some data)] (k data (MockStash.with_books books st) w')
  | None => MockStash.mkRun [mkEvent c None] w st (Err CallFailed)
  end.
Proof.
  unfold MockStash.bind, MockStash.call.
  destruct (extcall w st c) as [[[data w'] books]|]; reflexivity.
Qed.

Lemma stash_bind_checked {B} (c : ExtCall) (msg : string)
    (k : unit -> MockStash.Act World B) st w :
  MockStash.bind (MockStash.checked extcall c msg) k st w =
  match extcall w st c with
  | Some (data, w', books) =>
      if accepted data
      then MockStash.after [mkEvent c (Some data)] (k tt (MockStash.with_books books st) w')
      else MockStash.mkRun [mkEvent c (Some data)] w' (MockStash.with_books books st)
             (Err (Revert msg))
  | None => MockStash.mkRun [mkEvent c None] w st (Err CallFailed)
  end.
Proof.
  unfold MockStash.checked. rewrite stash_bind_bind, stash_bind_call.
  destruct (extcall w st c) as [[[data w'] books]|]; [|reflexivity].
  destruct data as [|b rest]; simpl accepted.
  - rewrite stash_bind_ret. reflexivity.
  - rewrite stash_bind_bind, stash_bind_lift. simpl readBoolean. cbv iota beta.
    destruct (negb (Byte.to_N b =? 0)).
    + rewrite stash_bind_ret. reflexivity.
    + rewrite stash_bind_throw. reflexivity.
Qed.

End StashStepping.

Ltac stash_rewrite :=
  first
    [ rewrite stash_bind_bind | rewrite stash_bind_ret | rewrite stash_bind_throw
    | rewrite stash_bind_load | rewrite stash_bind_store | rewrite stash_bind_lift
    | rewrite stash_bind_checked ].

Ltac stash_case :=
  match goal with
  | H : ?c = _ |- context [MockStash.bind (if ?c then _ else _) _ _ _] => rewrite H
  | H : ?c = _ |- context [(if ?c then _ else _) _ _] => rewrite H
  | |- context [match ?extcall ?w ?s ?c with Some _ => _ | None => _ end] =>
      destruct (extcall w s c) as [[[? ?] ?]|] eqn:?
  | |- context [MockStash.bind (if ?c then _ else _) _ _ _] => destruct c eqn:?
  | |- context [(if ?c then _ else _) _ _] => destruct c eqn:?
  | |- context [match ?r with Ok _ => _ | Err _ => _ end] => destruct r eqn:?
  | |- context [if accepted ?d then _ else _] => destruct (accepted d) eqn:?
  end.

Ltac stash_helpers :=
  unfold MockStash.callMethod, MockStash.deposit, MockStash.borrow, MockStash.repay,
    MockStash.withdraw, MockStash.healthFactor, MockStash.borrowBalanceOf,
    MockStash.maxBorrowable, MockStash.depositBalanceOf, MockStash.setToken,
    MockStash.onDeployment, MockStash.calculateHealthFactor,
    MockStash.calculateMaxBorrowable, MockStash.requireToken, MockStash.pullTokens,
    MockStash.sendTokens, MockStash.onlyDeployer.

Ltac stash_step := cbv beta iota; first [ stash_rewrite | stash_case ].
Ltac stash_end :=
  unfold MockStash.ret, MockStash.throw, MockStash.store, MockStash.load, MockStash.lift,
    MockStash.after;
  cbv beta iota.
Ltac stash_all := stash_helpers; repeat stash_step; stash_end.

Ltac stash_simpl :=
  cbn [MockStash.token MockStash.totalDeposits MockStash.totalBorrows
       MockStash.userDeposits MockStash.userBorrows MockStash.set_token
       MockStash.set_totalDeposits MockStash.set_totalBorrows
       MockStash.set_userDeposit MockStash.set_userBorrow
       MockStash.with_books MockStash.books_of MockStash.b_totalDeposits
       MockStash.b_totalBorrows MockStash.b_userDeposits MockStash.b_userBorrows
       MockStash.events MockStash.world_of MockStash.store_of MockStash.result
       is_ok app] in *.

(** Name the storage a token call left, where the run has made that call. *)
Ltac name_left :=
  unfold MockStash.pulled, MockStash.sent, MockStash.left_by; stash_simpl;
  repeat match goal with
         | H : ?e = Some _ |- context [match ?e with Some _ => _ | None => _ end] =>
             rewrite H
         end;
  stash_simpl.

Lemma map_get_set (m : gmap N N) (a b : Address) (v : u256) :
  map_get (map_set m a v) b = if b =? a then v else map_get m b.
Proof.
  unfold map_get, map_set. destruct (N.eqb_spec b a) as [->|Hne].
  - rewrite lookup_insert_eq. reflexivity.
  - rewrite lookup_insert_ne by congruence. reflexivity.
Qed.

Section StashActions.
Context {World : Type}.
Variable extcall : World -> MockStash.Store -> ExtCall
                   -> option (list byte * World * MockStash.Books).
Variables this deployer : Address.

Lemma with_own_books (st : MockStash.Store) :
  MockStash.with_books (MockStash.books_of st) st = st.
Proof. destruct st. reflexivity. Qed.

Lemma left_by_quiet w st c :
  MockStash.quiet extcall -> MockStash.left_by extcall w st c = st.
Proof.
  intros Hq. unfold MockStash.left_by.
  destruct (extcall w st c) as [[[data w'] books]|] eqn:Hc; [|reflexivity].
  rewrite (Hq _ _ _ _ _ _ Hc). apply with_own_books.
Qed.

Lemma pulled_quiet w st from a :
  MockStash.quiet extcall -> MockStash.pulled extcall this w st from a = st.
Proof. intros Hq. apply left_by_quiet. assumption. Qed.

Lemma sent_quiet w st to a :
  MockStash.quiet extcall -> MockStash.sent extcall w st to a = st.
Proof. intros Hq. apply left_by_quiet. assumption. Qed.

Lemma left_by_token w st c :
  MockStash.token (MockStash.left_by extcall w st c) = MockStash.token st.
Proof.
  unfold MockStash.left_by. destruct (extcall w st c) as [[[data w'] books]|]; reflexivity.
Qed.

Lemma stash_deposit_success sender t a st w :
  is_ok (MockStash.result (MockStash.deposit extcall this sender t a st w)) = true ->
  t = MockStash.token st /\ a <> 0 /\
  map_get (MockStash.userDeposits (MockStash.pulled extcall this w st sender a)) sender + a
    <= U256_MAX /\
  MockStash.totalDeposits (MockStash.pulled extcall this w st sender a) + a <= U256_MAX /\
  MockStash.store_of (MockStash.deposit extcall this sender t a st w)
    = MockStash.set_totalDeposits
        (MockStash.totalDeposits (MockStash.pulled extcall this w st sender a) + a)
        (MockStash.set_userDeposit sender
           (map_get (MockStash.userDeposits (MockStash.pulled extcall this w st sender a))
                    sender + a)
           (MockStash.pulled extcall this w st sender a)) /\
  pulls (MockStash.events (MockStash.deposit extcall this sender t a st w))
    = [(sender, this, a)] /\
  transfers (MockStash.events (MockStash.deposit extcall this sender t a st w)) = [].
Proof.
  stash_all; stash_simpl; intros X; try discriminate X.
  apply negb_false_iff in Heqb. arith_facts. subst. name_left.
  repeat split; assumption || reflexivity.
Qed.

Lemma stash_borrow_success sender t a st w :
  is_ok (MockStash.result (MockStash.borrow extcall sender t a st w)) = true ->
  t = MockStash.token st /\ a <> 0 /\
  map_get (MockStash.userBorrows st) sender + a
    <= map_get (MockStash.userDeposits st) sender * 66 / 100 /\
  map_get (MockStash.userBorrows st) sender + a <= U256_MAX /\
  MockStash.totalBorrows st + a <= U256_MAX /\
  MockStash.store_of (MockStash.borrow extcall sender t a st w)
    = MockStash.sent extcall w
        (MockStash.set_totalBorrows (MockStash.totalBorrows st + a)
           (MockStash.set_userBorrow sender
              (map_get (MockStash.userBorrows st) sender + a) st))
        sender a /\
  pulls (MockStash.events (MockStash.borrow extcall sender t a st w)) = [] /\
  transfers (MockStash.events (MockStash.borrow extcall sender t a st w))
    = [(sender, a)].
Proof.
  stash_all; stash_simpl; intros X; try discriminate X.
  all: apply negb_false_iff in Heqb; arith_facts;
       unfold MockStash.LTV_PERCENT, MockStash.HUNDRED in *; subst; name_left.
  all: repeat split; try assumption; try reflexivity; lia.
Qed.

Lemma stash_repay_success sender t a st w :
  is_ok (MockStash.result (MockStash.repay extcall this sender t a st w)) = true ->
  t = MockStash.token st /\ a <> 0 /\
  a <= map_get (MockStash.userBorrows st) sender /\
  a <= MockStash.totalBorrows (MockStash.pulled extcall this w st sender a) /\
  MockStash.store_of (MockStash.repay extcall this sender t a st w)
    = MockStash.set_totalBorrows
        (MockStash.totalBorrows (MockStash.pulled extcall this w st sender a) - a)
        (MockStash.set_userBorrow sender (map_get (MockStash.userBorrows st) sender - a)
           (MockStash.pulled extcall this w st sender a)) /\
  pulls (MockStash.events (MockStash.repay extcall this sender t a st w))
    = [(sender, this, a)] /\
  transfers (MockStash.events (MockStash.repay extcall this sender t a st w)) = [].
Proof.
  stash_all; stash_simpl; intros X; try discriminate X.
  apply negb_false_iff in Heqb. arith_facts. subst. name_left.
  repeat split; assumption || reflexivity.
Qed.

End StashActions.

(** ** The health factor as a ratio *)

Lemma health_ratio (c d k : N) :
  d <> 0 ->
  (k * 100000000000000000 <= c * 80 * MockStash.E18 / 100 / d <-> k * d <= 8 * c).
Proof.
  intros Hd. unfold MockStash.E18.
  pose proof (N.Div0.mul_div_le (c * 80 * 1000000000000000000) 100) as Hq.
  pose proof (N.mul_succ_div_gt (c * 80 * 1000000000000000000) 100 ltac:(discriminate)) as Hq'.
  split; intros H.
  - assert (d * (k * 100000000000000000) <= c * 80 * 1000000000000000000 / 100) as H1.
    { etransitivity; [|apply (N.Div0.mul_div_le _ d)].
      apply N.mul_le_mono_l. assumption. }
    clear H. rewrite N.mul_assoc in H1.
    rewrite (N.mul_comm k d). revert H1 Hq. generalize (d * k).
    generalize (c * 80 * 1000000000000000000 / 100). intros q m H1 Hq. lia.
  - apply N.div_le_lower_bound; [assumption|].
    rewrite N.mul_assoc. rewrite (N.mul_comm k d) in H.
    revert H Hq'. generalize (d * k).
    generalize (c * 80 * 1000000000000000000 / 100). intros q m H Hq'. lia.
Qed.

Section StashWithdraw.
Context {World : Type}.
Variable extcall : World -> MockStash.Store -> ExtCall
                   -> option (list byte * World * MockStash.Books).
Variables this deployer : Address.

Lemma stash_withdraw_success sender t a st w :
  is_ok (MockStash.result (MockStash.withdraw extcall sender t a st w)) = true ->
  t = MockStash.token st /\ a <> 0 /\
  a <= map_get (MockStash.userDeposits st) sender /\
  a <= MockStash.totalDeposits st /\
  100 * map_get (MockStash.userBorrows st) sender
    <= 80 * (map_get (MockStash.userDeposits st) sender - a) /\
  MockStash.store_of (MockStash.withdraw extcall sender t a st w)
    = MockStash.sent extcall w
        (MockStash.set_totalDeposits (MockStash.totalDeposits st - a)
           (MockStash.set_userDeposit sender
              (map_get (MockStash.userDeposits st) sender - a) st))
        sender a /\
  pulls (MockStash.events (MockStash.withdraw extcall sender t a st w)) = [] /\
  transfers (MockStash.events (MockStash.withdraw extcall sender t a st w))
    = [(sender, a)].
Proof.
  stash_all; stash_simpl; intros X; try discriminate X.
  all: apply negb_false_iff in Heqb; arith_facts;
       unfold MockStash.LIQ_THRESHOLD_PERCENT, MockStash.HUNDRED in *; subst; name_left.
  all: repeat split; try assumption; try reflexivity; try lia.
  match goal with
  | Hd : ?d <> 0, H : MockStash.E18 <= _ / 100 / ?d |- _ =>
      apply (proj1 (health_ratio _ d 10 Hd)) in H; lia
  end.
Qed.

End StashWithdraw.

(** ** Return data: what is written is what is read *)

Lemma byte_of_N_value (n : N) : Byte.to_N (byte_of_N n) = n mod 256.
Proof.
  unfold byte_of_N. destruct (Byte.of_N (n mod 256)) as [b|] eqn:Hb.
  - apply Byte.to_of_N. assumption.
  - apply Byte.of_N_None_iff in Hb.
    pose proof (N.mod_upper_bound n 256 ltac:(discriminate)). lia.
Qed.

Lemma be_bytes_length (len : nat) (n : N) : length (be_bytes len n) = len.
Proof.
  revert n. induction len as [|len IH]; intros n; simpl; [reflexivity|].
  rewrite length_app, IH. simpl. lia.
Qed.

Lemma be_value_snoc (bs : list byte) (b : byte) :
  be_value (bs ++ [b]) = be_value bs * 256 + Byte.to_N b.
Proof. unfold be_value. rewrite fold_left_app. reflexivity. Qed.

Lemma be_value_be_bytes (len : nat) (n : N) :
  be_value (be_bytes len n) = n mod 256 ^ N.of_nat len.
Proof.
  revert n. induction len as [|len IH]; intros n.
  - simpl. rewrite N.mod_1_r. reflexivity.
  - cbn [be_bytes]. rewrite be_value_snoc, IH, byte_of_N_value.
    rewrite Nat2N.inj_succ, N.pow_succ_r', N.Div0.mod_mul_r. lia.
Qed.

Lemma readU256_writeU256 (n : u256) :
  readU256 (writeU256 n) = Ok (n mod 2 ^ 256).
Proof.
  unfold readU256, writeU256. rewrite be_bytes_length. simpl Nat.leb. cbv iota.
  rewrite firstn_all2 by (rewrite be_bytes_length; reflexivity).
  rewrite be_value_be_bytes. reflexivity.
Qed.

Lemma readU256_writeU256_small (n : u256) :
  n <= U256_MAX -> readU256 (writeU256 n) = Ok n.
Proof.
  intros Hn. rewrite readU256_writeU256. f_equal. apply N.mod_small.
  unfold U256_MAX in Hn. lia.
Qed.

(** ** Sums of balances *)

Lemma sum_of_insert_fresh (m : gmap N N) (k v : N) :
  m !! k = None -> MockStash.sum_of (<[k:=v]> m) = v + MockStash.sum_of m.
Proof.
  intros Hk. unfold MockStash.sum_of.
  apply (map_fold_insert_L (fun _ v acc => v + acc)); [|assumption].
  intros. lia.
Qed.

Lemma sum_of_set (m : gmap N N) (k v : N) :
  MockStash.sum_of (map_set m k v) + map_get m k = MockStash.sum_of m + v.
Proof.
  unfold map_set, map_get. destruct (m !! k) as [old|] eqn:Hk; simpl.
  - rewrite <- (insert_delete_id m k old Hk) at 2.
    rewrite <- insert_delete_eq.
    rewrite !sum_of_insert_fresh by apply lookup_delete_eq. lia.
  - rewrite sum_of_insert_fresh by assumption. lia.
Qed.

Lemma sum_of_bound (m : gmap N N) (k : N) : map_get m k <= MockStash.sum_of m.
Proof.
  unfold map_get. destruct (m !! k) as [old|] eqn:Hk; simpl; [|apply N.le_0_l].
  rewrite <- (insert_delete_id m k old Hk).
  rewrite sum_of_insert_fresh by apply lookup_delete_eq. lia.
Qed.

(** ** The pool's checks, views and administration *)

Section StashChecks.
Context {World : Type}.
Variable extcall : World -> MockStash.Store -> ExtCall
                   -> option (list byte * World * MockStash.Books).
Variables this deployer : Address.

Lemma stash_view_quiet sender m st w :
  is_view m = true ->
  MockStash.events (MockStash.callMethod extcall this deployer sender m st w) = [] /\
  MockStash.store_of (MockStash.callMethod extcall this deployer sender m st w) = st /\
  MockStash.world_of (MockStash.callMethod extcall this deployer sender m st w) = w.
Proof.
  intros Hm. destruct m; try discriminate Hm; stash_all; repeat split; reflexivity.
Qed.

Lemma stash_unsupported_token sender m t a st w :
  action_of m = Some (t, a) -> t <> MockStash.token st ->
  MockStash.callMethod extcall this deployer sender m st w
    = MockStash.mkRun [] w st (Err (Revert "Unsupported token")).
Proof.
  intros Hm Ht. apply N.eqb_neq in Ht.
  destruct m; try discriminate Hm; injection Hm as -> ->;
    stash_helpers; repeat stash_rewrite; rewrite Ht; simpl negb; cbv iota;
    repeat stash_rewrite; reflexivity.
Qed.

Lemma stash_zero_amount sender m st w :
  action_of m = Some (MockStash.token st, 0) ->
  MockStash.callMethod extcall this deployer sender m st w
    = MockStash.mkRun [] w st (Err (Revert "Amount must be > 0")).
Proof.
  intros Hm. pose proof (N.eqb_refl (MockStash.token st)) as Ht.
  destruct m; try discriminate Hm; injection Hm as -> ->;
    stash_helpers; repeat stash_rewrite; rewrite Ht; simpl negb; cbv iota;
    repeat stash_rewrite; reflexivity.
Qed.

Lemma stash_setToken_run sender a st w :
  MockStash.setToken (World:=World) deployer sender a st w =
    if sender =? deployer
    then if a =? zero_address
         then MockStash.mkRun [] w st (Err (Revert "Token cannot be zero address"))
         else MockStash.mkRun [] w (MockStash.set_token a st) (Ok (writeBoolean true))
    else MockStash.mkRun [] w st (Err OnlyDeployer).
Proof. stash_all; reflexivity. Qed.

Lemma stash_onDeployment_run t st w :
  MockStash.onDeployment (World:=World) t st w =
    if t =? zero_address
    then MockStash.mkRun [] w st (Err (Revert "Token cannot be zero address"))
    else MockStash.mkRun [] w (MockStash.set_token t st) (Ok tt).
Proof. stash_all; reflexivity. Qed.

End StashChecks.

Lemma stash_transact_store {World A} (m : MockStash.Act World A) st w :
  fst (fst (MockStash.transact m st w)) =
  if is_ok (MockStash.result (m st w)) then MockStash.store_of (m st w) else st.
Proof. unfold MockStash.transact. destruct (MockStash.result (m st w)); reflexivity. Qed.

(** ** What holds of every reachable storage of the pool *)

Lemma books_fit_set_deposit (st : MockStash.Store) (user : Address) (v total : u256) :
  MockStash.books_fit (MockStash.books_of st) -> v <= U256_MAX -> total <= U256_MAX ->
  MockStash.books_fit
    (MockStash.books_of
       (MockStash.set_totalDeposits total (MockStash.set_userDeposit user v st))).
Proof.
  intros (F1 & F2 & F3) Hv Ht. split; [exact Ht|]. split; [exact F2|].
  intros u. destruct (F3 u) as [Fd Fb]. stash_simpl. split; [|exact Fb].
  rewrite map_get_set. destruct (u =? user); assumption.
Qed.

Lemma books_fit_set_borrow (st : MockStash.Store) (user : Address) (v total : u256) :
  MockStash.books_fit (MockStash.books_of st) -> v <= U256_MAX -> total <= U256_MAX ->
  MockStash.books_fit
    (MockStash.books_of
       (MockStash.set_totalBorrows total (MockStash.set_userBorrow user v st))).
Proof.
  intros (F1 & F2 & F3) Hv Ht. split; [exact F1|]. split; [exact Ht|].
  intros u. destruct (F3 u) as [Fd Fb]. stash_simpl. split; [exact Fd|].
  rewrite map_get_set. destruct (u =? user); assumption.
Qed.

Lemma left_by_fits {World}
    (extcall : World -> MockStash.Store -> ExtCall
               -> option (list byte * World * MockStash.Books)) w st c :
  MockStash.fitting extcall ->
  MockStash.books_fit (MockStash.books_of st) ->
  MockStash.books_fit (MockStash.books_of (MockStash.left_by extcall w st c)).
Proof.
  intros Hfit Hst. unfold MockStash.left_by.
  destruct (extcall w st c) as [[[data w'] books]|] eqn:Hc; [|exact Hst].
  specialize (Hfit _ _ _ _ _ _ Hc Hst). destruct books. exact Hfit.
Qed.

Lemma quiet_fitting {World}
    (extcall : World -> MockStash.Store -> ExtCall
               -> option (list byte * World * MockStash.Books)) :
  MockStash.quiet extcall -> MockStash.fitting extcall.
Proof.
  intros Hq w st c data w' books Hc Hst. rewrite (Hq _ _ _ _ _ _ Hc). exact Hst.
Qed.

Lemma quietly_quiet {World} (answer : World -> ExtCall -> option (list byte * World)) :
  MockStash.quiet (MockStash.quietly answer).
Proof.
  intros w st c data w' books. unfold MockStash.quietly.
  destruct (answer w c) as [[d v]|]; intros X; [|discriminate X].
  injection X as _ _ <-. reflexivity.
Qed.

Lemma reachable_quietly_reachable (this deployer : Address) (st : MockStash.Store) :
  MockStash.reachable_quietly this deployer st -> MockStash.reachable this deployer st.
Proof.
  induction 1 as [t Ht | World extcall st w sender m Hreach IH Hquiet].
  - apply MockStash.pool_deployed. assumption.
  - apply MockStash.pool_transact; [assumption | apply quiet_fitting; assumption].
Qed.

Lemma stash_reachable_fits (this deployer : Address) (st : MockStash.Store) :
  MockStash.reachable this deployer st -> stash_fits st.
Proof.
  induction 1 as [t Ht | World extcall st w sender m Hreach IH Hfit].
  - split; [assumption|]. split; [|split]; simpl; try apply N.le_0_l.
    intros user. split; apply N.le_0_l.
  - rewrite stash_transact_store.
    destruct (is_ok (MockStash.result
                (MockStash.callMethod extcall this deployer sender m st w))) eqn:Hok;
      [|assumption].
    destruct IH as [I1 I2].
    destruct m as [t a|t a|t a|t a|u|u|u|u|t].
    5-8: match goal with |- context [MockStash.callMethod _ _ _ _ ?m _ _] =>
           destruct (stash_view_quiet extcall this deployer sender m st w eq_refl)
             as (_ & -> & _) end; split; assumption.
    5: { simpl MockStash.callMethod in *. rewrite stash_setToken_run in *.
         destruct (sender =? deployer); [|discriminate Hok].
         destruct (N.eqb_spec t zero_address); [discriminate Hok|].
         split; [assumption|]. destruct st. exact I2. }
    all: simpl MockStash.callMethod in *.
    + destruct (stash_deposit_success _ _ _ _ _ _ _ Hok) as (-> & Ha & B1 & B2 & -> & _).
      split; [stash_simpl; unfold MockStash.pulled; rewrite left_by_token; assumption|].
      apply books_fit_set_deposit; try assumption.
      apply left_by_fits; assumption.
    + destruct (stash_borrow_success _ _ _ _ _ _ Hok) as (-> & Ha & B0 & B1 & B2 & -> & _).
      split; [unfold MockStash.sent; rewrite left_by_token; assumption|].
      apply left_by_fits; [assumption|].
      apply books_fit_set_borrow; assumption.
    + destruct (stash_repay_success _ _ _ _ _ _ _ Hok) as (-> & Ha & B1 & B2 & -> & _).
      split; [stash_simpl; unfold MockStash.pulled; rewrite left_by_token; assumption|].
      pose proof (left_by_fits extcall w st
                    (mkCall (MockStash.token st) (TransferFrom sender this a)) Hfit I2)
        as Hleft.
      destruct I2 as (_ & _ & I3). destruct (I3 sender) as [_ Hb]. simpl in Hb.
      apply books_fit_set_borrow; [exact Hleft | lia |].
      destruct Hleft as (_ & Htb & _). unfold MockStash.pulled. simpl in Htb. lia.
    + destruct (stash_withdraw_success _ _ _ _ _ _ Hok) as (-> & Ha & B1 & B2 & B3 & -> & _).
      split; [unfold MockStash.sent; rewrite left_by_token; assumption|].
      apply left_by_fits; [assumption|].
      destruct I2 as (I2a & I2b & I3). destruct (I3 sender) as [Hd _].
      simpl in I2a, Hd.
      apply books_fit_set_deposit; [split; [|split]; assumption | lia | lia].
Qed.

Lemma stash_quiet_well_formed (this deployer : Address) (st : MockStash.Store) :
  MockStash.reachable_quietly this deployer st -> stash_well_formed st.
Proof.
  induction 1 as [t Ht | World extcall st w sender m Hreach IH Hquiet].
  - split; simpl; try assumption; try reflexivity; try (intros; apply N.le_0_l).
    all: unfold U256_MAX; lia.
  - rewrite stash_transact_store.
    destruct (is_ok (MockStash.result
                (MockStash.callMethod extcall this deployer sender m st w))) eqn:Hok;
      [|assumption].
    destruct IH as [I1 I2 I3 I4 I5 I6].
    destruct m as [t a|t a|t a|t a|u|u|u|u|t].
    5-8: match goal with |- context [MockStash.callMethod _ _ _ _ ?m _ _] =>
           destruct (stash_view_quiet extcall this deployer sender m st w eq_refl)
             as (_ & -> & _) end; split; assumption.
    5: { simpl MockStash.callMethod in *. rewrite stash_setToken_run in *.
         destruct (sender =? deployer); [|discriminate Hok].
         destruct (N.eqb_spec t zero_address); [discriminate Hok|].
         split; simpl; assumption. }
    all: simpl MockStash.callMethod in *.
    + destruct (stash_deposit_success _ _ _ _ _ _ _ Hok) as (-> & Ha & B1 & B2 & -> & _).
      rewrite (pulled_quiet extcall this w st sender a Hquiet) in *.
      pose proof (sum_of_set (MockStash.userDeposits st) sender
                    (map_get (MockStash.userDeposits st) sender + a)) as Hsum.
      split; stash_simpl; try assumption; try lia.
      intros user. rewrite map_get_set. specialize (I2 user).
      destruct (N.eqb_spec user sender) as [->|]; lia.
    + destruct (stash_borrow_success _ _ _ _ _ _ Hok) as (-> & Ha & B0 & B1 & B2 & -> & _).
      rewrite (sent_quiet extcall w _ sender a Hquiet).
      pose proof (sum_of_set (MockStash.userBorrows st) sender
                    (map_get (MockStash.userBorrows st) sender + a)) as Hsum.
      split; stash_simpl; try assumption; try lia.
      intros user. rewrite map_get_set. specialize (I2 user).
      destruct (N.eqb_spec user sender) as [->|]; [|lia].
      pose proof (N.Div0.mul_div_le (map_get (MockStash.userDeposits st) sender * 66) 100).
      lia.
    + destruct (stash_repay_success _ _ _ _ _ _ _ Hok) as (-> & Ha & B1 & B2 & -> & _).
      rewrite (pulled_quiet extcall this w st sender a Hquiet) in *.
      pose proof (sum_of_set (MockStash.userBorrows st) sender
                    (map_get (MockStash.userBorrows st) sender - a)) as Hsum.
      split; stash_simpl; try assumption; try lia.
      intros user. rewrite map_get_set. specialize (I2 user).
      destruct (N.eqb_spec user sender) as [->|]; lia.
    + destruct (stash_withdraw_success _ _ _ _ _ _ Hok) as (-> & Ha & B1 & B2 & B3 & -> & _).
      rewrite (sent_quiet extcall w _ sender a Hquiet).
      pose proof (sum_of_set (MockStash.userDeposits st) sender
                    (map_get (MockStash.userDeposits st) sender - a)) as Hsum.
      split; stash_simpl; try assumption; try lia.
      intros user. rewrite map_get_set. specialize (I2 user).
      destruct (N.eqb_spec user sender) as [->|]; lia.
Qed.

(** ** The limits the pool enforces *)

Ltac arith_errs :=
  repeat match goal with
  | H : SafeMath.add ?a ?b = Err _ |- _ =>
      unfold SafeMath.add in H; destruct (N.leb_spec (a + b) U256_MAX); [discriminate H|clear H]
  | H : SafeMath.sub ?a ?b = Err _ |- _ =>
      unfold SafeMath.sub in H; destruct (N.leb_spec b a); [discriminate H|clear H]
  | H : SafeMath.mul ?a ?b = Err _ |- _ =>
      unfold SafeMath.mul in H; destruct (N.leb_spec (a * b) U256_MAX); [discriminate H|clear H]
  | H : SafeMath.div ?a ?b = Err _ |- _ =>
      unfold SafeMath.div in H; destruct (N.eqb_spec b 0); [clear H|discriminate H]
  | H : negb (?a =? ?a) = true |- _ => rewrite N.eqb_refl in H; discriminate H
  | H : negb _ = false |- _ => apply negb_false_iff in H
  | H : negb _ = true |- _ => apply negb_true_iff in H
  end.

Ltac stash_facts :=
  stash_simpl; arith_errs; arith_facts;
  unfold MockStash.LTV_PERCENT, MockStash.LIQ_THRESHOLD_PERCENT, MockStash.HUNDRED in *.

Section StashLimits.
Context {World : Type}.
Variable extcall : World -> MockStash.Store -> ExtCall
                   -> option (list byte * World * MockStash.Books).
Variables this deployer : Address.

Lemma stash_borrow_over_capacity sender a st w :
  a <> 0 -> map_get (MockStash.userDeposits st) sender * 66 <= U256_MAX ->
  map_get (MockStash.userDeposits st) sender * 66 / 100
    < map_get (MockStash.userBorrows st) sender + a ->
  MockStash.borrow extcall sender (MockStash.token st) a st w
    = MockStash.mkRun [] w st (Err (Revert "Exceeds borrowing capacity")).
Proof.
  intros Ha Hfit Hover.
  stash_all; stash_facts; subst; try reflexivity; exfalso; lia.
Qed.

Lemma stash_repay_over_debt sender a st w :
  map_get (MockStash.userBorrows st) sender < a ->
  MockStash.repay extcall this sender (MockStash.token st) a st w
    = MockStash.mkRun [] w st (Err (Revert "Repay exceeds debt")).
Proof.
  intros Hover.
  stash_all; stash_facts; subst; try reflexivity; exfalso; lia.
Qed.

Lemma stash_withdraw_over_deposit sender a st w :
  map_get (MockStash.userDeposits st) sender < a ->
  MockStash.withdraw extcall sender (MockStash.token st) a st w
    = MockStash.mkRun [] w st (Err (Revert "Withdraw exceeds deposits")).
Proof.
  intros Hover.
  stash_all; stash_facts; subst; try reflexivity; exfalso; lia.
Qed.

Lemma stash_withdraw_unhealthy sender t a st w :
  map_get (MockStash.userBorrows st) sender <> 0 ->
  80 * (map_get (MockStash.userDeposits st) sender - a)
    < 100 * map_get (MockStash.userBorrows st) sender ->
  is_ok (MockStash.result (MockStash.withdraw extcall sender t a st w)) = false /\
  MockStash.events (MockStash.withdraw extcall sender t a st w) = [] /\
  MockStash.store_of (MockStash.withdraw extcall sender t a st w) = st /\
  MockStash.world_of (MockStash.withdraw extcall sender t a st w) = w /\
  ((t = MockStash.token st /\ a <> 0 /\ a <= map_get (MockStash.userDeposits st) sender /\
    (map_get (MockStash.userDeposits st) sender - a) * 80 * MockStash.E18 <= U256_MAX) ->
   MockStash.result (MockStash.withdraw extcall sender t a st w)
     = Err (Revert "Withdrawal would make position unhealthy")).
Proof.
  intros Hd Hlow.
  stash_all; stash_facts; subst.
  all: try match goal with
       | Hz : ?d <> 0, H : MockStash.E18 <= _ / 100 / ?d |- _ =>
           apply (proj1 (health_ratio _ d 10 Hz)) in H; exfalso; lia
       end.
  all: try (exfalso; lia).
  all: repeat split; try reflexivity.
  all: intros (Ht & Ha & Hle & Hfit); try reflexivity; exfalso.
  all: try congruence; try lia.
  unfold MockStash.E18 in Hfit. lia.
Qed.

End StashLimits.

(** ** Borrows follow a quote, repayments follow a withdrawal *)

Lemma each_after_app (ok : option Event -> Event -> bool) (prev : option Event)
    (t1 t2 : list Event) :
  each_after ok prev (t1 ++ t2)
    = each_after ok prev t1 && each_after ok (last_or prev t1) t2.
Proof.
  revert prev. induction t1 as [|e t1 IH]; intros prev; simpl; [reflexivity|].
  rewrite IH, andb_assoc. reflexivity.
Qed.

Section LogOrder.
Context {World : Type}.
Variable extcall : World -> ExtCall -> option (list byte * World).
Variable this : Address.

Lemma leverageLoop_quoted n target td tb cur st w prev :
  each_after quoted prev (events (leverageLoop extcall this n target td tb cur st w)) = true.
Proof.
  revert td tb cur st w prev. induction n as [|n IH]; intros; simpl leverageLoop.
  - reflexivity.
  - run_all; cbn [events after app each_after quoted calldata ev_call andb].
    all: try reflexivity.
    all: unfold observed; cbn [ev_ret];
         repeat match goal with H : readU256 _ = _ |- _ => rewrite H end.
    all: rewrite ?select_min; try rewrite IH; cbn [andb]; try reflexivity.
    all: rewrite andb_true_r; apply N.leb_le; lia.
Qed.

Lemma unwindLoop_funded n d c st w prev :
  each_after funded prev (events (unwindLoop extcall n d c st w)) = true.
Proof.
  revert d c st w prev. induction n as [|n IH]; intros; simpl unwindLoop.
  - reflexivity.
  - rewrite withdrawAmount_spec.
    run_all; cbn [events after app each_after funded calldata ev_call ev_ret andb].
    all: try reflexivity.
    all: rewrite ?select_min; try rewrite IH; cbn [andb]; try reflexivity.
    all: rewrite ?andb_true_r; apply N.leb_le; lia.
Qed.

Lemma open_borrows_quoted sender amount lev st w :
  borrows_quoted (events (openPosition extcall this sender amount lev st w)) = true.
Proof.
  unfold borrows_quoted, openPosition. run_steps.
  all: try (run_end; reflexivity).
  all: run_loop r Hr.
  all: match type of Hr with _ = leverageLoop _ _ ?n ?t ?a ?b ?c ?s ?v =>
         pose proof (fun prev => leverageLoop_quoted n t a b c s v prev) as Hq;
         rewrite <- Hr in Hq; cbn [events] in Hq end.
  all: run_all; cbn [events after app each_after quoted calldata ev_call andb].
  all: rewrite ?each_after_app, ?Hq; reflexivity.
Qed.

Lemma close_repays_funded sender st w :
  repays_funded (events (closePosition extcall this sender st w)) = true.
Proof.
  unfold repays_funded, closePosition. run_steps.
  all: try (run_end; reflexivity).
  all: run_loop r Hr.
  all: match type of Hr with _ = unwindLoop _ ?n ?a ?b ?s ?v =>
         pose proof (fun prev => unwindLoop_funded n a b s v prev) as Hq;
         rewrite <- Hr in Hq; cbn [events] in Hq end.
  all: run_all; cbn [events after app each_after funded calldata ev_call andb].
  all: rewrite ?each_after_app, ?Hq; reflexivity.
Qed.

End LogOrder.


(** * Further properties of the executor *)


Section Further.
Context {World : Type}.
Variable extcall : World -> ExtCall -> option (list byte * World).
Variables this deployer : Address.



Lemma admin_keeps_fees sender m st w :
  is_admin m = true ->
  totalFeesCollected (store_of (callMethod extcall this deployer sender m st w))
    = totalFeesCollected st.
Proof.
  intros Hm. destruct (N.eq_dec sender deployer) as [->|Hne].
  - rewrite admin_deployer by assumption.
    destruct m; try discriminate Hm;
      repeat match goal with |- context [?a =? zero_address] =>
        destruct (a =? zero_address) end; reflexivity.
  - rewrite admin_stranger by assumption. reflexivity.
Qed.

(** X1.  Deployment.  [onDeployment] makes no external call; it succeeds
    exactly when the treasury, stash and moto addresses are all non-zero, and
    then stores the three and nothing else, so that a blank storage becomes
    [deployed treasury stash moto]; otherwise it stores nothing and fails
    with the message that names the first zero address. *)
Theorem deployment_validates_addresses (t s m : Address) (st : Storage) (w : World) :
  events (onDeployment t s m st w) = [] /\
  (is_ok (result (onDeployment t s m st w)) = true
     <-> t <> zero_address /\ s <> zero_address /\ m <> zero_address) /\
  (is_ok (result (onDeployment t s m st w)) = true ->
     store_of (onDeployment t s m st w) = set_moto m (set_stash s (set_treasury t st)) /\
     store_of (onDeployment (World:=World) t s m blank w) = deployed t s m) /\
  (is_ok (result (onDeployment t s m st w)) = false ->
     store_of (onDeployment t s m st w) = st /\
     result (onDeployment t s m st w)
       = Err (Revert ((if t =? zero_address then "treasury"
                       else if s =? zero_address then "stash" else "moto")
                      ++ " cannot be zero address"))).
Proof.
  rewrite !onDeployment_run.
  destruct (N.eqb_spec t zero_address) as [Ht|Ht];
    [|destruct (N.eqb_spec s zero_address) as [Hs|Hs];
      [|destruct (N.eqb_spec m zero_address) as [Hm|Hm]]]; simpl.
  all: split; [reflexivity|]; split; [split|split].
  all: try (intros X; discriminate X).
  all: try (intros (? & ? & ?); congruence).
  all: try (intros _; split; reflexivity).
  intros _. repeat split; assumption.
Qed.

(** X2.  Only the deployer administers.  A call of pause, unpause,
    setTreasury, setStash or setMoto by anyone but the deployer fails with
    "Only deployer can call this method", makes no external call and leaves
    the storage as it was, whatever the argument. *)
Theorem admin_requires_deployer (sender : Address) (m : Method) (st : Storage) (w : World) :
  is_admin m = true -> sender <> deployer ->
  callMethod extcall this deployer sender m st w = mkRun [] w st (Err OnlyDeployer).
Proof. apply admin_stranger. Qed.

(** X3.  The deployer's settings.  Called by the deployer, pause and unpause
    set the paused flag and nothing else; setTreasury, setStash and setMoto
    fail on the zero address with the message naming the slot and change
    nothing, and otherwise write that one slot.  None of them makes an
    external call, consults the lock or the paused flag, or touches a
    position or the fee total. *)
Theorem deployer_settings (m : Method) (st : Storage) (w : World) :
  is_admin m = true ->
  callMethod extcall this deployer deployer m st w =
    match m with
    | Pause => mkRun [] w (set_paused true st) (Ok true)
    | Unpause => mkRun [] w (set_paused false st) (Ok true)
    | SetTreasury a =>
        if a =? zero_address
        then mkRun [] w st (Err (Revert "treasury cannot be zero address"))
        else mkRun [] w (set_treasury a st) (Ok true)
    | SetStash a =>
        if a =? zero_address
        then mkRun [] w st (Err (Revert "stash cannot be zero address"))
        else mkRun [] w (set_stash a st) (Ok true)
    | SetMoto a =>
        if a =? zero_address
        then mkRun [] w st (Err (Revert "moto cannot be zero address"))
        else mkRun [] w (set_moto a st) (Ok true)
    | _ => mkRun [] w st (Ok true)
    end.
Proof. apply admin_deployer. Qed.

(** X4.  Configuration belongs to the deployer.  Whatever method anyone
    other than the deployer calls, with whatever arguments and against
    whatever token and pool, the transaction leaves the paused flag and the
    treasury, stash and moto addresses as they were. *)
Theorem configuration_only_by_deployer (sender : Address) (m : Method)
    (st : Storage) (w : World) :
  sender <> deployer ->
  paused (fst (fst (transact (callMethod extcall this deployer sender m) st w))) = paused st /\
  treasury (fst (fst (transact (callMethod extcall this deployer sender m) st w)))
    = treasury st /\
  stash (fst (fst (transact (callMethod extcall this deployer sender m) st w))) = stash st /\
  moto (fst (fst (transact (callMethod extcall this deployer sender m) st w))) = moto st.
Proof.
  intros Hs. rewrite transact_store.
  destruct (is_ok (result (callMethod extcall this deployer sender m st w))) eqn:Hok;
    [|repeat split; reflexivity].
  destruct m as [amount lev| | | | | |].
  1: { simpl callMethod in *.
       destruct (open_success_facts extcall this sender amount lev st w Hok)
         as ((Hp & _) & (_ & F2 & F3 & F4 & F5 & _) & _).
       repeat split; congruence. }
  1: { simpl callMethod in *.
       destruct (close_success_facts extcall this sender st w _ eq_refl Hok)
         as (_ & (_ & F2 & F3 & F4 & F5 & _) & _).
       repeat split; assumption. }
  all: rewrite admin_stranger in Hok by (reflexivity || assumption); discriminate Hok.
Qed.


(** X6.  The fee total.  Over any transaction the total of collected fees
    grows by exactly the fee of that transaction: the entry fee
    ceil(amount * 50 / 10000) of a successful open, the exit fee
    ceil(netProceeds * 50 / 10000) of a successful close (net proceeds from
    the stored deposit and debt of the caller), and nothing for a failed call
    or an administrative one.  It never decreases. *)
Theorem fees_accumulate (sender : Address) (m : Method) (st : Storage) (w : World) :
  totalFeesCollected (fst (fst (transact (callMethod extcall this deployer sender m) st w)))
    = totalFeesCollected st +
      (if is_ok (result (callMethod extcall this deployer sender m st w))
       then match m with
            | OpenPosition amount _ => ceilFee amount 50
            | ClosePosition =>
                ceilFee (if map_get (userDebts st) sender <? map_get (userDeposits st) sender
                         then map_get (userDeposits st) sender - map_get (userDebts st) sender
                         else 0) 50
            | _ => 0
            end
       else 0).
Proof.
  rewrite transact_store.
  destruct (is_ok (result (callMethod extcall this deployer sender m st w))) eqn:Hok;
    [|rewrite N.add_0_r; reflexivity].
  destruct m as [amount lev| | | | | |].
  1: { simpl callMethod in *.
       destruct (open_success_facts extcall this sender amount lev st w Hok)
         as (_ & (_ & _ & _ & _ & _ & F6 & _) & _).
       assumption. }
  1: { simpl callMethod in *.
       destruct (close_success_facts extcall this sender st w _ eq_refl Hok)
         as (_ & (_ & _ & _ & _ & _ & F6) & _).
       assumption. }
  all: rewrite admin_keeps_fees by reflexivity; rewrite N.add_0_r; reflexivity.
Qed.



(** X8.  Token flows of an open.  A successful openPosition pulls exactly
    [amount] from the caller to the contract, once; makes exactly one token
    transfer, the entry fee ceil(amount * 50 / 10000) to the treasury, which
    is more than zero and less than the amount; and raises the pool's
    allowance to the maximum once and never lowers it, so the allowance
    stays granted after the open. *)
Theorem open_token_flows (sender : Address) (amount lev : u256) (st : Storage) (w : World) :
  is_ok (result (openPosition extcall this sender amount lev st w)) = true ->
  pulls (events (openPosition extcall this sender amount lev st w))
    = [(sender, this, amount)] /\
  transfers (events (openPosition extcall this sender amount lev st w))
    = [(treasury st, ceilFee amount 50)] /\
  0 < ceilFee amount 50 < amount /\
  allowance_calls (events (openPosition extcall this sender amount lev st w))
    = [(true, stash st, U256_MAX)].
Proof.
  intros Hok.
  destruct (open_success_facts extcall this sender amount lev st w Hok)
    as ((_ & _ & Hmin & _) & _ & (T1 & T2 & T3) & _).
  unfold MIN_DEPOSIT in Hmin.
  pose proof (ceilFee_positive amount ltac:(lia)).
  pose proof (ceilFee_lt amount ltac:(lia)).
  repeat split; assumption.
Qed.

(** X9.  Books of an open.  After a successful openPosition the debt stored
    for the caller is the sum of the amounts the run borrowed from the pool;
    the stored deposit is at least the net deposit (amount less entry fee)
    and at most net deposit plus debt; and net deposit plus debt does not
    exceed the target netDeposit * leverage / 1e18. *)
Theorem open_books_match_borrowing (sender : Address) (amount lev : u256)
    (st : Storage) (w : World) :
  is_ok (result (openPosition extcall this sender amount lev st w)) = true ->
  map_get (userDebts (store_of (openPosition extcall this sender amount lev st w))) sender
    = borrowed (events (openPosition extcall this sender amount lev st w)) /\
  amount - ceilFee amount 50
    <= map_get (userDeposits (store_of (openPosition extcall this sender amount lev st w))) sender /\
  map_get (userDeposits (store_of (openPosition extcall this sender amount lev st w))) sender
    <= map_get (userDebts (store_of (openPosition extcall this sender amount lev st w))) sender
       + (amount - ceilFee amount 50) /\
  map_get (userDebts (store_of (openPosition extcall this sender amount lev st w))) sender
    + (amount - ceilFee amount 50) <= (amount - ceilFee amount 50) * lev / E18.
Proof.
  intros Hok.
  destruct (open_success_facts extcall this sender amount lev st w Hok)
    as (_ & _ & _ & (B1 & B2 & B3 & B4)).
  repeat split; assumption.
Qed.

(** X10.  Leverage 1.0 borrows nothing.  A successful openPosition at
    targetLeverageE18 = 1e18 makes no borrow; it stores a debt of zero and a
    deposit equal to the amount less the entry fee. *)
Theorem open_at_one_borrows_nothing (sender : Address) (amount : u256)
    (st : Storage) (w : World) :
  is_ok (result (openPosition extcall this sender amount E18 st w)) = true ->
  borrowed (events (openPosition extcall this sender amount E18 st w)) = 0 /\
  map_get (userDebts (store_of (openPosition extcall this sender amount E18 st w))) sender = 0 /\
  map_get (userDeposits (store_of (openPosition extcall this sender amount E18 st w))) sender
    = amount - ceilFee amount 50.
Proof.
  intros Hok.
  destruct (open_success_facts extcall this sender amount E18 st w Hok)
    as (_ & _ & _ & (B1 & B2 & B3 & B4)).
  assert ((amount - ceilFee amount 50) * E18 / E18 = amount - ceilFee amount 50) as Hd
    by (apply N.div_mul; discriminate).
  rewrite Hd in B3. rewrite <- B1. lia.
Qed.

(** X11.  What a close settles.  A successful closePosition releases the
    lock; leaves the paused flag and the treasury, stash and moto addresses
    as they were; pulls no tokens from anyone; and raises the pool's
    allowance to the maximum and lowers it by the same amount afterwards, in
    that order and once each. *)
Theorem close_settles (sender : Address) (st : Storage) (w : World) :
  is_ok (result (closePosition extcall this sender st w)) = true ->
  locked (store_of (closePosition extcall this sender st w)) = false /\
  paused (store_of (closePosition extcall this sender st w)) = paused st /\
  treasury (store_of (closePosition extcall this sender st w)) = treasury st /\
  stash (store_of (closePosition extcall this sender st w)) = stash st /\
  moto (store_of (closePosition extcall this sender st w)) = moto st /\
  pulls (events (closePosition extcall this sender st w)) = [] /\
  allowance_calls (events (closePosition extcall this sender st w))
    = [(true, stash st, U256_MAX); (false, stash st, U256_MAX)].
Proof.
  intros Hok.
  destruct (close_success_facts extcall this sender st w _ eq_refl Hok)
    as (_ & (F1 & F2 & F3 & F4 & F5 & _) & (T1 & T2)).
  repeat split; assumption.
Qed.

(** X12.  Collateral and debt of a close.  In every run of closePosition,
    failed or not, the amounts withdrawn from the pool add up to at most the
    collateral the pool reported at the start, and the amounts repaid to at
    most the debt it reported; a run that stops before those reports
    withdraws and repays nothing.  A successful close withdraws exactly the
    reported collateral. *)
Theorem close_withdraws_reported_collateral (sender : Address) (st : Storage) (w : World) :
  (collateral_read (events (closePosition extcall this sender st w)) = None ->
   withdrawn (events (closePosition extcall this sender st w)) = 0) /\
  (forall c, collateral_read (events (closePosition extcall this sender st w)) = Some c ->
     withdrawn (events (closePosition extcall this sender st w)) <= c /\
     (is_ok (result (closePosition extcall this sender st w)) = true ->
      withdrawn (events (closePosition extcall this sender st w)) = c)) /\
  (debt_read (events (closePosition extcall this sender st w)) = None ->
   repaid (events (closePosition extcall this sender st w)) = 0) /\
  (forall d, debt_read (events (closePosition extcall this sender st w)) = Some d ->
     repaid (events (closePosition extcall this sender st w)) <= d).
Proof. apply close_conservation. Qed.

(** X13.  Entry checks of a close.  closePosition checks, in this order and
    before any external call: the lock ("Reentrant call", storage untouched),
    the caller's stored deposit ("No open position") and the active user
    ("Not position owner").  The paused flag plays no part. *)
Theorem close_entry_checks (sender : Address) (st : Storage) (w : World) :
  (locked st = true ->
   closePosition extcall this sender st w = mkRun [] w st (Err Reentrant)) /\
  (locked st = false -> map_get (userDeposits st) sender = 0 ->
   closePosition extcall this sender st w
     = mkRun [] w (set_locked true st) (Err NoOpenPosition)) /\
  (locked st = false -> map_get (userDeposits st) sender <> 0 ->
   activeUser st <> sender ->
   closePosition extcall this sender st w
     = mkRun [] w (set_locked true st) (Err NotPositionOwner)).
Proof.
  split; [|split].
  - apply close_when_locked.
  - apply close_without_position.
  - apply close_by_stranger.
Qed.


(** X15.  Borrows follow the pool's quote.  In every run of openPosition,
    failed or not, each borrow call comes directly after a maxBorrowable
    query, and the amount borrowed is at most what that query returned: the
    executor never asks the pool for more than the pool has just said it
    would lend. *)
Theorem open_borrows_within_quote (sender : Address) (amount lev : u256)
    (st : Storage) (w : World) :
  borrows_quoted (events (openPosition extcall this sender amount lev st w)) = true.
Proof. apply open_borrows_quoted. Qed.

(** X16.  Repayments follow a withdrawal.  In every run of closePosition,
    failed or not, each repay call comes directly after a withdraw call the
    pool answered, and repays at most the amount that withdrawal took out:
    the unwind repays only from what it has just withdrawn. *)
Theorem close_repays_from_withdrawal (sender : Address) (st : Storage) (w : World) :
  repays_funded (events (closePosition extcall this sender st w)) = true.
Proof. apply close_repays_funded. Qed.

End Further.

(** * Properties of the pool mock, and of the executor against it *)

Lemma unwind_leaves_at_most_debt (c d : N) :
  d <> 0 -> c - safe_withdrawal_spec c d <= d.
Proof.
  intros Hd. unfold safe_withdrawal_spec. cbv zeta.
  pose proof (N.Div0.mul_div_le c 2) as H1.
  pose proof (N.mul_succ_div_gt c 2 ltac:(discriminate)) as H2.
  destruct (N.ltb_spec d c); destruct (N.ltb_spec (c / 2) (c - d)); simpl andb; cbv iota; lia.
Qed.

Section StashFurther.
Context {World : Type}.
Variable extcall : World -> MockStash.Store -> ExtCall
                   -> option (list byte * World * MockStash.Books).
Variables this deployer : Address.

Lemma stash_health_run account st w :
  MockStash.calculateHealthFactor (World:=World) account st w =
    MockStash.mkRun [] w st
      (if map_get (MockStash.userBorrows st) account =? 0 then Ok U256_MAX
       else rbind (SafeMath.mul (map_get (MockStash.userDeposits st) account) 80) (fun x =>
            rbind (SafeMath.mul x MockStash.E18) (fun y =>
            rbind (SafeMath.div y 100) (fun n =>
            SafeMath.div n (map_get (MockStash.userBorrows st) account))))).
Proof.
  stash_all; unfold MockStash.LIQ_THRESHOLD_PERCENT, MockStash.HUNDRED in *; cbn [rbind];
    repeat match goal with H : _ = _ |- _ => rewrite H; cbn [rbind] end;
    try reflexivity.
  destruct (SafeMath.div a1 (map_get (MockStash.userBorrows st) account)); reflexivity.
Qed.

Lemma stash_health_value account st w hf :
  map_get (MockStash.userBorrows st) account <> 0 ->
  MockStash.result (MockStash.calculateHealthFactor (World:=World) account st w) = Ok hf ->
  hf = map_get (MockStash.userDeposits st) account * 80 * MockStash.E18 / 100
       / map_get (MockStash.userBorrows st) account.
Proof.
  intros Hd. rewrite stash_health_run. simpl.
  apply N.eqb_neq in Hd. rewrite Hd.
  unfold rbind, SafeMath.mul, SafeMath.div.
  repeat match goal with |- context [if ?c then _ else _] => destruct c end;
    intros X; try discriminate X. injection X as <-. reflexivity.
Qed.

(** X17.  Requests the pool refuses at once.  deposit, borrow, repay and
    withdraw fail with "Unsupported token" when the token is not the
    configured one and, for the configured token, with "Amount must be > 0"
    when the amount is zero, in both cases without calling the token and
    without changing the storage. *)
Theorem stash_rejects_bad_requests (sender : Address) (m : MockStash.Method)
    (t : Address) (a : u256) (st : MockStash.Store) (w : World) :
  action_of m = Some (t, a) ->
  t <> MockStash.token st \/ a = 0 ->
  MockStash.callMethod extcall this deployer sender m st w
    = MockStash.mkRun [] w st
        (Err (Revert (if t =? MockStash.token st then "Amount must be > 0"
                      else "Unsupported token"))).
Proof.
  intros Hm Hbad. destruct (N.eqb_spec t (MockStash.token st)) as [->|Ht].
  - destruct Hbad as [Hbad| ->]; [contradiction|]. apply stash_zero_amount. assumption.
  - apply (stash_unsupported_token _ _ _ _ _ t a); assumption.
Qed.

(** X18.  Limits the pool enforces.  For the configured token: a borrow
    that would take the caller's debt above 66% of their deposits fails with
    "Exceeds borrowing capacity"; a repayment above the caller's debt fails
    with "Repay exceeds debt"; a withdrawal above the caller's deposits fails
    with "Withdraw exceeds deposits"; and a withdrawal that would leave an
    indebted caller with 80% of the remaining deposits below the debt fails,
    with "Withdrawal would make position unhealthy" when the scaled product
    fits 256 bits.  None of these calls the token or changes the storage. *)
Theorem stash_enforces_limits (sender : Address) (a : u256) (st : MockStash.Store)
    (w : World) :
  (a <> 0 -> map_get (MockStash.userDeposits st) sender * 66 <= U256_MAX ->
   map_get (MockStash.userDeposits st) sender * 66 / 100
     < map_get (MockStash.userBorrows st) sender + a ->
   MockStash.borrow extcall sender (MockStash.token st) a st w
     = MockStash.mkRun [] w st (Err (Revert "Exceeds borrowing capacity"))) /\
  (map_get (MockStash.userBorrows st) sender < a ->
   MockStash.repay extcall this sender (MockStash.token st) a st w
     = MockStash.mkRun [] w st (Err (Revert "Repay exceeds debt"))) /\
  (map_get (MockStash.userDeposits st) sender < a ->
   MockStash.withdraw extcall sender (MockStash.token st) a st w
     = MockStash.mkRun [] w st (Err (Revert "Withdraw exceeds deposits"))) /\
  (a <> 0 -> a <= map_get (MockStash.userDeposits st) sender ->
   map_get (MockStash.userBorrows st) sender <> 0 ->
   80 * (map_get (MockStash.userDeposits st) sender - a)
     < 100 * map_get (MockStash.userBorrows st) sender ->
   (map_get (MockStash.userDeposits st) sender - a) * 80 * MockStash.E18 <= U256_MAX ->
   MockStash.withdraw extcall sender (MockStash.token st) a st w
     = MockStash.mkRun [] w st (Err (Revert "Withdrawal would make position unhealthy"))).
Proof.
  split; [|split; [|split]].
  - apply stash_borrow_over_capacity.
  - apply stash_repay_over_debt.
  - apply stash_withdraw_over_deposit.
  - intros Ha Hle Hd Hlow Hfit.
    destruct (stash_withdraw_unhealthy extcall sender (MockStash.token st) a st w Hd Hlow)
      as (_ & Hev & Hst & Hw & Hres).
    specialize (Hres (conj eq_refl (conj Ha (conj Hle Hfit)))).
    destruct (MockStash.withdraw extcall sender (MockStash.token st) a st w)
      as [ev w' st' r].
    simpl in Hev, Hst, Hw, Hres. rewrite Hev, Hst, Hw, Hres. reflexivity.
Qed.

(** X19.  The books follow the tokens.  A successful deposit or repayment
    pulls exactly the amount from the caller into the pool, once, and sends
    nothing; a successful borrow or withdrawal sends exactly the amount to
    the caller, once, and pulls nothing.  The pool has no lock, so the token
    it calls may call back and change the books; what the run leaves is then:
    for a deposit, the books the token left, with the caller's deposit and
    the total raised by the amount; for a repayment, the books the token
    left, with the total lowered by the amount and the caller's debt set to
    the debt read before the token was called less the amount; for a borrow
    or a withdrawal, which write before they call, whatever the token left of
    the books with the caller's debt and the total raised, or the caller's
    deposit and the total lowered, by the amount.  With a token that does not
    call back, the caller's balance and the matching total move by the amount
    and nothing else changes. *)
Theorem stash_books_follow_tokens (sender t : Address) (a : u256)
    (st : MockStash.Store) (w : World) :
  (is_ok (MockStash.result (MockStash.deposit extcall this sender t a st w)) = true ->
   pulls (MockStash.events (MockStash.deposit extcall this sender t a st w))
     = [(sender, this, a)] /\
   transfers (MockStash.events (MockStash.deposit extcall this sender t a st w)) = [] /\
   MockStash.store_of (MockStash.deposit extcall this sender t a st w)
     = MockStash.set_totalDeposits
         (MockStash.totalDeposits (MockStash.pulled extcall this w st sender a) + a)
         (MockStash.set_userDeposit sender
            (map_get (MockStash.userDeposits (MockStash.pulled extcall this w st sender a))
                     sender + a)
            (MockStash.pulled extcall this w st sender a))) /\
  (is_ok (MockStash.result (MockStash.borrow extcall sender t a st w)) = true ->
   pulls (MockStash.events (MockStash.borrow extcall sender t a st w)) = [] /\
   transfers (MockStash.events (MockStash.borrow extcall sender t a st w))
     = [(sender, a)] /\
   MockStash.store_of (MockStash.borrow extcall sender t a st w)
     = MockStash.sent extcall w
         (MockStash.set_totalBorrows (MockStash.totalBorrows st + a)
            (MockStash.set_userBorrow sender
               (map_get (MockStash.userBorrows st) sender + a) st))
         sender a) /\
  (is_ok (MockStash.result (MockStash.repay extcall this sender t a st w)) = true ->
   pulls (MockStash.events (MockStash.repay extcall this sender t a st w))
     = [(sender, this, a)] /\
   transfers (MockStash.events (MockStash.repay extcall this sender t a st w)) = [] /\
   a <= map_get (MockStash.userBorrows st) sender /\
   MockStash.store_of (MockStash.repay extcall this sender t a st w)
     = MockStash.set_totalBorrows
         (MockStash.totalBorrows (MockStash.pulled extcall this w st sender a) - a)
         (MockStash.set_userBorrow sender
            (map_get (MockStash.userBorrows st) sender - a)
            (MockStash.pulled extcall this w st sender a))) /\
  (is_ok (MockStash.result (MockStash.withdraw extcall sender t a st w)) = true ->
   pulls (MockStash.events (MockStash.withdraw extcall sender t a st w)) = [] /\
   transfers (MockStash.events (MockStash.withdraw extcall sender t a st w))
     = [(sender, a)] /\
   a <= map_get (MockStash.userDeposits st) sender /\
   MockStash.store_of (MockStash.withdraw extcall sender t a st w)
     = MockStash.sent extcall w
         (MockStash.set_totalDeposits (MockStash.totalDeposits st - a)
            (MockStash.set_userDeposit sender
               (map_get (MockStash.userDeposits st) sender - a) st))
         sender a) /\
  (MockStash.quiet extcall ->
   forall from to amount s,
     MockStash.pulled extcall this w s from amount = s /\
     MockStash.sent extcall w s to amount = s).
Proof.
  split; [|split; [|split; [|split]]].
  - intros Hok.
    destruct (stash_deposit_success _ _ _ _ _ _ _ Hok) as (_ & _ & _ & _ & ? & ? & ?).
    repeat split; assumption.
  - intros Hok.
    destruct (stash_borrow_success _ _ _ _ _ _ Hok) as (_ & _ & _ & _ & _ & ? & ? & ?).
    repeat split; assumption.
  - intros Hok.
    destruct (stash_repay_success _ _ _ _ _ _ _ Hok) as (_ & _ & ? & _ & ? & ? & ?).
    repeat split; assumption.
  - intros Hok.
    destruct (stash_withdraw_success _ _ _ _ _ _ Hok) as (_ & _ & ? & _ & _ & ? & ? & ?).
    repeat split; assumption.
  - intros Hq from to amount s. split.
    + apply pulled_quiet. assumption.
    + apply sent_quiet. assumption.
Qed.

(** X20.  What a successful borrow or withdrawal has checked.  A borrow
    succeeds only if, in the storage it started from, the caller's debt plus
    the amount is at most 66% of the caller's deposits; a withdrawal succeeds
    only if the amount is at most the caller's deposits and the caller's debt
    is at most 80% of what remains.  Both call the token after writing, so
    with a token that does not call back the storage they leave satisfies the
    same bounds: debt at most 66% of the deposits after a borrow, at most 80%
    of the deposits after a withdrawal. *)
Theorem stash_success_within_limits (sender t : Address) (a : u256)
    (st : MockStash.Store) (w : World) :
  (is_ok (MockStash.result (MockStash.borrow extcall sender t a st w)) = true ->
   100 * (map_get (MockStash.userBorrows st) sender + a)
     <= 66 * map_get (MockStash.userDeposits st) sender) /\
  (is_ok (MockStash.result (MockStash.withdraw extcall sender t a st w)) = true ->
   a <= map_get (MockStash.userDeposits st) sender /\
   100 * map_get (MockStash.userBorrows st) sender
     <= 80 * (map_get (MockStash.userDeposits st) sender - a)) /\
  (MockStash.quiet extcall ->
   is_ok (MockStash.result (MockStash.borrow extcall sender t a st w)) = true ->
   100 * map_get (MockStash.userBorrows
                    (MockStash.store_of (MockStash.borrow extcall sender t a st w))) sender
     <= 66 * map_get (MockStash.userDeposits
                        (MockStash.store_of (MockStash.borrow extcall sender t a st w))) sender) /\
  (MockStash.quiet extcall ->
   is_ok (MockStash.result (MockStash.withdraw extcall sender t a st w)) = true ->
   100 * map_get (MockStash.userBorrows
                    (MockStash.store_of (MockStash.withdraw extcall sender t a st w))) sender
     <= 80 * map_get (MockStash.userDeposits
                        (MockStash.store_of (MockStash.withdraw extcall sender t a st w))) sender).
Proof.
  split; [|split; [|split]].
  - intros Hok.
    destruct (stash_borrow_success _ _ _ _ _ _ Hok) as (_ & _ & Hcap & _).
    pose proof (N.Div0.mul_div_le (map_get (MockStash.userDeposits st) sender * 66) 100).
    lia.
  - intros Hok.
    destruct (stash_withdraw_success _ _ _ _ _ _ Hok) as (_ & _ & Hle & _ & Hh & _).
    split; assumption.
  - intros Hq Hok.
    destruct (stash_borrow_success _ _ _ _ _ _ Hok) as (_ & _ & Hcap & _ & _ & -> & _).
    rewrite (sent_quiet extcall w _ sender a Hq).
    stash_simpl. rewrite map_get_set, N.eqb_refl.
    pose proof (N.Div0.mul_div_le (map_get (MockStash.userDeposits st) sender * 66) 100).
    lia.
  - intros Hq Hok.
    destruct (stash_withdraw_success _ _ _ _ _ _ Hok) as (_ & _ & _ & _ & Hh & -> & _).
    rewrite (sent_quiet extcall w _ sender a Hq).
    stash_simpl. rewrite map_get_set, N.eqb_refl. assumption.
Qed.

(** X21.  Every debt stays covered, without callbacks.  As long as no token
    call ever calls back into the pool, on every storage the pool reaches
    the token is set and, for every account, the debt is at most 80% of the
    deposits: 100 * debt <= 80 * deposits.  In particular an account without
    deposits has no debt.  (The pool holds no lock: a token that calls back
    while repay waits for it can leave a debt uncovered, see
    [pool_reentered].) *)
Theorem stash_always_collateralised (st : MockStash.Store) (user : Address) :
  MockStash.reachable_quietly this deployer st ->
  MockStash.token st <> zero_address /\
  100 * map_get (MockStash.userBorrows st) user
    <= 80 * map_get (MockStash.userDeposits st) user /\
  (map_get (MockStash.userDeposits st) user = 0 ->
   map_get (MockStash.userBorrows st) user = 0).
Proof.
  intros Hreach. destruct (stash_quiet_well_formed this deployer st Hreach)
    as [I1 I2 _ _ _ _].
  specialize (I2 user). repeat split; try assumption. lia.
Qed.

(** X22.  The totals are the sums, without callbacks.  As long as no token
    call ever calls back into the pool, on every storage the pool reaches
    totalDeposits is the sum of all user deposits and totalBorrows the sum of
    all user debts; both fit 256 bits, and so does every single balance.
    (With a token that calls back during repay the total and the sum can
    part, see [pool_reentered].) *)
Theorem stash_totals_are_sums (st : MockStash.Store) (user : Address) :
  MockStash.reachable_quietly this deployer st ->
  MockStash.totalDeposits st = MockStash.sum_of (MockStash.userDeposits st) /\
  MockStash.totalBorrows st = MockStash.sum_of (MockStash.userBorrows st) /\
  map_get (MockStash.userDeposits st) user <= MockStash.totalDeposits st <= U256_MAX /\
  map_get (MockStash.userBorrows st) user <= MockStash.totalBorrows st <= U256_MAX.
Proof.
  intros Hreach. destruct (stash_quiet_well_formed this deployer st Hreach)
    as [_ _ I3 I4 I5 I6].
  pose proof (sum_of_bound (MockStash.userDeposits st) user).
  pose proof (sum_of_bound (MockStash.userBorrows st) user).
  rewrite <- I3 in *. rewrite <- I4 in *. repeat split; assumption.
Qed.

(** X23.  The views answer with the books.  On a reachable storage of the
    pool, depositBalanceOf and borrowBalanceOf succeed for every account and
    the 32 bytes they return read back, with [readU256], as exactly the
    stored deposit and the stored debt; healthFactor of an account without
    debt reads back as the largest 256-bit number.  The views make no call
    and leave storage and world as they were. *)
Theorem stash_views_answer_the_books (sender account : Address)
    (st : MockStash.Store) (w : World) :
  MockStash.reachable this deployer st ->
  rbind (MockStash.result
           (MockStash.callMethod extcall this deployer sender
              (MockStash.DepositBalanceOf account) st w)) readU256
    = Ok (map_get (MockStash.userDeposits st) account) /\
  rbind (MockStash.result
           (MockStash.callMethod extcall this deployer sender
              (MockStash.BorrowBalanceOf account) st w)) readU256
    = Ok (map_get (MockStash.userBorrows st) account) /\
  (map_get (MockStash.userBorrows st) account = 0 ->
   rbind (MockStash.result
            (MockStash.callMethod extcall this deployer sender
               (MockStash.HealthFactor account) st w)) readU256
     = Ok U256_MAX) /\
  (forall m, is_view m = true ->
     MockStash.events (MockStash.callMethod extcall this deployer sender m st w) = [] /\
     MockStash.store_of (MockStash.callMethod extcall this deployer sender m st w) = st /\
     MockStash.world_of (MockStash.callMethod extcall this deployer sender m st w) = w).
Proof.
  intros Hreach. destruct (stash_reachable_fits this deployer st Hreach)
    as [_ (_ & _ & I3)].
  destruct (I3 account) as [Hdep Hbor]. simpl in Hdep, Hbor.
  split; [|split; [|split]].
  - stash_all. simpl. apply readU256_writeU256_small. assumption.
  - stash_all. simpl. apply readU256_writeU256_small. assumption.
  - intros Hd. simpl MockStash.callMethod. unfold MockStash.healthFactor.
    rewrite stash_bind_run, stash_health_run. apply N.eqb_eq in Hd. rewrite Hd.
    simpl. apply readU256_writeU256_small. lia.
  - intros m Hm. apply stash_view_quiet. assumption.
Qed.

(** X24.  The pool's health factor against the executor's minimum.  For an
    account in debt, the health factor the pool computes is at least 1e18
    exactly when 100 * debt <= 80 * deposits, and at least the executor's
    MIN_HEALTH_FACTOR_E18 (1.5e18) exactly when 15 * debt <= 8 * deposits:
    the executor accepts a debt of up to 8/15 of the collateral, less than
    the 66% the pool lends. *)
Theorem stash_health_factor_thresholds (account : Address) (st : MockStash.Store)
    (w : World) (hf : u256) :
  map_get (MockStash.userBorrows st) account <> 0 ->
  MockStash.result (MockStash.calculateHealthFactor (World:=World) account st w) = Ok hf ->
  (MockStash.E18 <= hf <->
     100 * map_get (MockStash.userBorrows st) account
       <= 80 * map_get (MockStash.userDeposits st) account) /\
  (MIN_HEALTH_FACTOR_E18 <= hf <->
     15 * map_get (MockStash.userBorrows st) account
       <= 8 * map_get (MockStash.userDeposits st) account).
Proof.
  intros Hd Hhf. apply stash_health_value in Hhf; [|assumption]. subst hf.
  pose proof (health_ratio (map_get (MockStash.userDeposits st) account) _ 10 Hd) as H10.
  pose proof (health_ratio (map_get (MockStash.userDeposits st) account) _ 15 Hd) as H15.
  change (10 * 100000000000000000) with MockStash.E18 in H10.
  change (15 * 100000000000000000) with MIN_HEALTH_FACTOR_E18 in H15.
  split.
  - rewrite H10. lia.
  - rewrite H15. lia.
Qed.

(** X25.  Borrowing the pool's full capacity fails the executor's minimum.
    For an account with at least 8 deposited whose debt is the full 66%
    capacity, the pool computes a health factor (the scaled deposit fitting
    256 bits) and it is below the executor's MIN_HEALTH_FACTOR_E18. *)
Theorem stash_full_capacity_below_minimum (account : Address) (st : MockStash.Store)
    (w : World) :
  8 <= map_get (MockStash.userDeposits st) account ->
  map_get (MockStash.userBorrows st) account
    = map_get (MockStash.userDeposits st) account * 66 / 100 ->
  map_get (MockStash.userDeposits st) account * 80 * MockStash.E18 <= U256_MAX ->
  exists hf,
    MockStash.calculateHealthFactor (World:=World) account st w
      = MockStash.mkRun [] w st (Ok hf) /\
    hf < MIN_HEALTH_FACTOR_E18.
Proof.
  intros Hc Hd Hfit.
  pose proof (N.mul_succ_div_gt (map_get (MockStash.userDeposits st) account * 66) 100
                ltac:(discriminate)) as Hq.
  assert (map_get (MockStash.userBorrows st) account <> 0) as Hnz by lia.
  exists (map_get (MockStash.userDeposits st) account * 80 * MockStash.E18 / 100
          / map_get (MockStash.userBorrows st) account).
  split.
  - rewrite stash_health_run. apply N.eqb_neq in Hnz. rewrite Hnz.
    unfold rbind, SafeMath.mul, SafeMath.div.
    assert (map_get (MockStash.userDeposits st) account * 80 <= U256_MAX) as Hfit'
      by (unfold MockStash.E18 in Hfit; lia).
    apply N.leb_le in Hfit, Hfit'. rewrite Hfit', Hfit. simpl (100 =? 0).
    cbv iota. rewrite Hnz. reflexivity.
  - apply N.lt_nge. intros Hge.
    change MIN_HEALTH_FACTOR_E18 with (15 * 100000000000000000) in Hge.
    apply (health_ratio _ _ 15 Hnz) in Hge. lia.
Qed.

(** X26.  The pool refuses the executor's unwind withdrawal.  For an account
    with debt, the amount the executor's unwind round asks to withdraw
    ([withdrawAmount] of the account's collateral and debt) always leaves at
    most the debt deposited, which is below what the pool requires: the
    pool's withdraw fails for that amount, without calling the token or
    changing the storage. *)
Theorem stash_rejects_unwind_withdrawal (sender t : Address) (a : u256)
    (st : MockStash.Store) (w : World) :
  map_get (MockStash.userBorrows st) sender <> 0 ->
  withdrawAmount (map_get (MockStash.userDeposits st) sender)
                 (map_get (MockStash.userBorrows st) sender) = Ok a ->
  is_ok (MockStash.result (MockStash.withdraw extcall sender t a st w)) = false /\
  MockStash.events (MockStash.withdraw extcall sender t a st w) = [] /\
  MockStash.store_of (MockStash.withdraw extcall sender t a st w) = st /\
  MockStash.world_of (MockStash.withdraw extcall sender t a st w) = w.
Proof.
  intros Hd Ha. rewrite withdrawAmount_spec in Ha. injection Ha as <-.
  pose proof (unwind_leaves_at_most_debt (map_get (MockStash.userDeposits st) sender) _ Hd).
  destruct (stash_withdraw_unhealthy extcall sender t
              (safe_withdrawal_spec (map_get (MockStash.userDeposits st) sender)
                                    (map_get (MockStash.userBorrows st) sender)) st w Hd)
    as (H1 & H2 & H3 & H4 & _); [lia|].
  repeat split; assumption.
Qed.

(** X27.  The pool's token belongs to the deployer.  Whatever method anyone
    other than the deployer calls, the transaction leaves the configured
    token as it was; the deployer's setToken fails on the zero address with
    "Token cannot be zero address" and otherwise replaces the token and
    nothing else, without an external call.  Deployment sets the token the
    same way: it fails on the zero address and otherwise stores the token. *)
Theorem stash_token_only_by_deployer (sender : Address) (m : MockStash.Method)
    (st : MockStash.Store) (w : World) :
  (sender <> deployer ->
   MockStash.token
     (fst (fst (MockStash.transact (MockStash.callMethod extcall this deployer sender m) st w)))
     = MockStash.token st) /\
  (forall a,
     MockStash.callMethod extcall this deployer deployer (MockStash.SetToken a) st w =
       if a =? zero_address
       then MockStash.mkRun [] w st (Err (Revert "Token cannot be zero address"))
       else MockStash.mkRun [] w (MockStash.set_token a st) (Ok (writeBoolean true))) /\
  (forall t,
     MockStash.onDeployment t st w =
       if t =? zero_address
       then MockStash.mkRun [] w st (Err (Revert "Token cannot be zero address"))
       else MockStash.mkRun [] w (MockStash.set_token t st) (Ok tt)).
Proof.
  split; [|split].
  3: { intros t. apply stash_onDeployment_run. }
  - intros Hs. rewrite stash_transact_store.
    destruct (is_ok (MockStash.result
                (MockStash.callMethod extcall this deployer sender m st w))) eqn:Hok;
      [|reflexivity].
    destruct m as [t a|t a|t a|t a|u|u|u|u|t].
    5-8: match goal with |- context [MockStash.callMethod _ _ _ _ ?m _ _] =>
           destruct (stash_view_quiet extcall this deployer sender m st w eq_refl)
             as (_ & -> & _) end; reflexivity.
    5: { simpl MockStash.callMethod in *. rewrite stash_setToken_run in *.
         apply N.eqb_neq in Hs. rewrite Hs in Hok. discriminate Hok. }
    all: simpl MockStash.callMethod in *.
    + destruct (stash_deposit_success _ _ _ _ _ _ _ Hok) as (_ & _ & _ & _ & -> & _).
      stash_simpl. unfold MockStash.pulled. apply left_by_token.
    + destruct (stash_borrow_success _ _ _ _ _ _ Hok) as (_ & _ & _ & _ & _ & -> & _).
      unfold MockStash.sent. rewrite left_by_token. reflexivity.
    + destruct (stash_repay_success _ _ _ _ _ _ _ Hok) as (_ & _ & _ & _ & -> & _).
      stash_simpl. unfold MockStash.pulled. apply left_by_token.
    + destruct (stash_withdraw_success _ _ _ _ _ _ Hok) as (_ & _ & _ & _ & _ & -> & _).
      unfold MockStash.sent. rewrite left_by_token. reflexivity.
  - intros a. simpl MockStash.callMethod. rewrite stash_setToken_run.
    rewrite N.eqb_refl. reflexivity.
Qed.

End StashFurther.


(** * The further properties on the concrete runs *)


Lemma pool_borrow_quietly :
  MockStash.reachable_quietly 8 1 (MockStash.store_of pool_borrow).
Proof.
  replace (MockStash.store_of pool_borrow)
    with (fst (fst (MockStash.transact
                      (MockStash.callMethod (MockStash.quietly scripted) 8 1 100
                         (MockStash.Borrow 9 660))
                      (MockStash.store_of pool_deposit) [yes])))
    by (vm_compute; reflexivity).
  apply MockStash.pool_transact_quietly; [|apply quietly_quiet].
  replace (MockStash.store_of pool_deposit)
    with (fst (fst (MockStash.transact
                      (MockStash.callMethod (MockStash.quietly scripted) 8 1 100
                         (MockStash.Deposit 9 1000))
                      pool_fresh [yes])))
    by (vm_compute; reflexivity).
  apply MockStash.pool_transact_quietly; [|apply quietly_quiet].
  apply MockStash.pool_deployed_quietly. discriminate.
Qed.

Lemma pool_borrow_reachable : MockStash.reachable 8 1 (MockStash.store_of pool_borrow).
Proof. apply reachable_quietly_reachable. exact pool_borrow_quietly. Qed.

(** X1 for the addresses of [fresh], and for a zero stash address. *)
Lemma deployment_validates_addresses_witness :
  store_of (onDeployment 7 8 9 blank ([] : list (option (list byte)))) = fresh /\
  result (onDeployment 7 0 9 blank ([] : list (option (list byte))))
    = Err (Revert "stash cannot be zero address").
Proof.
  split.
  - destruct (deployment_validates_addresses 7 8 9 blank ([] : list (option (list byte))))
      as (_ & _ & Hok & _).
    apply Hok. reflexivity.
  - destruct (deployment_validates_addresses 7 0 9 blank ([] : list (option (list byte))))
      as (_ & _ & _ & Hbad).
    apply Hbad. reflexivity.
Defined.

(** X2 for user 42 calling pause on a contract deployed by 1. *)
Lemma admin_requires_deployer_witness :
  callMethod scripted 100 1 42 Pause fresh [] = mkRun [] [] fresh (Err OnlyDeployer).
Proof.
  apply (admin_requires_deployer scripted 100 1 42 Pause fresh []);
    [reflexivity | discriminate].
Defined.

(** X3 for the deployer setting the treasury to zero and to 5. *)
Lemma deployer_settings_witness :
  callMethod scripted 100 1 1 (SetTreasury 0) fresh []
    = mkRun [] [] fresh (Err (Revert "treasury cannot be zero address")) /\
  callMethod scripted 100 1 1 (SetTreasury 5) fresh []
    = mkRun [] [] (set_treasury 5 fresh) (Ok true).
Proof.
  split.
  - exact (deployer_settings scripted 100 1 (SetTreasury 0) fresh [] eq_refl).
  - exact (deployer_settings scripted 100 1 (SetTreasury 5) fresh [] eq_refl).
Defined.

(** X4 for the open of [opened], made by user 42. *)
Lemma configuration_only_by_deployer_witness :
  paused (store_of opened) = paused fresh /\ treasury (store_of opened) = treasury fresh /\
  stash (store_of opened) = stash fresh /\ moto (store_of opened) = moto fresh.
Proof.
  replace (store_of opened)
    with (fst (fst (transact (callMethod scripted 100 1 42
                                (OpenPosition 1000000 1500000000000000000))
                              fresh open_script)))
    by (vm_compute; reflexivity).
  apply (configuration_only_by_deployer scripted 100 1 42). discriminate.
Defined.


(** X6 for the open of [opened]: an entry fee of 5000. *)
Lemma fees_accumulate_witness :
  totalFeesCollected (store_of opened) = totalFeesCollected fresh + 5000.
Proof.
  replace (store_of opened)
    with (fst (fst (transact (callMethod scripted 100 1 42
                                (OpenPosition 1000000 1500000000000000000))
                              fresh open_script)))
    by (vm_compute; reflexivity).
  exact (fees_accumulate scripted 100 1 42 (OpenPosition 1000000 1500000000000000000)
           fresh open_script).
Defined.


(** X8 on the run [opened]: 1000000 pulled from user 42, a fee of 5000. *)
Lemma open_token_flows_witness :
  pulls (events opened) = [(42, 100, 1000000)] /\
  transfers (events opened) = [(7, 5000)] /\
  allowance_calls (events opened) = [(true, 8, U256_MAX)].
Proof.
  destruct (open_token_flows scripted 100 42 1000000 1500000000000000000 fresh open_script)
    as (Hpull & Hfee & _ & Hallow).
  - vm_compute. reflexivity.
  - repeat split; assumption.
Defined.

(** X9 on the run [opened]: 497500 borrowed, 1492500 deposited. *)
Lemma open_books_match_borrowing_witness :
  map_get (userDebts (store_of opened)) 42 = borrowed (events opened) /\
  borrowed (events opened) = 497500 /\
  map_get (userDeposits (store_of opened)) 42 = 1492500.
Proof.
  destruct (open_books_match_borrowing scripted 100 42 1000000 1500000000000000000
              fresh open_script) as (Hdebt & _).
  - vm_compute. reflexivity.
  - split; [exact Hdebt|]. split; vm_compute; reflexivity.
Defined.

(** X10 on the run [plain], an open of 1000000 at leverage 1.0. *)
Lemma open_at_one_borrows_nothing_witness :
  result plain = Ok true /\
  borrowed (events plain) = 0 /\
  map_get (userDebts (store_of plain)) 42 = 0 /\
  map_get (userDeposits (store_of plain)) 42 = 1000000 - ceilFee 1000000 50.
Proof.
  split; [vm_compute; reflexivity|].
  apply (open_at_one_borrows_nothing scripted 100 42 1000000 fresh plain_script).
  vm_compute. reflexivity.
Defined.

(** X11 on the run [closed]. *)
Lemma close_settles_witness :
  locked (store_of closed) = false /\
  pulls (events closed) = [] /\
  allowance_calls (events closed) = [(true, 8, U256_MAX); (false, 8, U256_MAX)].
Proof.
  destruct (close_settles scripted 100 42 (store_of opened) close_script)
    as (Hlock & _ & _ & _ & _ & Hpull & Hallow).
  - vm_compute. reflexivity.
  - repeat split; assumption.
Defined.

(** X12 on the run [closed]: the pool reported 1492500 of collateral. *)
Lemma close_withdraws_reported_collateral_witness :
  collateral_read (events closed) = Some 1492500 /\
  withdrawn (events closed) = 1492500.
Proof.
  split; [vm_compute; reflexivity|].
  destruct (close_withdraws_reported_collateral scripted 100 42 (store_of opened) close_script)
    as (_ & Hall & _).
  apply (Hall 1492500); vm_compute; reflexivity.
Defined.

(** X13 for a close on the storage [fresh], where nobody has a position. *)
Lemma close_entry_checks_witness :
  closePosition scripted 100 42 fresh close_script
    = mkRun [] close_script (set_locked true fresh) (Err NoOpenPosition).
Proof.
  destruct (close_entry_checks scripted 100 42 fresh close_script) as (_ & Hnone & _).
  apply Hnone; reflexivity.
Defined.


(** X15 on the run [opened], which borrows 497500 after a quote of 656700. *)
Lemma open_borrows_within_quote_witness :
  borrows_quoted (events opened) = true /\ borrowed (events opened) = 497500.
Proof.
  split; [|vm_compute; reflexivity].
  exact (open_borrows_within_quote scripted 100 42 1000000 1500000000000000000
           fresh open_script).
Defined.

(** X16 on the run [closed], which repays 497500 after withdrawing 995000. *)
Lemma close_repays_from_withdrawal_witness :
  repays_funded (events closed) = true /\ repaid (events closed) = 497500.
Proof.
  split; [|vm_compute; reflexivity].
  exact (close_repays_from_withdrawal scripted 100 42 (store_of opened) close_script).
Defined.

(** X17 for a deposit of token 5 and a deposit of nothing. *)
Lemma stash_rejects_bad_requests_witness :
  MockStash.callMethod (MockStash.quietly scripted) 8 1 100 (MockStash.Deposit 5 10) pool_fresh [yes]
    = MockStash.mkRun [] [yes] pool_fresh (Err (Revert "Unsupported token")) /\
  MockStash.callMethod (MockStash.quietly scripted) 8 1 100 (MockStash.Deposit 9 0) pool_fresh [yes]
    = MockStash.mkRun [] [yes] pool_fresh (Err (Revert "Amount must be > 0")).
Proof.
  split.
  - apply (stash_rejects_bad_requests (MockStash.quietly scripted) 8 1 100 (MockStash.Deposit 5 10) 5 10
             pool_fresh [yes] eq_refl).
    left. discriminate.
  - apply (stash_rejects_bad_requests (MockStash.quietly scripted) 8 1 100 (MockStash.Deposit 9 0) 9 0
             pool_fresh [yes] eq_refl).
    right. reflexivity.
Defined.

(** X18 after [pool_borrow]: one more unit cannot be borrowed. *)
Lemma stash_enforces_limits_witness :
  MockStash.borrow (MockStash.quietly scripted) 100 9 1 (MockStash.store_of pool_borrow) [yes]
    = MockStash.mkRun [] [yes] (MockStash.store_of pool_borrow)
        (Err (Revert "Exceeds borrowing capacity")).
Proof.
  destruct (stash_enforces_limits (MockStash.quietly scripted) 8 100 1 (MockStash.store_of pool_borrow) [yes])
    as (Hcap & _).
  apply Hcap; vm_compute; first [discriminate | reflexivity].
Defined.

(** X19 on [pool_deposit] and [pool_borrow], whose token does not call
    back, and on [pool_reentered], whose token does: the token repays 50 of
    its debt of 100 and, called by the pool, repays the 100 and withdraws its
    1000; the repayment of 50 then leaves it a debt of 50 - from the 100 it
    read before the call - against no deposit. *)
Lemma stash_books_follow_tokens_witness :
  pulls (MockStash.events pool_deposit) = [(100, 8, 1000)] /\
  transfers (MockStash.events pool_borrow) = [(100, 660)] /\
  MockStash.result pool_reentered = Ok (writeBoolean true) /\
  map_get (MockStash.userBorrows pool_held) 9 = 100 /\
  map_get (MockStash.b_userBorrows pool_callback) 9 = 0 /\
  map_get (MockStash.userBorrows (MockStash.store_of pool_reentered)) 9 = 50 /\
  map_get (MockStash.userDeposits (MockStash.store_of pool_reentered)) 9 = 0.
Proof.
  split; [|split].
  - destruct (stash_books_follow_tokens (MockStash.quietly scripted) 8 100 9 1000
                pool_fresh [yes]) as (Hdep & _).
    apply Hdep. vm_compute. reflexivity.
  - destruct (stash_books_follow_tokens (MockStash.quietly scripted) 8 100 9 660
                (MockStash.store_of pool_deposit) [yes]) as (_ & Hbor & _).
    apply Hbor. vm_compute. reflexivity.
  - destruct (stash_books_follow_tokens (MockStash.calling_back pool_callback scripted)
                8 9 9 50 pool_held [yes]) as (_ & _ & Hrep & _).
    destruct Hrep as (_ & _ & _ & Hstore); [vm_compute; reflexivity|].
    split; [vm_compute; reflexivity|]. split; [vm_compute; reflexivity|].
    split; [vm_compute; reflexivity|].
    unfold pool_reentered. rewrite Hstore. split; vm_compute; reflexivity.
Defined.

(** X20 on [pool_borrow] and [pool_withdraw]. *)
Lemma stash_success_within_limits_witness :
  100 * (0 + 660) <= 66 * 1000 /\
  100 * map_get (MockStash.userBorrows (MockStash.store_of pool_borrow)) 100
    <= 66 * map_get (MockStash.userDeposits (MockStash.store_of pool_borrow)) 100 /\
  100 * map_get (MockStash.userBorrows (MockStash.store_of pool_withdraw)) 100
    <= 80 * map_get (MockStash.userDeposits (MockStash.store_of pool_withdraw)) 100.
Proof.
  split; [|split].
  - exact (proj1 (stash_success_within_limits (MockStash.quietly scripted) 100 9 660
                    (MockStash.store_of pool_deposit) [yes]) eq_refl).
  - apply (stash_success_within_limits (MockStash.quietly scripted) 100 9 660
             (MockStash.store_of pool_deposit) [yes]).
    + apply quietly_quiet.
    + vm_compute. reflexivity.
  - apply (stash_success_within_limits (MockStash.quietly scripted) 100 9 100
             (MockStash.store_of pool_repay) [yes]).
    + apply quietly_quiet.
    + vm_compute. reflexivity.
Defined.

(** X21 for account 100 after [pool_borrow]. *)
Lemma stash_always_collateralised_witness :
  100 * map_get (MockStash.userBorrows (MockStash.store_of pool_borrow)) 100
    <= 80 * map_get (MockStash.userDeposits (MockStash.store_of pool_borrow)) 100.
Proof.
  apply (stash_always_collateralised 8 1 (MockStash.store_of pool_borrow) 100
           pool_borrow_quietly).
Defined.

(** X22 after [pool_borrow]. *)
Lemma stash_totals_are_sums_witness :
  MockStash.totalDeposits (MockStash.store_of pool_borrow)
    = MockStash.sum_of (MockStash.userDeposits (MockStash.store_of pool_borrow)) /\
  MockStash.totalBorrows (MockStash.store_of pool_borrow)
    = MockStash.sum_of (MockStash.userBorrows (MockStash.store_of pool_borrow)).
Proof.
  destruct (stash_totals_are_sums 8 1 (MockStash.store_of pool_borrow) 100
              pool_borrow_quietly) as (Hd & Hb & _).
  split; assumption.
Defined.

(** X23 for account 100 after [pool_borrow]. *)
Lemma stash_views_answer_the_books_witness :
  rbind (MockStash.result
           (MockStash.callMethod (MockStash.quietly scripted) 8 1 42 (MockStash.DepositBalanceOf 100)
              (MockStash.store_of pool_borrow) [])) readU256 = Ok 1000 /\
  rbind (MockStash.result
           (MockStash.callMethod (MockStash.quietly scripted) 8 1 42 (MockStash.BorrowBalanceOf 100)
              (MockStash.store_of pool_borrow) [])) readU256 = Ok 660.
Proof.
  destruct (stash_views_answer_the_books (MockStash.quietly scripted) 8 1 42 100
              (MockStash.store_of pool_borrow) [] pool_borrow_reachable)
    as (Hd & Hb & _).
  split; [exact Hd | exact Hb].
Defined.

(** X24 for account 100 after [pool_borrow]: 1000 deposited, 660 owed. *)
Lemma stash_health_factor_thresholds_witness :
  (MockStash.E18 <= 1212121212121212121 <-> 100 * 660 <= 80 * 1000) /\
  (MIN_HEALTH_FACTOR_E18 <= 1212121212121212121 <-> 15 * 660 <= 8 * 1000).
Proof.
  apply (stash_health_factor_thresholds (World:=list (option (list byte))) 100
           (MockStash.store_of pool_borrow) [] 1212121212121212121).
  - vm_compute. discriminate.
  - vm_compute. reflexivity.
Defined.

(** X25 for account 100 after [pool_borrow]. *)
Lemma stash_full_capacity_below_minimum_witness :
  exists hf,
    MockStash.calculateHealthFactor 100 (MockStash.store_of pool_borrow)
      ([] : list (option (list byte)))
      = MockStash.mkRun [] [] (MockStash.store_of pool_borrow) (Ok hf) /\
    hf < MIN_HEALTH_FACTOR_E18.
Proof.
  apply (stash_full_capacity_below_minimum 100 (MockStash.store_of pool_borrow) []).
  - vm_compute. discriminate.
  - vm_compute. reflexivity.
  - vm_compute. discriminate.
Defined.

(** X26 for account 100 after [pool_borrow]: the unwind asks for 500. *)
Lemma stash_rejects_unwind_withdrawal_witness :
  withdrawAmount 1000 660 = Ok 500 /\
  is_ok (MockStash.result
           (MockStash.withdraw (MockStash.quietly scripted) 100 9 500 (MockStash.store_of pool_borrow) [yes]))
    = false.
Proof.
  split; [vm_compute; reflexivity|].
  apply (stash_rejects_unwind_withdrawal (MockStash.quietly scripted) 100 9 500
           (MockStash.store_of pool_borrow) [yes]).
  - vm_compute. discriminate.
  - vm_compute. reflexivity.
Defined.

(** X27 for account 100 calling setToken on the pool deployed by 1. *)
Lemma stash_token_only_by_deployer_witness :
  MockStash.token
    (fst (fst (MockStash.transact
                 (MockStash.callMethod (MockStash.quietly scripted) 8 1 100 (MockStash.SetToken 5))
                 pool_fresh [])))
    = MockStash.token pool_fresh.
Proof.
  destruct (stash_token_only_by_deployer (MockStash.quietly scripted) 8 1 100 (MockStash.SetToken 5)
              pool_fresh []) as (Hkeep & _).
  apply Hkeep. discriminate.
Defined.
